(** * Workflow execution engine (python/helpers/workflow_engine.py)

    A shallow embedding of the [WorkflowEngine] class and of the three
    module-level entry points, followed by the properties of the engine
    that the specification talks about.

    Conventions of the embedding.
    - Python values that travel through the engine (the wire payload, node
      results, run variables) are terms of [value].
    - A float is held as a count of microseconds; the only floats the engine
      itself produces are clock readings and the literal [1.0].
    - A call either returns or raises: [outcome].  State changes made before
      a raise persist, as in Python.
    - [await] is sequential composition: one run is a single logical control
      flow, and the engine's only fan-out ([asyncio.gather]) joins before it
      returns.
    - Recursion of the resolver [execute_node] is bounded by a fuel argument;
      running out of fuel is [None] and is not a Python exception.
    - The faults of the model are of class [Exception] (see [exn_class]).
      The expression evaluator, the agent and its tools are parameters
      ([Runtime], [AgentContext]): functions of their arguments that return
      a value or raise such a fault.  A collaborator that never returns, that
      is cancelled, or that changes the variables it is handed is outside
      the model, and so is every property of such a call. *)

From Stdlib Require Import ZArith List String Ascii Bool Lia Sorted.
From stdpp Require Import base option list strings pretty gmap.

Set Warnings "-register-all".

Local Open Scope string_scope.
Local Open Scope Z_scope.

(** ** Exceptions and values *)

(** The classes of the faults of the model.  All of them are subclasses of
    [Exception], the class that the [except Exception] clauses of the engine
    catch.  What lies outside that class ([KeyboardInterrupt], [SystemExit],
    [asyncio.CancelledError]) is raised nowhere by the engine's own code; it
    passes every [except Exception] clause and is not represented. *)
Inductive exn_class :=
| PyException        (* raise Exception(...) *)
| NameError
| KeyError
| ValueError
| TypeError
| AttributeError
| IndexError
| RecursionError     (* the interpreter's recursion limit was reached *)
| External.          (* a fault of a collaborator outside this module *)

(** [exn_msg] is what [str(e)] returns. *)
Record exn := Exn { exn_cls : exn_class; exn_msg : string }.

Inductive outcome (A : Type) :=
| Ok (a : A)
| Raise (e : exn).
Arguments Ok {A} a.
Arguments Raise {A} e.

Inductive value :=
| VNone
| VBool (b : bool)
| VInt (n : Z)
| VFloat (us : Z)
| VStr (s : string)
| VList (xs : list value)
| VDict (kvs : list (string * value))
| VExc (e : exn).

Definition micro : Z := 1000000.

(** ** The interpreter's primitives on values *)

Definition type_name (v : value) : string :=
  match v with
  | VNone => "NoneType"
  | VBool _ => "bool"
  | VInt _ => "int"
  | VFloat _ => "float"
  | VStr _ => "str"
  | VList _ => "list"
  | VDict _ => "dict"
  | VExc _ => "Exception"
  end.

(** [bool(v)]. *)
Definition py_truthy (v : value) : bool :=
  match v with
  | VNone => false
  | VBool b => b
  | VInt n => negb (n =? 0)
  | VFloat us => negb (us =? 0)
  | VStr s => negb (String.eqb s "")
  | VList xs => match xs with [] => false | _ => true end
  | VDict kvs => match kvs with [] => false | _ => true end
  | VExc _ => true
  end.

(** Numbers compare across bool, int and float. *)
Definition as_number (v : value) : option Z :=
  match v with
  | VBool b => Some (Z.b2z b * micro)
  | VInt n => Some (n * micro)
  | VFloat us => Some us
  | _ => None
  end.

(** [a == b] where one side is a dict key or a set member.  Every comparison
    the engine makes has that shape, so one side is hashable, and a hashable
    value equals no list and no dict.  Exception objects compare by identity
    and two of them never meet here. *)
Definition py_eq (a b : value) : bool :=
  match a, b with
  | VNone, VNone => true
  | VStr s, VStr t => String.eqb s t
  | _, _ =>
      match as_number a, as_number b with
      | Some x, Some y => x =? y
      | _, _ => false
      end
  end.

Definition unhashable (v : value) : exn :=
  Exn TypeError ("unhashable type: '" +:+ type_name v +:+ "'").

(** [hash(v)]: lists and dicts have none. *)
Definition py_hash (v : value) : outcome unit :=
  match v with
  | VList _ | VDict _ => Raise (unhashable v)
  | _ => Ok tt
  end.

Fixpoint join (sep : string) (parts : list string) : string :=
  match parts with
  | [] => ""
  | [p] => p
  | p :: rest => p +:+ sep +:+ join sep rest
  end.

Definition quoted (s : string) : string := "'" +:+ s +:+ "'".

Definition class_name (c : exn_class) : string :=
  match c with
  | PyException => "Exception"
  | NameError => "NameError"
  | KeyError => "KeyError"
  | ValueError => "ValueError"
  | TypeError => "TypeError"
  | AttributeError => "AttributeError"
  | IndexError => "IndexError"
  | RecursionError => "RecursionError"
  | External => "Exception"
  end.

Fixpoint drop_zeros (digits : list ascii) : list ascii :=
  match digits with
  | c :: rest => if Ascii.eqb c "0" then drop_zeros rest else digits
  | [] => []
  end.

(** [repr] of the float that a count of microseconds stands for, as the
    shortest decimal that reads back as that float: the fractional digits
    without trailing zeros but at least one of them, and an exponent when
    the float is below 0.0001.  (Magnitudes from 1e16 on, which Python prints
    with an exponent too, are no clock readings and no delays.) *)
Definition float_text (us : Z) : string :=
  let a := Z.abs us in
  let sign := if us <? 0 then "-" else "" in
  if (0 <? a) && (a <? 100) then
    sign +:+
    (if a <? 10 then pretty a +:+ "e-06"
     else pretty (a / 10)
          +:+ (if a mod 10 =? 0 then "" else "." +:+ pretty (a mod 10))
          +:+ "e-05")
  else
    let frac := pretty (a mod micro) in
    let digits :=
      (repeat "0"%char (6 - String.length frac) ++ list_ascii_of_string frac)%list in
    sign +:+ pretty (a / micro) +:+ "." +:+
    match rev (drop_zeros (rev digits)) with
    | [] => "0"
    | kept => string_of_list_ascii kept
    end.

Definition backslash : ascii := ascii_of_nat 92.

Definition hex_digit (n : Z) : ascii :=
  nth (Z.to_nat n) (list_ascii_of_string "0123456789abcdef") "0"%char.

(** How [repr] writes one character of a string that it wraps in [quote].
    Characters are code points below 256; the ones that are not printable
    are the control characters, 127 to 160 and the soft hyphen 173. *)
Definition escape_char (quote c : ascii) : string :=
  let n := Z.of_nat (nat_of_ascii c) in
  if Ascii.eqb c quote || Ascii.eqb c backslash then String backslash (String c "")
  else if n =? 9 then String backslash "t"
  else if n =? 10 then String backslash "n"
  else if n =? 13 then String backslash "r"
  else if (n <? 32) || ((127 <=? n) && (n <=? 160)) || (n =? 173)
  then String backslash (String "x" (String (hex_digit (n / 16))
                                            (String (hex_digit (n mod 16)) "")))
  else String c "".

(** [repr(s)] of a string: in single quotes, unless the string has a single
    quote and no double quote. *)
Definition str_repr (s : string) : string :=
  let chars := list_ascii_of_string s in
  let quote :=
    if existsb (Ascii.eqb "'") chars && negb (existsb (Ascii.eqb (ascii_of_nat 34)) chars)
    then ascii_of_nat 34 else "'"%char in
  String quote (join "" (map (escape_char quote) chars)) +:+ String quote "".

(** [repr(v)]. *)
Fixpoint py_repr (v : value) : string :=
  match v with
  | VNone => "None"
  | VBool true => "True"
  | VBool false => "False"
  | VInt n => pretty n
  | VFloat us => float_text us
  | VStr s => str_repr s
  | VList xs => "[" +:+ join ", " (map py_repr xs) +:+ "]"
  | VDict kvs =>
      "{" +:+ join ", " (map (fun kv => match kv with
                                       | (k, x) => str_repr k +:+ ": " +:+ py_repr x
                                       end) kvs) +:+ "}"
  | VExc e => class_name (exn_cls e) +:+ "(" +:+ str_repr (exn_msg e) +:+ ")"
  end.

(** [str(v)], also what an f-string field prints. *)
Definition py_str (v : value) : string :=
  match v with
  | VStr s => s
  | VExc e => exn_msg e
  | _ => py_repr v
  end.

(** *** Dictionaries

    A dict keeps insertion order; assigning to a key that is present keeps
    its place. *)

Fixpoint dict_get {A} (k : string) (d : list (string * A)) : option A :=
  match d with
  | [] => None
  | (k', x) :: rest => if String.eqb k k' then Some x else dict_get k rest
  end.

Fixpoint dict_set {A} (k : string) (x : A) (d : list (string * A)) : list (string * A) :=
  match d with
  | [] => [(k, x)]
  | (k', y) :: rest =>
      if String.eqb k k' then (k, x) :: rest else (k', y) :: dict_set k x rest
  end.

(** The same with arbitrary hashable keys (node ids). *)
Fixpoint vdict_get {A} (k : value) (d : list (value * A)) : option A :=
  match d with
  | [] => None
  | (k', x) :: rest => if py_eq k' k then Some x else vdict_get k rest
  end.

Fixpoint vdict_set {A} (k : value) (x : A) (d : list (value * A)) : list (value * A) :=
  match d with
  | [] => [(k, x)]
  | (k', y) :: rest =>
      if py_eq k' k then (k', x) :: rest else (k', y) :: vdict_set k x rest
  end.

(** Membership in a set of hashable values. *)
Definition set_mem (k : value) (s : list value) : bool := existsb (fun x => py_eq x k) s.

Definition set_add (k : value) (s : list value) : list value :=
  if set_mem k s then s else s ++ [k].

(** [obj.get(key, dflt)]. *)
Definition py_get (obj : value) (key : string) (dflt : value) : outcome value :=
  match obj with
  | VDict kvs => Ok (default dflt (dict_get key kvs))
  | _ => Raise (Exn AttributeError
                  (quoted (type_name obj) +:+ " object has no attribute 'get'"))
  end.

(** [obj[key]] with a string key. *)
Definition py_getitem (obj : value) (key : string) : outcome value :=
  match obj with
  | VDict kvs =>
      match dict_get key kvs with
      | Some x => Ok x
      | None => Raise (Exn KeyError (str_repr key))
      end
  | VList _ => Raise (Exn TypeError "list indices must be integers or slices, not str")
  | VStr _ => Raise (Exn TypeError "string indices must be integers, not 'str'")
  | _ => Raise (Exn TypeError (quoted (type_name obj) +:+ " object is not subscriptable"))
  end.

Definition not_iterable (v : value) : exn :=
  Exn TypeError (quoted (type_name v) +:+ " object is not iterable").

(** What [for item in obj] visits. *)
Definition py_iter (obj : value) : outcome (list value) :=
  match obj with
  | VList xs => Ok xs
  | VDict kvs => Ok (map (fun kv => VStr (fst kv)) kvs)
  | VStr s => Ok (map (fun c => VStr (String c EmptyString)) (list_ascii_of_string s))
  | _ => Raise (not_iterable obj)
  end.

(** [key in obj] for a string [key]. *)
Definition py_in (key : string) (obj : value) : outcome bool :=
  match obj with
  | VDict kvs => Ok (bool_decide (is_Some (dict_get key kvs)))
  | VList xs => Ok (existsb (fun x => py_eq x (VStr key)) xs)
  | VStr s => Ok (bool_decide (is_Some (String.index 0 key s)))
  | _ => Raise (Exn TypeError ("argument of type " +:+ quoted (type_name obj)
                               +:+ " is not iterable"))
  end.

(** [c.isspace()] on the code points below 256: tab to carriage return, the
    separators 28 to 31, the space, next line (133) and the no-break space
    (160). *)
Definition is_space (c : ascii) : bool :=
  let n := nat_of_ascii c in
  (((9 <=? n) && (n <=? 13)) || ((28 <=? n) && (n <=? 32))
   || (n =? 133) || (n =? 160))%nat.

Fixpoint lstrip (s : string) : string :=
  match s with
  | String c rest => if is_space c then lstrip rest else s
  | EmptyString => s
  end.

(** [s.strip()]. *)
Definition py_strip (s : string) : string :=
  String.rev (lstrip (String.rev (lstrip s))).

(** [s.split(sep)] for a one-character separator. *)
Fixpoint split_on (sep : ascii) (s : string) : list string :=
  match s with
  | EmptyString => [EmptyString]
  | String c rest =>
      if Ascii.eqb c sep then EmptyString :: split_on sep rest
      else match split_on sep rest with
           | p :: ps => String c p :: ps
           | [] => [String c EmptyString]
           end
  end.

Definition startswith (p s : string) : bool := String.prefix p s.

Definition newline : string := String (ascii_of_nat 10) EmptyString.

(** ** The data model *)

Inductive NodeType :=
| INPUT | AGENT | TOOL | CONDITION | OUTPUT | LOOP | PARALLEL | MERGE.

Definition NodeType_value (t : NodeType) : string :=
  match t with
  | INPUT => "input"
  | AGENT => "agent"
  | TOOL => "tool"
  | CONDITION => "condition"
  | OUTPUT => "output"
  | LOOP => "loop"
  | PARALLEL => "parallel"
  | MERGE => "merge"
  end.

(** The name of the member, as [str(node.type)] prints it after the dot. *)
Definition NodeType_name (t : NodeType) : string :=
  match t with
  | INPUT => "INPUT"
  | AGENT => "AGENT"
  | TOOL => "TOOL"
  | CONDITION => "CONDITION"
  | OUTPUT => "OUTPUT"
  | LOOP => "LOOP"
  | PARALLEL => "PARALLEL"
  | MERGE => "MERGE"
  end.

Definition NodeType_members : list NodeType :=
  [INPUT; AGENT; TOOL; CONDITION; OUTPUT; LOOP; PARALLEL; MERGE].

Definition NodeType_eqb (a b : NodeType) : bool :=
  String.eqb (NodeType_value a) (NodeType_value b).

(** [NodeType(v)]: lookup of an enum member by value. *)
Definition NodeType_of (v : value) : outcome NodeType :=
  match find (fun t => py_eq v (VStr (NodeType_value t))) NodeType_members with
  | Some t => Ok t
  | None => Raise (Exn ValueError (py_repr v +:+ " is not a valid NodeType"))
  end.

Record WorkflowNode := {
  node_id : value;
  node_type : NodeType;
  config : value;
  data : value;
  x : value;
  y : value
}.

Record WorkflowConnection := {
  conn_id : value;
  from_node : value;
  from_output : value;
  to_node : value;
  to_input : value
}.

(** One entry of the execution log: the dict
    [{"timestamp", "level", "message", "node_id", "result"}], the last two
    keys being absent from some entries. *)
Record log_entry := {
  timestamp : Z;
  level : string;
  message : string;
  entry_node : option value;
  entry_result : option string
}.

Record WorkflowExecution := {
  exec_id : string;
  status : string;
  current_node : option value;
  variables : list (string * value);
  execution_log : list log_entry;
  start_time : Z;
  end_time : option Z
}.

Definition set_status (s : string) (e : WorkflowExecution) : WorkflowExecution :=
  {| exec_id := exec_id e; status := s; current_node := current_node e;
     variables := variables e; execution_log := execution_log e;
     start_time := start_time e; end_time := end_time e |}.

Definition set_end_time (t : Z) (e : WorkflowExecution) : WorkflowExecution :=
  {| exec_id := exec_id e; status := status e; current_node := current_node e;
     variables := variables e; execution_log := execution_log e;
     start_time := start_time e; end_time := Some t |}.

Definition set_current_node (n : value) (e : WorkflowExecution) : WorkflowExecution :=
  {| exec_id := exec_id e; status := status e; current_node := Some n;
     variables := variables e; execution_log := execution_log e;
     start_time := start_time e; end_time := end_time e |}.

Definition set_variable (k : string) (v : value) (e : WorkflowExecution) : WorkflowExecution :=
  {| exec_id := exec_id e; status := status e; current_node := current_node e;
     variables := dict_set k v (variables e); execution_log := execution_log e;
     start_time := start_time e; end_time := end_time e |}.

Definition log_append (l : log_entry) (e : WorkflowExecution) : WorkflowExecution :=
  {| exec_id := exec_id e; status := status e; current_node := current_node e;
     variables := variables e; execution_log := execution_log e ++ [l];
     start_time := start_time e; end_time := end_time e |}.

(** ** Collaborators outside the module *)

(** A tool object, reduced to its [execute] applied to keyword arguments,
    followed by [.message] of the response. *)
Definition Tool : Type := list (string * value) -> outcome value.

(** [AgentContext] of the agent framework, reduced to what the engine calls:
    [communicate(message)] awaited to its result, and [get_tool] of the
    context's agent.  A call returns a value or raises a fault of class
    [Exception]; a call that never returns or that is cancelled has no
    counterpart here. *)
Record AgentContext := {
  context_id : string;
  communicate : string -> outcome value;
  get_tool : value -> list (value * value) -> outcome Tool
}.

(** The interpreter and the standard library, reduced to what the engine
    calls: the wall clock (its n-th reading, in microseconds), [eval] on an
    expression and its local scope, [json.loads], [json.dumps] and
    [template.format(value=...)].  [py_eval] is a function of the expression
    and of the values in scope: an expression that changes an object it is
    handed ([variables] is the dict of the run itself) has no counterpart
    here. *)
Record Runtime := {
  clock : nat -> Z;
  py_eval : string -> list (string * value) -> outcome value;
  json_loads : string -> outcome value;
  json_dumps : value -> outcome string;
  str_format : string -> value -> outcome string
}.

(** ** Names bound at module level

    [import time] occurs only inside the bodies of [execute_workflow] and
    [_execute_single_node], where it binds a local name.  Every other
    function that mentions [time] looks it up among the module's globals. *)
Definition module_globals : list string :=
  ["asyncio"; "json"; "Dict"; "Any"; "List"; "Optional"; "dataclass"; "Enum";
   "Agent"; "AgentContext"; "UserMessage"; "NodeType"; "WorkflowNode";
   "WorkflowConnection"; "WorkflowExecution"; "WorkflowEngine";
   "_workflow_engine"; "get_workflow_engine"; "execute_workflow";
   "validate_workflow"].

Definition load_global (name : string) : outcome unit :=
  if existsb (String.eqb name) module_globals then Ok tt
  else Raise (Exn NameError ("name " +:+ quoted name +:+ " is not defined")).

(** ** The monad of one run: state, exceptions, fuel *)

Record run_state := {
  execution : WorkflowExecution;
  ticks : nat;                       (* clock readings taken so far *)
  visited : list value;              (* closure variable of the graph walk *)
  results : list (value * value)     (* closure variable of the graph walk *)
}.

(** A computation over a state [S]: [None] when the fuel ran out, otherwise
    the outcome together with the state it left. *)
Definition ST (S A : Type) : Type := S -> option (outcome A * S).

Definition ret {S A} (a : A) : ST S A := fun s => Some (Ok a, s).
Definition raise {S A} (e : exn) : ST S A := fun s => Some (Raise e, s).
Definition diverge {S A} : ST S A := fun _ => None.

Definition bind {S A B} (m : ST S A) (k : A -> ST S B) : ST S B :=
  fun s =>
    match m s with
    | None => None
    | Some (Ok a, s') => k a s'
    | Some (Raise e, s') => Some (Raise e, s')
    end.

Notation "'let*' x ':=' m 'in' k" := (bind m (fun x => k))
  (at level 10, x name, m at level 100, k at level 200).
Notation "m ';;;' k" := (bind m (fun _ => k))
  (at level 100, k at level 200, right associativity).

(** [try: m except Exception as e: h e].  Every fault of the model is of
    class [Exception], so the handler takes every [Raise]. *)
Definition try_except {S A} (m : ST S A) (h : exn -> ST S A) : ST S A :=
  fun s =>
    match m s with
    | Some (Raise e, s') => h e s'
    | r => r
    end.

Definition lift {S A} (o : outcome A) : ST S A :=
  match o with
  | Ok a => ret a
  | Raise e => raise e
  end.

Definition get_state {S} : ST S S := fun s => Some (Ok s, s).
Definition modify {S} (f : S -> S) : ST S unit := fun s => Some (Ok tt, f s).

Fixpoint for_each {S A B} (f : A -> ST S B) (xs : list A) : ST S (list B) :=
  match xs with
  | [] => ret []
  | a :: rest =>
      let* b := f a in
      let* bs := for_each f rest in
      ret (b :: bs)
  end.

Fixpoint fold_each {S A B} (f : B -> A -> ST S B) (xs : list A) (acc : B) : ST S B :=
  match xs with
  | [] => ret acc
  | a :: rest => let* acc' := f acc a in fold_each f rest acc'
  end.

(** The monad of one run of [execute_workflow]. *)
Definition M : Type -> Type := ST run_state.

Definition get_execution : M WorkflowExecution :=
  fun s => Some (Ok (execution s), s).

Definition update_execution (f : WorkflowExecution -> WorkflowExecution) : M unit :=
  modify (fun s => {| execution := f (execution s); ticks := ticks s;
                      visited := visited s; results := results s |}).

(** [visited.add(k); results[k] = v] *)
Definition mark_visited (k v : value) : M unit :=
  modify (fun s => {| execution := execution s; ticks := ticks s;
                      visited := set_add k (visited s);
                      results := vdict_set k v (results s) |}).

(** [gather(..., return_exceptions=True)] on one awaitable: an exception
    becomes the unit's entry instead of propagating. *)
Definition capture (m : M value) : M value :=
  try_except m (fun e => ret (VExc e)).

(** ** The engine *)

Section Engine.

Variable rt : Runtime.
Variable ctx : AgentContext.   (* self.context *)

(** [time.time()] where [time] is a local name of the function. *)
Definition time_time : M Z :=
  fun s => Some (Ok (clock rt (ticks s)),
                 {| execution := execution s; ticks := S (ticks s);
                    visited := visited s; results := results s |}).

(** [time.time()] where [time] is looked up among the module's globals. *)
Definition global_time_time : M Z :=
  lift (load_global "time") ;;; time_time.

Definition inputs_get (inputs : list (string * value)) (k : string) (dflt : value) : value :=
  default dflt (dict_get k inputs).

(** [[value for key, value in inputs.items() if key.startswith("input_")]] *)
Definition input_values (inputs : list (string * value)) : list value :=
  map snd (List.filter (fun kv => startswith "input_" (fst kv)) inputs).

Definition _execute_input_node (node : WorkflowNode) (inputs : list (string * value)) : M value :=
  let* e := get_execution in
  match dict_get "input" (variables e) with
  | Some v => ret v
  | None => lift (py_get (data node) "default_value" (VStr ""))
  end.

Definition _execute_agent_node (node : WorkflowNode) (inputs : list (string * value)) : M value :=
  let input_text := inputs_get inputs "input_0" (VStr "") in
  let* input_text :=
    match input_text with
    | VDict _ => lift (json_dumps rt input_text)
    | VStr s => ret s
    | _ => ret (py_str input_text)
    end in
  let* instructions := lift (py_get (data node) "instructions" (VStr "")) in
  let enhanced_message :=
    py_strip (py_str instructions +:+ newline +:+ newline +:+ input_text) in
  lift (communicate ctx enhanced_message).

(** [{**tool_args}] *)
Definition unpack_mapping (v : value) : outcome (list (value * value)) :=
  match v with
  | VDict kvs => Ok (map (fun kv => (VStr (fst kv), snd kv)) kvs)
  | _ => Raise (Exn TypeError (quoted (type_name v) +:+ " object is not a mapping"))
  end.

(** Keyword arguments of a call must have string names. *)
Fixpoint keywords (args : list (value * value)) : outcome (list (string * value)) :=
  match args with
  | [] => Ok []
  | (VStr k, v) :: rest =>
      match keywords rest with
      | Ok kws => Ok ((k, v) :: kws)
      | Raise e => Raise e
      end
  | _ :: _ => Raise (Exn TypeError "keywords must be strings")
  end.

Definition _execute_tool_node (node : WorkflowNode) (inputs : list (string * value)) : M value :=
  let* tool_name := lift (py_get (data node) "tool_name" (VStr "knowledge_tool")) in
  let* tool_args := lift (py_get (data node) "tool_args" (VDict [])) in
  let* combined_args := lift (unpack_mapping tool_args) in
  let* combined_args :=
    fold_each (fun acc kv =>
      if startswith "input_" (fst kv) then
        let* index :=
          match split_on "_"%char (fst kv) with
          | _ :: index :: _ => ret index
          | _ => raise (Exn IndexError "list index out of range")
          end in
        let* param_name :=
          lift (py_get (data node) ("input_param_" +:+ index) (VStr "query")) in
        lift (py_hash param_name) ;;;
        ret (vdict_set param_name (snd kv) acc)
      else ret acc) inputs combined_args in
  let* tool := lift (get_tool ctx tool_name combined_args) in
  let* kwargs := lift (keywords combined_args) in
  lift (tool kwargs).

(** [eval(condition, {"__builtins__": {}}, eval_context)] *)
Definition eval_call (condition : value) (scope : list (string * value)) : outcome value :=
  match condition with
  | VStr src => py_eval rt src scope
  | _ => Raise (Exn TypeError "eval() arg 1 must be a string, bytes or code object")
  end.

(** [{"input": input_value, "variables": execution.variables, **inputs}].
    [py_eval] reads the scope and changes nothing (see [Runtime]), so the
    value of the dict stands for the dict. *)
Definition eval_context (input_value : value) (variables : list (string * value))
    (inputs : list (string * value)) : list (string * value) :=
  fold_left (fun acc kv => dict_set (fst kv) (snd kv) acc) inputs
            [("input", input_value); ("variables", VDict variables)].

Definition _execute_condition_node (node : WorkflowNode) (inputs : list (string * value)) : M value :=
  let* condition := lift (py_get (data node) "condition" (VStr "True")) in
  let input_value := inputs_get inputs "input_0" (VBool true) in
  let* e := get_execution in
  let eval_context := eval_context input_value (variables e) inputs in
  try_except
    (let* result := lift (eval_call condition eval_context) in
     ret (VDict [("condition_result", VBool (py_truthy result)); ("value", input_value)]))
    (fun err =>
       let* t := global_time_time in
       update_execution (log_append
         {| timestamp := t; level := "warning";
            message := "Condition evaluation failed: " +:+ exn_msg err
                       +:+ ", defaulting to True";
            entry_node := Some (node_id node); entry_result := None |}) ;;;
       ret (VDict [("condition_result", VBool true); ("value", input_value)])).

Definition _execute_output_node (node : WorkflowNode) (inputs : list (string * value)) : M value :=
  let* output_format := lift (py_get (data node) "format" (VStr "raw")) in
  let input_value := inputs_get inputs "input_0" (VStr "") in
  if py_eq output_format (VStr "json") then
    try_except
      (match input_value with
       | VStr s => lift (json_loads rt s)
       | _ => ret input_value
       end)
      (fun _ => ret (VDict [("output", input_value)]))
  else if py_eq output_format (VStr "formatted") then
    let* template := lift (py_get (data node) "template" (VStr "{value}")) in
    match template with
    | VStr t => let* r := lift (str_format rt t input_value) in ret (VStr r)
    | _ => raise (Exn AttributeError
                    (quoted (type_name template) +:+ " object has no attribute 'format'"))
    end
  else ret input_value.

(** [range(n)] *)
Definition py_range (n : value) : outcome (list Z) :=
  match n with
  | VInt k => Ok (map Z.of_nat (seq 0 (Z.to_nat k)))
  | VBool b => Ok (map Z.of_nat (seq 0 (Z.to_nat (Z.b2z b))))
  | _ => Raise (Exn TypeError (quoted (type_name n)
                               +:+ " object cannot be interpreted as an integer"))
  end.

Definition _execute_loop_node (node : WorkflowNode) (inputs : list (string * value)) : M value :=
  let* iterations := lift (py_get (data node) "iterations" (VInt 1)) in
  let input_value := inputs_get inputs "input_0" (VStr "") in
  let* indices := lift (py_range iterations) in
  let* results :=
    fold_each (fun (acc : list value) i =>
      update_execution (set_variable
        ("loop_" +:+ py_str (node_id node) +:+ "_iteration") (VInt i)) ;;;
      update_execution (set_variable
        ("loop_" +:+ py_str (node_id node) +:+ "_input") input_value) ;;;
      ret (acc ++ [VDict [("iteration", VInt i); ("input", input_value);
                          ("result", input_value)]])%list)
      indices [] in
  ret (VList results).

(** [asyncio.sleep(delay)]: the delay is compared with zero first. *)
Definition asyncio_sleep (delay : value) : outcome unit :=
  match as_number delay with
  | Some _ => Ok tt
  | None => Raise (Exn TypeError ("'<=' not supported between instances of "
                                  +:+ quoted (type_name delay) +:+ " and 'int'"))
  end.

Definition _process_parallel_input (node : WorkflowNode) (input_value : value) (index : Z) : M value :=
  let* processing_time := lift (py_get (data node) "processing_time" (VFloat micro)) in
  lift (asyncio_sleep processing_time) ;;;
  let processed := "Processed: " +:+ py_str input_value in
  let* t := global_time_time in
  ret (VDict [("index", VInt index); ("input", input_value);
              ("processed", VStr processed); ("timestamp", VFloat t)]).

(** [enumerate(xs)] *)
Definition enumerate {A} (xs : list A) : list (Z * A) :=
  combine (map Z.of_nat (seq 0 (length xs))) xs.

Definition _execute_parallel_node (node : WorkflowNode) (inputs : list (string * value)) : M value :=
  let parallel_inputs := input_values inputs in
  match parallel_inputs with
  | [] => ret (VList [])
  | _ =>
      let tasks :=
        map (fun iv => _process_parallel_input node (snd iv) (fst iv))
            (enumerate parallel_inputs) in
      let* results := for_each capture tasks in
      ret (VList results)
  end.

Definition _execute_merge_node (node : WorkflowNode) (inputs : list (string * value)) : M value :=
  let* merge_strategy := lift (py_get (data node) "strategy" (VStr "concatenate")) in
  let input_values := input_values inputs in
  if py_eq merge_strategy (VStr "concatenate") then
    ret (VStr (join " " (map py_str input_values)))
  else if py_eq merge_strategy (VStr "array") then
    ret (VList input_values)
  else if py_eq merge_strategy (VStr "json") then
    ret (VDict (map (fun iv => ("input_" +:+ pretty (fst iv), snd iv))
                    (enumerate input_values)))
  else
    ret (match input_values with v :: _ => v | [] => VNone end).

Definition handler : Type := WorkflowNode -> list (string * value) -> M value.

(** [self.node_handlers.get(node.type)] *)
Definition node_handlers (t : NodeType) : option handler :=
  match t with
  | INPUT => Some _execute_input_node
  | AGENT => Some _execute_agent_node
  | TOOL => Some _execute_tool_node
  | CONDITION => Some _execute_condition_node
  | OUTPUT => Some _execute_output_node
  | LOOP => Some _execute_loop_node
  | PARALLEL => Some _execute_parallel_node
  | MERGE => Some _execute_merge_node
  end.

Definition _execute_single_node (node : WorkflowNode) (inputs : list (string * value)) : M value :=
  let* t := time_time in
  update_execution (log_append
    {| timestamp := t; level := "info";
       message := "Executing node " +:+ py_str (node_id node) +:+ " ("
                  +:+ NodeType_value (node_type node) +:+ ")";
       entry_node := Some (node_id node); entry_result := None |}) ;;;
  match node_handlers (node_type node) with
  | None => raise (Exn PyException ("No handler for node type: NodeType."
                                    +:+ NodeType_name (node_type node)))
  | Some h =>
      try_except
        (let* result := h node inputs in
         let* t := time_time in
         update_execution (log_append
           {| timestamp := t; level := "success";
              message := "Node " +:+ py_str (node_id node) +:+ " completed successfully";
              entry_node := Some (node_id node);
              entry_result := Some (String.substring 0 200 (py_str result)) |}) ;;;
         ret result)
        (fun e =>
           let* t := time_time in
           update_execution (log_append
             {| timestamp := t; level := "error";
                message := "Node " +:+ py_str (node_id node) +:+ " failed: " +:+ exn_msg e;
                entry_node := Some (node_id node); entry_result := None |}) ;;;
           raise e)
  end.

End Engine.

(** ** The executor *)

(** The returned mapping: a dict from field name to one of these. *)
Inductive field :=
| FStr (s : string)
| FValue (v : value)
| FLog (l : list log_entry)
| FFloat (us : Z).

Definition response : Type := list (string * field).

Record WorkflowEngine := {
  context : AgentContext;
  executions : gmap string WorkflowExecution
}.

(** [d[key]] for a dict keyed by node id. *)
Definition vdict_getitem {A} (d : list (value * A)) (k : value) : outcome A :=
  match py_hash k with
  | Raise e => Raise e
  | Ok _ =>
      match vdict_get k d with
      | Some a => Ok a
      | None => Raise (Exn KeyError (py_repr k))
      end
  end.

Section Executor.

Variable rt : Runtime.

(** [{node.id: node for node in nodes}] *)
Definition build_node_map (nodes : list WorkflowNode) : outcome (list (value * WorkflowNode)) :=
  fold_left (fun acc node =>
    match acc, py_hash (node_id node) with
    | Ok m, Ok _ => Ok (vdict_set (node_id node) node m)
    | Ok _, Raise e => Raise e
    | Raise e, _ => Raise e
    end) nodes (Ok []).

Definition _build_connection_map (connections : list WorkflowConnection)
  : outcome (list (value * list WorkflowConnection)) :=
  fold_left (fun acc conn =>
    match acc, py_hash (from_node conn) with
    | Ok m, Ok _ =>
        let m' := match vdict_get (from_node conn) m with
                  | None => vdict_set (from_node conn) [] m
                  | Some _ => m
                  end in
        Ok (vdict_set (from_node conn)
              (default [] (vdict_get (from_node conn) m') ++ [conn])%list m')
    | Ok _, Raise e => Raise e
    | Raise e, _ => Raise e
    end) connections (Ok []).

Section Walk.

Variable ctx : AgentContext.
Variable node_map : list (value * WorkflowNode).
Variable connections : list WorkflowConnection.

(** The closure [execute_node] of [_execute_workflow_graph]. *)
Fixpoint execute_node (fuel : nat) (node : WorkflowNode) : M value :=
  match fuel with
  | O => diverge
  | S fuel' =>
      lift (py_hash (node_id node)) ;;;
      let* s := get_state in
      if set_mem (node_id node) (visited s) then
        ret (default VNone (vdict_get (node_id node) (results s)))
      else
        let prerequisites :=
          List.filter (fun conn => py_eq (to_node conn) (node_id node)) connections in
        let* prerequisite_results :=
          fold_each (fun acc prereq =>
            let* prereq_node := lift (vdict_getitem node_map (from_node prereq)) in
            let* prereq_result := execute_node fuel' prereq_node in
            ret (dict_set ("input_" +:+ py_str (to_input prereq)) prereq_result acc))
            prerequisites [] in
        update_execution (set_current_node (node_id node)) ;;;
        let* node_result := _execute_single_node rt ctx node prerequisite_results in
        mark_visited (node_id node) node_result ;;;
        ret node_result
  end.

End Walk.

Definition is_start_node (connections : list WorkflowConnection) (node : WorkflowNode) : bool :=
  negb (existsb (fun conn => py_eq (to_node conn) (node_id node)) connections).

(** [visited = set(); results = {}] *)
Definition reset_walk : M unit :=
  modify (fun s => {| execution := execution s; ticks := ticks s;
                      visited := []; results := [] |}).

Definition _execute_workflow_graph (ctx : AgentContext) (fuel : nat)
    (nodes : list WorkflowNode) (connections : list WorkflowConnection) : M value :=
  let* node_map := lift (build_node_map nodes) in
  let* connection_map := lift (_build_connection_map connections) in
  let start_nodes := List.filter (is_start_node connections) nodes in
  match start_nodes with
  | [] => raise (Exn PyException "No starting nodes found in workflow")
  | _ =>
      reset_walk ;;;
      let* final_results :=
        for_each (execute_node ctx node_map connections fuel) start_nodes in
      let output_nodes :=
        List.filter (fun node => NodeType_eqb (node_type node) OUTPUT) nodes in
      match output_nodes with
      | _ :: _ =>
          let* s := get_state in
          ret (VList (map (fun node => default VNone (vdict_get (node_id node) (results s)))
                          output_nodes))
      | [] =>
          match final_results with
          | [r] => ret r
          | _ => ret (VList final_results)
          end
      end
  end.

(** One element of the [nodes] comprehension of [execute_workflow]. *)
Definition parse_node (node : value) : outcome WorkflowNode :=
  match py_getitem node "id" with
  | Raise e => Raise e
  | Ok i =>
  match py_getitem node "type" with
  | Raise e => Raise e
  | Ok ty =>
  match NodeType_of ty with
  | Raise e => Raise e
  | Ok t =>
  match py_get node "config" (VDict []) with
  | Raise e => Raise e
  | Ok c =>
  match py_get node "data" (VDict []) with
  | Raise e => Raise e
  | Ok d =>
  match py_get node "x" (VInt 0) with
  | Raise e => Raise e
  | Ok px =>
  match py_get node "y" (VInt 0) with
  | Raise e => Raise e
  | Ok py =>
      Ok {| node_id := i; node_type := t; config := c; data := d; x := px; y := py |}
  end end end end end end end.

(** One element of the [connections] comprehension. *)
Definition parse_connection (conn : value) : outcome WorkflowConnection :=
  match py_getitem conn "id" with
  | Raise e => Raise e
  | Ok i =>
  match py_getitem conn "from" with
  | Raise e => Raise e
  | Ok f =>
  match py_getitem conn "fromOutput" with
  | Raise e => Raise e
  | Ok fo =>
  match py_getitem conn "to" with
  | Raise e => Raise e
  | Ok t =>
  match py_getitem conn "toInput" with
  | Raise e => Raise e
  | Ok ti =>
      Ok {| conn_id := i; from_node := f; from_output := fo; to_node := t; to_input := ti |}
  end end end end end.

(** [int(t)] of a clock reading: truncation to whole seconds. *)
Definition int_seconds (t : Z) : Z := Z.quot t micro.

Definition new_execution_id (t : Z) : string := "exec_" +:+ pretty (int_seconds t).

(** The [try] block of [execute_workflow]. *)
Definition run_workflow (ctx : AgentContext) (fuel : nat) (execution_id : string)
    (workflow_data : value) : M response :=
  let* raw_nodes := lift (py_get workflow_data "nodes" (VList [])) in
  let* raw_nodes := lift (py_iter raw_nodes) in
  let* nodes := for_each (fun n => lift (parse_node n)) raw_nodes in
  let* raw_conns := lift (py_get workflow_data "connections" (VList [])) in
  let* raw_conns := lift (py_iter raw_conns) in
  let* connections := for_each (fun c => lift (parse_connection c)) raw_conns in
  let* result := _execute_workflow_graph ctx fuel nodes connections in
  update_execution (set_status "completed") ;;;
  let* t := time_time rt in
  update_execution (set_end_time t) ;;;
  let* e := get_execution in
  ret [("execution_id", FStr execution_id);
       ("result", FValue result);
       ("log", FLog (execution_log e));
       ("duration", FFloat (t - start_time e))].

(** The [except Exception as e] block of [execute_workflow]. *)
Definition fail_workflow (execution_id : string) (err : exn) : M response :=
  update_execution (set_status "failed") ;;;
  let* t := time_time rt in
  update_execution (set_end_time t) ;;;
  let* t' := time_time rt in
  update_execution (log_append
    {| timestamp := t'; level := "error"; message := exn_msg err;
       entry_node := None; entry_result := None |}) ;;;
  let* e := get_execution in
  ret [("execution_id", FStr execution_id);
       ("error", FStr (exn_msg err));
       ("log", FLog (execution_log e))].

Definition register (execution_id : string) (e : WorkflowExecution) (self : WorkflowEngine)
  : WorkflowEngine :=
  {| context := context self; executions := <[execution_id := e]> (executions self) |}.

(** The record created at the start of [execute_workflow], when the clock
    has been read [now] times. *)
Definition new_execution (now : nat) (input_data : value) : WorkflowExecution :=
  {| exec_id := new_execution_id (clock rt now); status := "running";
     current_node := None; variables := [("input", input_data)];
     execution_log := []; start_time := clock rt (S now); end_time := None |}.

(** The state in which the [try] block starts. *)
Definition start_state (now : nat) (input_data : value) : run_state :=
  {| execution := new_execution now input_data; ticks := S (S now);
     visited := []; results := [] |}.

(** [WorkflowEngine.execute_workflow], called when the clock has been read
    [now] times.  The record created here and the registry entry are one
    object; the call is the only writer while it runs, so the entry is
    brought up to date when the call is over.  The result is the returned
    mapping (or the exception that left the method), the engine and the
    number of clock readings afterwards. *)
Definition execute_workflow (fuel : nat) (self : WorkflowEngine) (now : nat)
    (workflow_data input_data : value)
  : option (outcome response * WorkflowEngine * nat) :=
  let execution_id := new_execution_id (clock rt now) in
  let self := register execution_id (new_execution now input_data) self in
  match try_except (run_workflow (context self) fuel execution_id workflow_data)
                   (fail_workflow execution_id)
                   (start_state now input_data)
  with
  | None => None
  | Some (r, s) => Some (r, register execution_id (execution s) self, ticks s)
  end.




(** [stop_execution]: the two assignments are separate statements, so the
    first one stands when the second one raises. *)
Definition stop_execution (self : WorkflowEngine) (now : nat) (execution_id : string)
  : outcome bool * WorkflowEngine * nat :=
  match executions self !! execution_id with
  | Some execution =>
      if String.eqb (status execution) "running" then
        let stopped := set_status "stopped" execution in
        match load_global "time" with
        | Raise err => (Raise err, register execution_id stopped self, now)
        | Ok _ =>
            (Ok true,
             register execution_id (set_end_time (clock rt now) stopped) self,
             S now)
        end
      else (Ok false, self, now)
  | None => (Ok false, self, now)
  end.

End Executor.

(** ** The validator *)

Record findings := {
  errors : list string;
  warnings : list string
}.

Definition add_error (msg : string) : ST findings unit :=
  modify (fun f => {| errors := errors f ++ [msg]; warnings := warnings f |}).

Definition add_warning (msg : string) : ST findings unit :=
  modify (fun f => {| errors := errors f; warnings := warnings f ++ [msg] |}).

(** The two sets of the depth-first search. *)
Record dfs := {
  dfs_visited : list value;
  rec_stack : list value
}.

Definition set_remove (k : value) (s : list value) : list value :=
  List.filter (fun x => negb (py_eq x k)) s.

(** A loop that returns [True] from inside at the first hit. *)
Fixpoint any_each {S A} (f : A -> ST S bool) (xs : list A) : ST S bool :=
  match xs with
  | [] => ret false
  | a :: rest => let* b := f a in if b then ret true else any_each f rest
  end.

Section Cycles.

Variable adj_list : list (value * list value).

(** The closure [has_cycle] of [_check_circular_dependencies].  [depth] is
    the number of nested calls the interpreter's recursion limit leaves
    room for; a call beyond it raises [RecursionError]. *)
Fixpoint has_cycle (depth : nat) (node_id : value) : ST dfs bool :=
  match depth with
  | O => raise (Exn RecursionError "maximum recursion depth exceeded")
  | S fuel' =>
      lift (py_hash node_id) ;;;
      let* s := get_state in
      if set_mem node_id (rec_stack s) then ret true
      else if set_mem node_id (dfs_visited s) then ret false
      else
        modify (fun s => {| dfs_visited := set_add node_id (dfs_visited s);
                            rec_stack := set_add node_id (rec_stack s) |}) ;;;
        let* found := any_each (has_cycle fuel')
                               (default [] (vdict_get node_id adj_list)) in
        if found then ret true
        else
          modify (fun s => {| dfs_visited := dfs_visited s;
                              rec_stack := set_remove node_id (rec_stack s) |}) ;;;
          ret false
  end.

End Cycles.

(** The adjacency list: one empty entry per node, then one appended target
    per connection whose endpoints are both truthy. *)
Definition build_adj_list (nodes connections : list value)
  : outcome (list (value * list value)) :=
  let step_node acc node :=
    match acc with
    | Raise e => Raise e
    | Ok adj =>
        match py_getitem node "id" with
        | Raise e => Raise e
        | Ok i =>
            match py_hash i with
            | Raise e => Raise e
            | Ok _ => Ok (vdict_set i [] adj)
            end
        end
    end in
  let step_conn acc conn :=
    match acc with
    | Raise e => Raise e
    | Ok adj =>
        match py_get conn "from" VNone with
        | Raise e => Raise e
        | Ok f =>
            if negb (py_truthy f) then Ok adj else
            match py_get conn "to" VNone with
            | Raise e => Raise e
            | Ok t =>
                if negb (py_truthy t) then Ok adj else
                match vdict_getitem adj f with
                | Raise e => Raise e
                | Ok targets => Ok (vdict_set f (targets ++ [t])%list adj)
                end
            end
        end
    end in
  fold_left step_conn connections (fold_left step_node nodes (Ok [])).

Definition _check_circular_dependencies (fuel : nat) (nodes connections : list value)
  : ST dfs unit :=
  let* adj_list := lift (build_adj_list nodes connections) in
  modify (fun _ => {| dfs_visited := []; rec_stack := [] |}) ;;;
  fold_each (fun (_ : unit) node_id =>
    let* s := get_state in
    if set_mem node_id (dfs_visited s) then ret tt
    else
      let* cyclic := has_cycle adj_list fuel node_id in
      if cyclic then raise (Exn PyException "Circular dependency detected in workflow")
      else ret tt) (map fst adj_list) tt.

Definition required_fields : list string := ["id"; "from"; "to"; "fromOutput"; "toInput"].

(** The dict returned by [validate_workflow]. *)
Record validation := {
  valid : bool;
  v_errors : list string;
  v_warnings : list string;
  node_count : nat;
  connection_count : nat
}.

Definition check_node_fields (node : value) : ST findings unit :=
  let* i := lift (py_get node "id" VNone) in
  (if py_truthy i then ret tt else add_error "Node missing required 'id' field") ;;;
  let* t := lift (py_get node "type" VNone) in
  if py_truthy t then ret tt
  else
    let* shown := lift (py_get node "id" (VStr "unknown")) in
    add_error ("Node " +:+ py_str shown +:+ " missing required 'type' field").

Definition check_connection_fields (conn : value) : ST findings unit :=
  for_each (fun field =>
    let* present := lift (py_in field conn) in
    if present then ret tt
    else add_error ("Connection missing required '" +:+ field +:+ "' field"))
    required_fields ;;;
  ret tt.

(** [{node["id"] for node in nodes}] *)
Definition collect_node_ids (nodes : list value) : ST findings (list value) :=
  fold_each (fun acc node =>
    let* i := lift (py_getitem node "id") in
    lift (py_hash i) ;;;
    ret (set_add i acc)) nodes [].

Definition check_endpoints (node_ids : list value) (connected : list value) (conn : value)
  : ST findings (list value) :=
  let* f := lift (py_get conn "from" VNone) in
  lift (py_hash f) ;;;
  (if set_mem f node_ids then ret tt
   else add_error ("Connection references non-existent source node: " +:+ py_str f)) ;;;
  let* t := lift (py_get conn "to" VNone) in
  lift (py_hash t) ;;;
  (if set_mem t node_ids then ret tt
   else add_error ("Connection references non-existent target node: " +:+ py_str t)) ;;;
  ret (set_add t (set_add f connected)).

Definition check_orphan (node_total : nat) (connected : list value) (node : value)
  : ST findings unit :=
  let* i := lift (py_getitem node "id") in
  lift (py_hash i) ;;;
  if negb (set_mem i connected) && (1 <? node_total)%nat then
    let* shown := lift (py_get node "id" VNone) in
    add_warning ("Node '" +:+ py_str shown +:+ "' is not connected to the workflow")
  else ret tt.

(** The cycle check inside its [try]: a raise becomes one more error. *)
Definition guarded_cycle_check (fuel : nat) (nodes connections : list value)
  : ST findings unit :=
  fun f =>
    match _check_circular_dependencies fuel nodes connections
            {| dfs_visited := []; rec_stack := [] |} with
    | None => None
    | Some (Ok _, _) => Some (Ok tt, f)
    | Some (Raise e, _) => add_error (exn_msg e) f
    end.

Definition validate_body (fuel : nat) (workflow_data : value) : ST findings validation :=
  let* raw_nodes := lift (py_get workflow_data "nodes" (VList [])) in
  let* raw_connections := lift (py_get workflow_data "connections" (VList [])) in
  let* nodes := lift (py_iter raw_nodes) in
  for_each check_node_fields nodes ;;;
  let* connections := lift (py_iter raw_connections) in
  for_each check_connection_fields connections ;;;
  let* node_ids := collect_node_ids nodes in
  let* connected_nodes := fold_each (check_endpoints node_ids) connections [] in
  for_each (check_orphan (length nodes) connected_nodes) nodes ;;;
  guarded_cycle_check fuel nodes connections ;;;
  let* f := get_state in
  ret {| valid := bool_decide (length (errors f) = 0%nat);
         v_errors := errors f;
         v_warnings := warnings f;
         node_count := length nodes;
         connection_count := length connections |}.

(** [WorkflowEngine.validate_workflow].  [fuel] is the depth that the
    interpreter's recursion limit leaves to the cycle search. *)
Definition validate_workflow (fuel : nat) (workflow_data : value)
  : option (outcome validation) :=
  match validate_body fuel workflow_data {| errors := []; warnings := [] |} with
  | None => None
  | Some (r, _) => Some r
  end.

(** ** The module-level entry points *)

Module workflow_engine.

(** The module's global state as far as the engine is concerned: the global
    variable [_workflow_engine] and the number of clock readings so far. *)
Record process := {
  _workflow_engine : option WorkflowEngine;
  readings : nat
}.

(** [get_workflow_engine(context)].  The returned engine and the global are
    one object. *)
Definition get_workflow_engine (context : AgentContext) (p : process)
  : WorkflowEngine * process :=
  match _workflow_engine p with
  | Some engine => (engine, p)
  | None =>
      let engine := {| context := context; executions := ∅ |} in
      (engine, {| _workflow_engine := Some engine; readings := readings p |})
  end.

(** [execute_workflow(context, workflow_data, input_data)] *)
Definition execute_workflow (rt : Runtime) (fuel : nat) (context : AgentContext)
    (workflow_data input_data : value) (p : process)
  : option (outcome response * process) :=
  let (engine, p) := get_workflow_engine context p in
  match execute_workflow rt fuel engine (readings p) workflow_data input_data with
  | None => None
  | Some (r, engine', n) => Some (r, {| _workflow_engine := Some engine'; readings := n |})
  end.

(** [validate_workflow(context, workflow_data)] *)
Definition validate_workflow (fuel : nat) (context : AgentContext)
    (workflow_data : value) (p : process)
  : option (outcome validation * process) :=
  let (engine, p) := get_workflow_engine context p in
  match validate_workflow fuel workflow_data with
  | None => None
  | Some r => Some (r, p)
  end.

End workflow_engine.

(** ** The API handler

    [EnhancedFeatures.execute_workflow] of [python/api/enhanced_features.py],
    the caller of the module-level [execute_workflow].  [get_context] is the
    method it inherits from [ApiHandler]. *)

Module enhanced_features.

Inductive output_field :=
| OResult (r : response)
| OBool (b : bool).

Definition Output : Type := list (string * output_field).

Definition execute_workflow (rt : Runtime) (fuel : nat)
    (get_context : value -> outcome AgentContext)
    (input : list (string * value)) (p : workflow_engine.process)
  : option (outcome Output * workflow_engine.process) :=
  let workflow_data := default (VDict []) (dict_get "workflow" input) in
  let context_id := default (VStr "") (dict_get "context" input) in
  match get_context context_id with
  | Raise e => Some (Raise e, p)
  | Ok context =>
      match workflow_engine.execute_workflow rt fuel context workflow_data VNone p with
      | None => None
      | Some (Raise e, p') => Some (Raise e, p')
      | Some (Ok result, p') =>
          Some (Ok [("result", OResult result); ("success", OBool true)], p')
      end
  end.

End enhanced_features.

(** ** Reading the log *)

(** The "info" entry that [_execute_single_node] appends before it calls the
    handler of the node [id]. *)
Definition is_dispatch_of (id : value) (l : log_entry) : bool :=
  String.eqb (level l) "info" &&
  match entry_node l with
  | Some n => py_eq n id
  | None => false
  end.

(** How often the handler of node [id] was called, by the log. *)
Definition dispatch_count (id : value) (log : list log_entry) : nat :=
  length (List.filter (is_dispatch_of id) log).

Definition has_level (lv : string) (l : log_entry) : bool := String.eqb (level l) lv.

(** ** Inputs of the worked examples *)

(** A clock that starts at 1700000000 s and advances by one millisecond per
    reading. *)
Definition wall_clock (n : nat) : Z := 1700000000 * micro + Z.of_nat n * 1000.

(** [eval] on an expression that is a single identifier: the value bound in
    the scope, or [NameError] (the builtins are emptied by the caller). *)
Definition eval_identifier (src : string) (scope : list (string * value)) : outcome value :=
  match dict_get src scope with
  | Some v => Ok v
  | None => Raise (Exn NameError ("name " +:+ quoted src +:+ " is not defined"))
  end.

(** The examples below use neither JSON nor templates nor tools. *)
Definition example_runtime : Runtime :=
  {| clock := wall_clock;
     py_eval := eval_identifier;
     json_loads := fun _ => Raise (Exn External "json.loads is not part of the example");
     json_dumps := fun _ => Raise (Exn External "json.dumps is not part of the example");
     str_format := fun _ _ => Raise (Exn External "format is not part of the example") |}.

Definition example_context (name : string) : AgentContext :=
  {| context_id := name;
     communicate := fun text => Ok (VStr text);
     get_tool := fun _ _ => Raise (Exn External "no tool is part of the example") |}.

Definition new_engine (context : AgentContext) : WorkflowEngine :=
  {| context := context; executions := ∅ |}.

Definition wire_node (id type : string) (data : list (string * value)) : value :=
  VDict [("id", VStr id); ("type", VStr type); ("config", VDict []);
         ("data", VDict data); ("x", VInt 0); ("y", VInt 0)].

Definition wire_connection (id src dst : string) (slot : Z) : value :=
  VDict [("id", VStr id); ("from", VStr src); ("fromOutput", VInt 0);
         ("to", VStr dst); ("toInput", VInt slot)].

Definition wire_graph (nodes connections : list value) : value :=
  VDict [("nodes", VList nodes); ("connections", VList connections)].

(** A -> B, A -> C, B -> D, C -> D *)
Definition diamond : value :=
  wire_graph
    [wire_node "A" "input" []; wire_node "B" "loop" [];
     wire_node "C" "loop" []; wire_node "D" "merge" []]
    [wire_connection "ab" "A" "B" 0; wire_connection "ac" "A" "C" 0;
     wire_connection "bd" "B" "D" 0; wire_connection "cd" "C" "D" 1].




(** A -> B, B -> C, C -> A *)
Definition pure_cycle : value :=
  wire_graph
    [wire_node "A" "loop" []; wire_node "B" "loop" []; wire_node "C" "loop" []]
    [wire_connection "ab" "A" "B" 0; wire_connection "bc" "B" "C" 0;
     wire_connection "ca" "C" "A" 0].

(** One INPUT node with a configured default. *)
Definition lone_input (default_value : value) : value :=
  wire_graph [wire_node "in" "input" [("default_value", default_value)]] [].

(** One CONDITION node whose expression names a variable that is not in
    scope. *)
Definition undefined_condition : value :=
  wire_graph [wire_node "check" "condition" [("condition", VStr "undefined_var")]] [].

(** A node without an ["id"] key. *)
Definition node_without_id : value :=
  wire_graph [VDict [("type", VStr "input")]] [].

(** Two nodes and no connection. *)
Definition two_orphans : value :=
  wire_graph [wire_node "A" "input" []; wire_node "B" "output" []] [].

(** A record as [execute_workflow] creates it, and an engine that holds it. *)
Definition running_record : WorkflowExecution := new_execution example_runtime 0 VNone.

Definition engine_with_running_record : WorkflowEngine :=
  register "exec_1700000000" running_record (new_engine (example_context "main")).

(** A process in which no engine has been asked for yet. *)
Definition fresh_process : workflow_engine.process :=
  {| workflow_engine._workflow_engine := None; workflow_engine.readings := 0 |}.

Definition condition_node : WorkflowNode :=
  {| node_id := VStr "check"; node_type := CONDITION; config := VDict [];
     data := VDict [("condition", VStr "undefined_var")]; x := VInt 0; y := VInt 0 |}.

(** The three nodes and three connections of [pure_cycle], parsed. *)
Definition cycle_nodes : list WorkflowNode :=
  map (fun id => {| node_id := VStr id; node_type := LOOP; config := VDict [];
                    data := VDict []; x := VInt 0; y := VInt 0 |}) ["A"; "B"; "C"].

Definition cycle_connections : list WorkflowConnection :=
  [{| conn_id := VStr "ab"; from_node := VStr "A"; from_output := VInt 0;
      to_node := VStr "B"; to_input := VInt 0 |};
   {| conn_id := VStr "bc"; from_node := VStr "B"; from_output := VInt 0;
      to_node := VStr "C"; to_input := VInt 0 |};
   {| conn_id := VStr "ca"; from_node := VStr "C"; from_output := VInt 0;
      to_node := VStr "A"; to_input := VInt 0 |}].

Definition parallel_node : WorkflowNode :=
  {| node_id := VStr "fan"; node_type := PARALLEL; config := VDict [];
     data := VDict [("processing_time", VFloat 0)]; x := VInt 0; y := VInt 0 |}.

Definition three_inputs : list (string * value) :=
  [("input_0", VStr "a"); ("input_1", VStr "b"); ("input_2", VStr "c")].

(** ** Vocabulary of the properties *)

(** The fault every unit of a PARALLEL node ends in: that of reading the
    configured delay, else that of sleeping for it, else that of looking up
    [time]. *)
Definition parallel_unit_fault (node : WorkflowNode) : exn :=
  match py_get (data node) "processing_time" (VFloat micro) with
  | Raise e => e
  | Ok processing_time =>
      match asyncio_sleep processing_time with
      | Raise e => e
      | Ok _ => Exn NameError "name 'time' is not defined"
      end
  end.

(** [total m]: [m] returns or raises from every state; it never runs out of
    fuel. *)
Definition total {S A} (m : ST S A) : Prop :=
  forall s, exists r s', m s = Some (r, s').

(** [keeps R m]: whenever [m] comes back, by return or by raise, the state it
    leaves is [R]-related to the one it started in. *)
Definition keeps {S A} (R : S -> S -> Prop) (m : ST S A) : Prop :=
  forall s r s', m s = Some (r, s') -> R s s'.

(** Two states are [quiet]-related when no dispatch was logged in between
    and the cache of the walk is the same. *)
Definition quiet (s s' : run_state) : Prop :=
  visited s' = visited s /\
  forall id, dispatch_count id (execution_log (execution s'))
           = dispatch_count id (execution_log (execution s)).

(** [triple P m Q E]: from a state in [P], when [m] returns [a] the state is
    in [Q a], and when it raises the state is in [E]. *)
Definition triple {S A} (P : S -> Prop) (m : ST S A) (Q : A -> S -> Prop) (E : S -> Prop)
  : Prop :=
  forall s r s', P s -> m s = Some (r, s') ->
    match r with
    | Ok a => Q a s'
    | Raise _ => E s'
    end.

Definition log_of (s : run_state) : list log_entry := execution_log (execution s).

(** No dispatch so far. *)
Definition nothing_dispatched (s : run_state) : Prop :=
  forall id, dispatch_count id (log_of s) = 0%nat.

Definition dispatched_at_most_once (s : run_state) : Prop :=
  forall id, (dispatch_count id (log_of s) <= 1)%nat.

(** What holds between two rounds of the loop over the start nodes: an id
    that was dispatched is in the cache. *)
Definition dispatched_are_cached (s : run_state) : Prop :=
  forall id,
    (dispatch_count id (log_of s) <= 1)%nat /\
    (dispatch_count id (log_of s) = 1%nat -> set_mem id (visited s) = true).

(** The id [id] has been dispatched [c] times. *)
Definition dispatched_times (id : value) (c : nat) (s : run_state) : Prop :=
  dispatch_count id (log_of s) = c.

(** ** Vocabulary of the further properties *)

(** Two states are [steady]-related when the record kept its identity, its
    times, its status and the variable ["input"], and the clock was only
    read, never set back. *)
Definition steady (s s' : run_state) : Prop :=
  exec_id (execution s') = exec_id (execution s) /\
  start_time (execution s') = start_time (execution s) /\
  end_time (execution s') = end_time (execution s) /\
  status (execution s') = status (execution s) /\
  dict_get "input" (variables (execution s')) = dict_get "input" (variables (execution s)) /\
  (ticks s <= ticks s')%nat.

(** Two states are [calm]-related when the result cache is the same. *)
Definition calm (s s' : run_state) : Prop := results s' = results s.

(** Every cached result belongs to a node without incoming connection. *)
Definition cache_of_start_nodes (nodes : list WorkflowNode)
    (connections : list WorkflowConnection) (s : run_state) : Prop :=
  forall k, is_Some (vdict_get k (results s)) ->
    exists node, In node nodes /\ is_start_node connections node = true /\
                 py_eq (node_id node) k = true.

(** The OUTPUT nodes of a graph, in declaration order. *)
Definition output_nodes (nodes : list WorkflowNode) : list WorkflowNode :=
  List.filter (fun node => NodeType_eqb (node_type node) OUTPUT) nodes.

(** A parsed two-node graph, source -> sink, the sink being an OUTPUT
    node. *)
Definition source_node : WorkflowNode :=
  {| node_id := VStr "source"; node_type := INPUT; config := VDict [];
     data := VDict []; x := VInt 0; y := VInt 0 |}.

Definition sink_node : WorkflowNode :=
  {| node_id := VStr "sink"; node_type := OUTPUT; config := VDict [];
     data := VDict []; x := VInt 0; y := VInt 0 |}.

Definition source_to_sink : WorkflowConnection :=
  {| conn_id := VStr "wire"; from_node := VStr "source"; from_output := VInt 0;
     to_node := VStr "sink"; to_input := VInt 0 |}.

(** *** Connections as a relation *)

(** [edge adj a b]: the adjacency list has [b] among the targets of [a]. *)
Definition edge (adj : list (value * list value)) (a b : value) : Prop :=
  exists targets, vdict_get a adj = Some targets /\ In b targets.

(** A chain of one or more edges from a value to a value equal to it. *)
Definition cyclic (adj : list (value * list value)) : Prop :=
  exists a b, tc (edge adj) a b /\ py_eq a b = true.

(** [connects connections a b]: one of the wire connections has a source
    equal to [a], and [b] as its target. *)
Definition connects (connections : list value) (a b : value) : Prop :=
  exists conn src,
    In conn connections /\
    py_get conn "from" VNone = Ok src /\ py_eq src a = true /\
    py_get conn "to" VNone = Ok b.

(** A chain of one or more connections that leads back to where it began. *)
Definition cycle_among (connections : list value) : Prop :=
  exists a b, tc (connects connections) a b /\ py_eq a b = true.

(** The members of [l] that equal themselves are members of [l']. *)
Definition live_within (l l' : list value) : Prop :=
  forall v, In v l -> py_eq v v = true -> In v l'.

(** Every value the search can meet: the keys of the adjacency list and
    all their targets. *)
Definition universe (adj : list (value * list value)) : list value :=
  map fst adj ++ concat (map snd adj).

(** How many of them are not in the set [seen]. *)
Definition unvisited (adj : list (value * list value)) (seen : list value) : nat :=
  length (List.filter (fun u => negb (set_mem u seen)) (universe adj)).

(** What iterating over the field [key] of a wire payload visits; nothing
    when the field cannot be read or iterated. *)
Definition payload_items (workflow_data : value) (key : string) : list value :=
  match py_get workflow_data key (VList []) with
  | Ok raw => match py_iter raw with Ok items => items | Raise _ => [] end
  | Raise _ => []
  end.

(** Fuel that is enough for the cycle search on a payload: one more than its
    nodes and connections together. *)
Definition validation_fuel (workflow_data : value) : nat :=
  S (length (payload_items workflow_data "nodes")
     + length (payload_items workflow_data "connections")).

(** A node object with a hashable id, and a connection object whose
    endpoints (absent ones read as [None]) are hashable. *)
Definition node_ok (node : value) : Prop :=
  exists kvs id, node = VDict kvs /\ dict_get "id" kvs = Some id /\ py_hash id = Ok tt.

Definition connection_ok (conn : value) : Prop :=
  exists kvs, conn = VDict kvs /\
    py_hash (default VNone (dict_get "from" kvs)) = Ok tt /\
    py_hash (default VNone (dict_get "to" kvs)) = Ok tt.

(** The search has forgotten nothing it had seen. *)
Definition keeps_seen (st st' : dfs) : Prop :=
  forall u, set_mem u (dfs_visited st) = true -> set_mem u (dfs_visited st') = true.

(** [returns m]: from every state [m] returns; it neither raises nor runs
    out of fuel. *)
Definition returns {S A} (m : ST S A) : Prop :=
  forall s, exists a s', m s = Some (Ok a, s').

(** The number of targets in an adjacency list. *)
Definition target_count (adj : list (value * list value)) : nat :=
  length (concat (map snd adj)).

(** The validator's findings only grow: what was reported stays reported,
    in the same place. *)
Definition grows (f f' : findings) : Prop :=
  (exists more, errors f' = (errors f ++ more)%list) /\
  (exists more, warnings f' = (warnings f ++ more)%list).

(** No node of [nodes] has an id equal to [v]. *)
Definition unknown_id (nodes : list value) (v : value) : Prop :=
  forall node i, In node nodes -> py_getitem node "id" = Ok i -> py_eq i v = false.

(** No connection of [connections] starts or ends at [v]. *)
Definition unwired (connections : list value) (v : value) : Prop :=
  forall conn w, In conn connections ->
    py_get conn "from" VNone = Ok w \/ py_get conn "to" VNone = Ok w ->
    py_eq w v = false.

(** A -> X, where no node X exists. *)
Definition dangling_wire : value :=
  wire_graph [wire_node "A" "input" []] [wire_connection "ax" "A" "X" 0].

(** Nothing was added to the warnings. *)
Definition same_warnings (f f' : findings) : Prop := warnings f' = warnings f.

(** A payload the validator can read to the end: an object whose nodes and
    connections can be iterated, every node an object with a hashable id,
    every connection an object with hashable endpoints. *)
Definition well_formed (workflow_data : value) : Prop :=
  exists kvs nodes connections,
    workflow_data = VDict kvs /\
    py_iter (default (VList []) (dict_get "nodes" kvs)) = Ok nodes /\
    py_iter (default (VList []) (dict_get "connections" kvs)) = Ok connections /\
    Forall node_ok nodes /\ Forall connection_ok connections.

(** [wired connections a b]: one of the connections the cycle check enters
    in its adjacency list, both endpoints being truthy, has a source equal
    to [a], and [b] as its target. *)
Definition wired (connections : list value) (a b : value) : Prop :=
  exists conn src,
    In conn connections /\
    py_get conn "from" VNone = Ok src /\ py_truthy src = true /\ py_eq src a = true /\
    py_get conn "to" VNone = Ok b /\ py_truthy b = true.

(** A chain of one or more such connections that leads back to where it
    began. *)
Definition wired_cycle (connections : list value) : Prop :=
  exists a b, tc (wired connections) a b /\ py_eq a b = true.

(** The search is through with [u]: it has been visited and is off the
    recursion stack. *)
Definition finished (st : dfs) (u : value) : Prop :=
  set_mem u (dfs_visited st) = true /\ set_mem u (rec_stack st) = false.

Definition on_cycle (adj : list (value * list value)) (u : value) : Prop :=
  exists u', tc (edge adj) u u' /\ py_eq u u' = true.

(** What the search has established about the nodes it is through with:
    none of them is on a cycle, and it is through with their targets too. *)
Definition settled (adj : list (value * list value)) (st : dfs) : Prop :=
  forall u, finished st u ->
    ~ on_cycle adj u /\
    forall v, edge adj u v -> py_eq v v = true -> finished st v.

(** The recursion stack holds the same values. *)
Definition same_stack (st st' : dfs) : Prop :=
  forall x, set_mem x (rec_stack st') = set_mem x (rec_stack st).

(** Two states are [stamped]-related when the log only grew, every entry
    added carries a clock reading taken in between, and later entries carry
    later readings. *)
Definition stamped (rt : Runtime) (s s' : run_state) : Prop :=
  (ticks s <= ticks s')%nat /\
  exists more ks,
    log_of s' = (log_of s ++ more)%list /\
    map timestamp more = map (clock rt) ks /\
    StronglySorted Nat.lt ks /\
    Forall (fun k => (ticks s <= k < ticks s')%nat) ks.

(** Another wire into the sink: from a node that does not exist, into
    another slot. *)
Definition stray_to_sink : WorkflowConnection :=
  {| conn_id := VStr "stray"; from_node := VStr "nowhere"; from_output := VInt 3;
     to_node := VStr "sink"; to_input := VInt 7 |}.

(** A payload with a node or a connection that [execute_workflow] cannot
    parse. *)
Definition malformed (workflow_data : value) : Prop :=
  (exists item e,
     In item (payload_items workflow_data "nodes") /\ parse_node item = Raise e) \/
  (exists item e,
     In item (payload_items workflow_data "connections") /\
     parse_connection item = Raise e).

(** The node object [node] with its ["type"] set to [t]. *)
Definition retype (t : value) (node : value) : value :=
  match node with
  | VDict fields => VDict (dict_set "type" t fields)
  | _ => node
  end.

(** A node whose type, if it can be read, is truthy. *)
Definition typed (node : value) : Prop :=
  forall ty, py_get node "type" VNone = Ok ty -> py_truthy ty = true.

(** * Properties *)

(** ** Reasoning about computations *)

Lemma total_ret {S A} (a : A) : total (@ret S A a).
Proof. intros s. by eexists _, _. Qed.

Lemma total_raise {S A} (e : exn) : total (@raise S A e).
Proof. intros s. by eexists _, _. Qed.

Lemma total_lift {S A} (o : outcome A) : total (@lift S A o).
Proof. destruct o; [apply total_ret | apply total_raise]. Qed.

Lemma total_get_state {S} : total (@get_state S).
Proof. intros s. by eexists _, _. Qed.

Lemma total_modify {S} (f : S -> S) : total (modify f).
Proof. intros s. by eexists _, _. Qed.

Lemma total_bind {S A B} (m : ST S A) (k : A -> ST S B) :
  total m -> (forall a, total (k a)) -> total (bind m k).
Proof.
  intros Hm Hk s. unfold bind.
  destruct (Hm s) as ([a | e] & s' & ->); [apply Hk | by eexists _, _].
Qed.

Lemma total_try_except {S A} (m : ST S A) (h : exn -> ST S A) :
  total m -> (forall e, total (h e)) -> total (try_except m h).
Proof.
  intros Hm Hh s. unfold try_except.
  destruct (Hm s) as ([a | e] & s' & ->); [by eexists _, _ | apply Hh].
Qed.

Lemma total_for_each {S A B} (f : A -> ST S B) (xs : list A) :
  Forall (fun a => total (f a)) xs -> total (for_each f xs).
Proof.
  induction 1 as [| a rest Ha _ IH]; simpl.
  - apply total_ret.
  - apply total_bind; [done | intros b].
    apply total_bind; [done | intros bs]. apply total_ret.
Qed.

Lemma total_fold_each {S A B} (f : B -> A -> ST S B) (xs : list A) (acc : B) :
  (forall b a, total (f b a)) -> total (fold_each f xs acc).
Proof.
  intros Hf. revert acc.
  induction xs as [| a rest IH]; intros acc; simpl.
  - apply total_ret.
  - apply total_bind; [apply Hf | done].
Qed.

Lemma total_any_each {S A} (f : A -> ST S bool) (xs : list A) :
  Forall (fun a => total (f a)) xs -> total (any_each f xs).
Proof.
  induction 1 as [| a rest Ha _ IH]; simpl.
  - apply total_ret.
  - apply total_bind; [done | intros []]; [apply total_ret | done].
Qed.

Lemma total_get_execution : total get_execution.
Proof. intros s. by eexists _, _. Qed.

Lemma total_update_execution f : total (update_execution f).
Proof. apply total_modify. Qed.

Lemma total_mark_visited k v : total (mark_visited k v).
Proof. apply total_modify. Qed.

Lemma total_time_time rt : total (time_time rt).
Proof. intros s. by eexists _, _. Qed.

Lemma total_global_time_time rt : total (global_time_time rt).
Proof.
  apply total_bind; [apply total_lift | intros _; apply total_time_time].
Qed.

Lemma total_capture (m : M value) : total m -> total (capture m).
Proof. intros Hm. apply total_try_except; [done | intros e; apply total_ret]. Qed.

Create HintDb total discriminated.

#[local] Hint Resolve total_ret total_raise total_lift total_get_state total_modify
  total_get_execution total_update_execution total_mark_visited total_time_time
  total_global_time_time total_capture : total.

(** Goes through a computation built from the combinators above. *)
Ltac total_step :=
  match goal with
  | |- total (bind _ _) => apply total_bind; [| intros ?]
  | |- total (try_except _ _) => apply total_try_except; [| intros ?]
  | |- total (fold_each _ _ _) => apply total_fold_each; intros ? ?
  | |- total (for_each _ _) => apply total_for_each; apply Forall_forall; intros ? ?
  | |- total (if ?b then _ else _) => destruct b
  | |- total (match ?x with _ => _ end) => destruct x
  | |- total _ => solve [auto with total]
  end.

Ltac solve_total := repeat total_step.

(** Inversion of a sequence that returned. *)
Lemma bind_Ok_inv {S A B} (m : ST S A) (k : A -> ST S B) s b s' :
  bind m k s = Some (Ok b, s') ->
  exists a s1, m s = Some (Ok a, s1) /\ k a s1 = Some (Ok b, s').
Proof.
  unfold bind. destruct (m s) as [[[a | e] s1] |]; [| done | done].
  intros Hk. by exists a, s1.
Qed.

(** ** Every handler returns or raises *)

Section HandlersTotal.

Variable rt : Runtime.
Variable ctx : AgentContext.

Lemma total_input_node node inputs : total (_execute_input_node node inputs).
Proof. unfold _execute_input_node. solve_total. Qed.

Lemma total_agent_node node inputs : total (_execute_agent_node rt ctx node inputs).
Proof. unfold _execute_agent_node. solve_total. Qed.

Lemma total_tool_node node inputs : total (_execute_tool_node ctx node inputs).
Proof. unfold _execute_tool_node. solve_total. Qed.

Lemma total_condition_node node inputs : total (_execute_condition_node rt node inputs).
Proof. unfold _execute_condition_node. solve_total. Qed.

Lemma total_output_node node inputs : total (_execute_output_node rt node inputs).
Proof. unfold _execute_output_node. solve_total. Qed.

Lemma total_loop_node node inputs : total (_execute_loop_node node inputs).
Proof. unfold _execute_loop_node. solve_total. Qed.

Lemma total_process_parallel_input node v i : total (_process_parallel_input rt node v i).
Proof. unfold _process_parallel_input. solve_total. Qed.

Lemma total_parallel_node node inputs : total (_execute_parallel_node rt node inputs).
Proof.
  unfold _execute_parallel_node.
  destruct (input_values inputs) as [| v vs] eqn:E; [apply total_ret |].
  apply total_bind; [| intros ?; apply total_ret].
  apply total_for_each, Forall_forall. intros m Hm.
  apply list_elem_of_In, in_map_iff in Hm as (iv & <- & _).
  apply total_capture, total_process_parallel_input.
Qed.

Lemma total_merge_node node inputs : total (_execute_merge_node node inputs).
Proof. unfold _execute_merge_node. solve_total. Qed.

Lemma total_handlers t h node inputs :
  node_handlers rt ctx t = Some h -> total (h node inputs).
Proof.
  destruct t; intros [= <-];
    auto using total_input_node, total_agent_node, total_tool_node,
      total_condition_node, total_output_node, total_loop_node,
      total_parallel_node, total_merge_node.
Qed.

Lemma total_single_node node inputs : total (_execute_single_node rt ctx node inputs).
Proof.
  unfold _execute_single_node.
  apply total_bind; [apply total_time_time | intros t].
  apply total_bind; [apply total_update_execution | intros _].
  destruct (node_handlers rt ctx (node_type node)) as [h |] eqn:Hh;
    [| apply total_raise].
  pose proof (total_handlers _ _ node inputs Hh) as Hh'.
  apply total_try_except; [| intros e]; solve_total.
Qed.

End HandlersTotal.

(** ** The resolver never recurses *)

Section ExecutorTotal.

Variable rt : Runtime.
Variable ctx : AgentContext.

(** A start node has no prerequisite connection. *)
Lemma start_node_no_prerequisites connections node :
  is_start_node connections node = true ->
  List.filter (fun conn => py_eq (to_node conn) (node_id node)) connections = [].
Proof.
  unfold is_start_node. rewrite negb_true_iff.
  induction connections as [| conn rest IH]; simpl; [done |].
  intros [Hc Hrest]%orb_false_iff. rewrite Hc. auto.
Qed.

(** On a start node one level of recursion is enough. *)
Lemma total_execute_node_start node_map connections fuel node :
  is_start_node connections node = true ->
  total (execute_node rt ctx node_map connections (S fuel) node).
Proof.
  intros Hstart. simpl.
  rewrite (start_node_no_prerequisites _ _ Hstart). simpl.
  pose proof (total_single_node rt ctx node) as Hsingle.
  solve_total.
Qed.

Lemma total_execute_workflow_graph fuel nodes connections :
  total (_execute_workflow_graph rt ctx (S fuel) nodes connections).
Proof.
  unfold _execute_workflow_graph.
  apply total_bind; [apply total_lift | intros node_map].
  apply total_bind; [apply total_lift | intros connection_map].
  destruct (List.filter (is_start_node connections) nodes) as [| n0 ns] eqn:Hstart;
    [apply total_raise |].
  apply total_bind; [apply total_modify | intros _].
  apply total_bind.
  - apply total_for_each, Forall_forall. intros node Hnode.
    apply total_execute_node_start.
    rewrite <- Hstart in Hnode.
    apply list_elem_of_In in Hnode. by apply filter_In in Hnode as [_ ?].
  - intros final_results. solve_total.
Qed.

Lemma total_run_workflow fuel execution_id workflow_data :
  total (run_workflow rt ctx (S fuel) execution_id workflow_data).
Proof.
  unfold run_workflow.
  pose proof (total_execute_workflow_graph fuel) as Hgraph.
  solve_total.
Qed.

(** What the [except] block does, step by step. *)
Lemma fail_workflow_run execution_id err s :
  fail_workflow rt execution_id err s =
  let e := execution s in
  let failed :=
    {| exec_id := exec_id e; status := "failed"; current_node := current_node e;
       variables := variables e;
       execution_log := execution_log e ++
         [{| timestamp := clock rt (S (ticks s)); level := "error";
             message := exn_msg err; entry_node := None; entry_result := None |}];
       start_time := start_time e; end_time := Some (clock rt (ticks s)) |} in
  Some (Ok [("execution_id", FStr execution_id);
            ("error", FStr (exn_msg err));
            ("log", FLog (execution_log failed))],
        {| execution := failed; ticks := S (S (ticks s));
           visited := visited s; results := results s |}).
Proof. reflexivity. Qed.

(** What the [try] block leaves behind when it gets to its [return]. *)
Lemma run_workflow_returned fuel execution_id workflow_data s resp s' :
  run_workflow rt ctx fuel execution_id workflow_data s = Some (Ok resp, s') ->
  exists result t,
    resp = [("execution_id", FStr execution_id);
            ("result", FValue result);
            ("log", FLog (execution_log (execution s')));
            ("duration", FFloat (t - start_time (execution s')))] /\
    status (execution s') = "completed" /\
    end_time (execution s') = Some t.
Proof.
  unfold run_workflow. intros H.
  do 7 (apply bind_Ok_inv in H as (? & ? & _ & H)).
  injection H as <- <-. by eexists _, _.
Qed.

(** The end time of a run that returned is a clock reading. *)
Lemma run_workflow_stamps_clock fuel execution_id workflow_data s resp s' :
  run_workflow rt ctx fuel execution_id workflow_data s = Some (Ok resp, s') ->
  dict_get "execution_id" resp = Some (FStr execution_id) /\
  exists k, end_time (execution s') = Some (clock rt k).
Proof.
  unfold run_workflow. intros H.
  do 7 (apply bind_Ok_inv in H as (? & ? & _ & H)).
  injection H as <- <-. split; [done |]. by eexists.
Qed.

End ExecutorTotal.


(** With one level of fuel the method comes back, and with a mapping. *)
Lemma execute_workflow_comes_back rt self now workflow_data input_data fuel :
  exists resp self' n,
    execute_workflow rt (S fuel) self now workflow_data input_data
      = Some (Ok resp, self', n).
Proof.
  unfold execute_workflow, try_except.
  destruct (total_run_workflow rt
              (context (register (new_execution_id (clock rt now))
                                 (new_execution rt now input_data) self))
              fuel (new_execution_id (clock rt now)) workflow_data
              (start_state rt now input_data)) as ([resp | err] & s & ->).
  - by eexists _, _, _.
  - rewrite fail_workflow_run. by eexists _, _, _.
Qed.

(** The engine after a run: the engine before it with the record of the run
    under the run's id.  The record's end time is a clock reading. *)
Lemma execute_workflow_registers rt self now workflow_data input_data fuel :
  let execution_id := new_execution_id (clock rt now) in
  exists resp record n k,
    execute_workflow rt (S fuel) self now workflow_data input_data
      = Some (Ok resp,
              register execution_id record
                (register execution_id (new_execution rt now input_data) self), n) /\
    dict_get "execution_id" resp = Some (FStr execution_id) /\
    end_time record = Some (clock rt k).
Proof.
  intros execution_id. unfold execute_workflow, try_except. fold execution_id.
  destruct (total_run_workflow rt
              (context (register execution_id (new_execution rt now input_data) self))
              fuel execution_id workflow_data
              (start_state rt now input_data)) as ([resp | err] & s & Hrun);
    rewrite Hrun.
  - apply run_workflow_stamps_clock in Hrun as (Hid & k & Hend).
    by eexists _, _, _, k.
  - rewrite fail_workflow_run. by eexists _, _, _, _.
Qed.

(** ** Which nodes a run dispatches, in general *)

Section Keeps.

Context {S : Type} (R : S -> S -> Prop) `{!Reflexive R, !Transitive R}.

Lemma keeps_ret {A} (a : A) : keeps R (ret a).
Proof. intros s r s' [= _ <-]. reflexivity. Qed.

Lemma keeps_raise {A} (e : exn) : keeps R (@raise S A e).
Proof. intros s r s' [= _ <-]. reflexivity. Qed.

Lemma keeps_lift {A} (o : outcome A) : keeps R (lift o).
Proof. destruct o; [apply keeps_ret | apply keeps_raise]. Qed.

Lemma keeps_get_state : keeps R get_state.
Proof. intros s r s' [= _ <-]. reflexivity. Qed.

Lemma keeps_bind {A B} (m : ST S A) (k : A -> ST S B) :
  keeps R m -> (forall a, keeps R (k a)) -> keeps R (bind m k).
Proof.
  intros Hm Hk s r s'. unfold bind.
  destruct (m s) as [[[a | e] s1] |] eqn:Hms; [| | done].
  - intros Hks. etransitivity; [by eapply Hm | by eapply Hk].
  - intros [= _ <-]. by eapply Hm.
Qed.

Lemma keeps_try_except {A} (m : ST S A) (h : exn -> ST S A) :
  keeps R m -> (forall e, keeps R (h e)) -> keeps R (try_except m h).
Proof.
  intros Hm Hh s r s'. unfold try_except.
  destruct (m s) as [[[a | e] s1] |] eqn:Hms; [| | done].
  - intros [= _ <-]. by eapply Hm.
  - intros Hhs. etransitivity; [by eapply Hm | by eapply Hh].
Qed.

Lemma keeps_for_each {A B} (f : A -> ST S B) (xs : list A) :
  Forall (fun a => keeps R (f a)) xs -> keeps R (for_each f xs).
Proof.
  induction 1 as [| a rest Ha _ IH]; simpl.
  - apply keeps_ret.
  - apply keeps_bind; [done | intros b].
    apply keeps_bind; [done | intros bs]. apply keeps_ret.
Qed.

Lemma keeps_fold_each {A B} (f : B -> A -> ST S B) (xs : list A) (acc : B) :
  (forall b a, keeps R (f b a)) -> keeps R (fold_each f xs acc).
Proof.
  intros Hf. revert acc.
  induction xs as [| a rest IH]; intros acc; simpl.
  - apply keeps_ret.
  - apply keeps_bind; [apply Hf | done].
Qed.

End Keeps.

#[local] Instance quiet_reflexive : Reflexive quiet.
Proof. by intros s. Qed.

#[local] Instance quiet_transitive : Transitive quiet.
Proof.
  intros s1 s2 s3 [Hv12 H12] [Hv23 H23]. split; [congruence |].
  intros id. by rewrite H23, H12.
Qed.

Lemma dispatch_count_app id log extra :
  dispatch_count id (log ++ extra) = (dispatch_count id log + dispatch_count id extra)%nat.
Proof. unfold dispatch_count. by rewrite List.filter_app, length_app. Qed.

Lemma quiet_same_log f :
  (forall e, execution_log (f e) = execution_log e) -> keeps quiet (update_execution f).
Proof.
  intros Hf s r s' [= _ <-]. split; [done |]. intros id. cbn [execution]. by rewrite Hf.
Qed.

Lemma quiet_log_append l :
  String.eqb (level l) "info" = false ->
  keeps quiet (update_execution (log_append l)).
Proof.
  intros Hl s r s' [= _ <-]. split; [done |]. intros id.
  cbn [execution log_append execution_log].
  rewrite dispatch_count_app. unfold dispatch_count at 2. cbn [List.filter].
  unfold is_dispatch_of. rewrite Hl. cbn. lia.
Qed.

Lemma quiet_get_execution : keeps quiet get_execution.
Proof. intros s r s' [= _ <-]. reflexivity. Qed.

Lemma quiet_time_time rt : keeps quiet (time_time rt).
Proof. by intros s r s' [= _ <-]. Qed.

Lemma quiet_global_time_time rt : keeps quiet (global_time_time rt).
Proof.
  apply (keeps_bind quiet); [apply (keeps_lift quiet) |].
  intros _. apply quiet_time_time.
Qed.

Lemma quiet_capture (m : M value) : keeps quiet m -> keeps quiet (capture m).
Proof.
  intros Hm. apply (keeps_try_except quiet); [done |].
  intros e. apply (keeps_ret quiet).
Qed.

Create HintDb quiet discriminated.

#[local] Hint Resolve quiet_get_execution quiet_time_time quiet_global_time_time
  quiet_capture : quiet.

Ltac quiet_step :=
  match goal with
  | |- keeps quiet (bind _ _) => apply (keeps_bind quiet); [| intros ?]
  | |- keeps quiet (try_except _ _) => apply (keeps_try_except quiet); [| intros ?]
  | |- keeps quiet (fold_each _ _ _) => apply (keeps_fold_each quiet); intros ? ?
  | |- keeps quiet (ret _) => apply (keeps_ret quiet)
  | |- keeps quiet (raise _) => apply (keeps_raise quiet)
  | |- keeps quiet (lift _) => apply (keeps_lift quiet)
  | |- keeps quiet get_state => apply (keeps_get_state quiet)
  | |- keeps quiet (update_execution (log_append _)) => by apply quiet_log_append
  | |- keeps quiet (update_execution _) => by apply quiet_same_log
  | |- keeps quiet (if ?b then _ else _) => destruct b
  | |- keeps quiet (match ?x with _ => _ end) => destruct x
  | |- keeps quiet _ => solve [auto with quiet]
  end.

Ltac solve_quiet := repeat quiet_step.

Section HandlersQuiet.

Variable rt : Runtime.
Variable ctx : AgentContext.

Lemma quiet_handlers t h node inputs :
  node_handlers rt ctx t = Some h -> keeps quiet (h node inputs).
Proof.
  destruct t; intros [= <-].
  - unfold _execute_input_node. solve_quiet.
  - unfold _execute_agent_node. solve_quiet.
  - unfold _execute_tool_node. solve_quiet.
  - unfold _execute_condition_node. solve_quiet.
  - unfold _execute_output_node. solve_quiet.
  - unfold _execute_loop_node. solve_quiet.
  - unfold _execute_parallel_node.
    destruct (input_values inputs) as [| v vs]; [solve_quiet |].
    apply (keeps_bind quiet); [| intros ?; solve_quiet].
    apply (keeps_for_each quiet), Forall_forall. intros m Hm.
    apply list_elem_of_In, in_map_iff in Hm as (iv & <- & _).
    apply quiet_capture. unfold _process_parallel_input. solve_quiet.
  - unfold _execute_merge_node. solve_quiet.
Qed.

(** One call of [_execute_single_node] logs one dispatch, of its node, and
    leaves the cache alone. *)
Lemma single_node_dispatches_once node inputs s r s' :
  _execute_single_node rt ctx node inputs s = Some (r, s') ->
  visited s' = visited s /\
  forall id,
    dispatch_count id (execution_log (execution s'))
      = (dispatch_count id (execution_log (execution s))
         + if py_eq (node_id node) id then 1 else 0)%nat.
Proof.
  unfold _execute_single_node.
  unfold bind at 1. unfold time_time at 1. unfold bind at 1.
  unfold update_execution at 1, modify at 1.
  match goal with
  | |- ?m ?s1 = _ -> _ =>
      intros Hrest; assert (Hquiet : keeps quiet m); [| apply Hquiet in Hrest]
  end.
  - destruct (node_handlers rt ctx (node_type node)) as [h |] eqn:Hh; [| solve_quiet].
    pose proof (quiet_handlers _ _ node inputs Hh).
    solve_quiet.
  - destruct Hrest as [Hvisited Hcount]. split; [done |]. intros id.
    rewrite (Hcount id). cbn [execution log_append execution_log].
    rewrite dispatch_count_app. unfold dispatch_count at 2. cbn [List.filter].
    unfold is_dispatch_of. cbn [level entry_node String.eqb]. cbn.
    by destruct (py_eq (node_id node) id).
Qed.

End HandlersQuiet.

Lemma triple_bind {S A B} (P : S -> Prop) (m : ST S A) (k : A -> ST S B) Q Q' E :
  triple P m Q E -> (forall a, triple (Q a) (k a) Q' E) -> triple P (bind m k) Q' E.
Proof.
  intros Hm Hk s r s' HP. unfold bind.
  destruct (m s) as [[[a | e] s1] |] eqn:Hms; [| | done].
  - intros Hks. eapply Hk; [| done]. by apply (Hm s (Ok a) s1).
  - intros [= <- <-]. by apply (Hm s (Raise e) s1).
Qed.

Lemma triple_try_except {S A} (P : S -> Prop) (m : ST S A) (h : exn -> ST S A) Q E1 E :
  triple P m Q E1 -> (forall e, triple E1 (h e) Q E) -> triple P (try_except m h) Q E.
Proof.
  intros Hm Hh s r s' HP. unfold try_except.
  destruct (m s) as [[[a | e] s1] |] eqn:Hms; [| | done].
  - intros [= <- <-]. by apply (Hm s (Ok a) s1).
  - intros Hhs. eapply Hh; [| done]. by apply (Hm s (Raise e) s1).
Qed.

Lemma triple_for_each {S A B} (I E : S -> Prop) (f : A -> ST S B) (xs : list A) :
  Forall (fun a => triple I (f a) (fun _ => I) E) xs ->
  triple I (for_each f xs) (fun _ => I) E.
Proof.
  induction 1 as [| a rest Ha _ IH]; simpl.
  - by intros s r s' HI [= <- <-].
  - eapply triple_bind; [done | intros b].
    eapply triple_bind; [done | intros bs].
    by intros s r s' HI [= <- <-].
Qed.

Lemma triple_ret {S A} (P : S -> Prop) (Q E : S -> Prop) (a : A) :
  (forall s, P s -> Q s) -> triple P (ret a) (fun _ => Q) E.
Proof. intros HPQ s r s' HP [= <- <-]. by apply HPQ. Qed.

(** A computation that keeps [R] carries along what [R] carries along. *)
Lemma triple_keeps {S A} (R : S -> S -> Prop) (P Q E : S -> Prop) (m : ST S A) :
  keeps R m -> (forall s s', P s -> R s s' -> Q s') -> (forall s, Q s -> E s) ->
  triple P m (fun _ => Q) E.
Proof.
  intros Hm HR HE s r s' HP Hms. specialize (HR s s' HP (Hm s r s' Hms)).
  destruct r; auto.
Qed.

(** Equality of hashable values is Euclidean: two values equal to a third
    are equal to each other. *)
Lemma py_eq_euclidean a b c :
  py_eq a c = true -> py_eq b c = true -> py_eq a b = true.
Proof.
  destruct a, b, c; cbn; try done; rewrite ?Z.eqb_eq, ?String.eqb_eq;
    intros; subst; try done; lia.
Qed.

(** *** At most once *)

Lemma quiet_at_most_once s s' : dispatched_at_most_once s -> quiet s s' -> dispatched_at_most_once s'.
Proof. intros Hs [_ Hq] id. unfold log_of. rewrite Hq. apply Hs. Qed.

Lemma quiet_nothing_dispatched s s' : nothing_dispatched s -> quiet s s' -> nothing_dispatched s'.
Proof. intros Hs [_ Hq] id. unfold log_of. rewrite Hq. apply Hs. Qed.

Lemma nothing_is_at_most_once s : nothing_dispatched s -> dispatched_at_most_once s.
Proof. intros Hs id. rewrite Hs. lia. Qed.

Lemma cached_is_at_most_once s : dispatched_are_cached s -> dispatched_at_most_once s.
Proof. intros Hs id. apply Hs. Qed.

(** A node that is not in the cache has not been dispatched. *)
Lemma uncached_is_fresh s k id :
  dispatched_are_cached s ->
  set_mem k (visited s) = false ->
  py_eq k id = true ->
  dispatch_count id (log_of s) = 0%nat.
Proof.
  intros Hs Hk Hid. destruct (Hs id) as [Hle Hcached].
  destruct (dispatch_count id (log_of s)) as [| [| c]]; [done | | lia].
  specialize (Hcached eq_refl). unfold set_mem in *.
  apply existsb_exists in Hcached as (v & Hv & Hvid).
  assert (existsb (fun v' => py_eq v' k) (visited s) = true); [| congruence].
  apply existsb_exists. exists v. split; [done |]. by eapply py_eq_euclidean.
Qed.

Lemma set_mem_add k id vis :
  set_mem id vis = true \/ py_eq k id = true -> set_mem id (set_add k vis) = true.
Proof.
  unfold set_add. destruct (set_mem k vis) eqn:Hk.
  - intros [Hid | Hid]; [done |]. unfold set_mem in *.
    apply existsb_exists in Hk as (v & Hv & Hvk).
    apply existsb_exists. exists v. split; [done |].
    destruct v, k, id; cbn in *; try done;
      rewrite ?Z.eqb_eq, ?String.eqb_eq in *; subst; try done; lia.
  - unfold set_mem. rewrite existsb_app. cbn. intros [-> | ->]; [done |].
    by rewrite orb_true_r.
Qed.

Section AtMostOnce.

Variable rt : Runtime.
Variable ctx : AgentContext.

(** One round of the loop over the start nodes. *)
Lemma execute_node_start_round node_map connections fuel node :
  is_start_node connections node = true ->
  triple dispatched_are_cached
         (execute_node rt ctx node_map connections fuel node)
         (fun _ => dispatched_are_cached) dispatched_at_most_once.
Proof.
  intros Hstart s r s' Hs. destruct fuel as [| fuel]; [done |]. simpl.
  rewrite (start_node_no_prerequisites _ _ Hstart). simpl.
  unfold bind at 1. destruct (py_hash (node_id node)); simpl;
    [| intros [= <- <-]; by apply cached_is_at_most_once].
  unfold bind at 1. cbn [get_state].
  destruct (set_mem (node_id node) (visited s)) eqn:Hmem; [by intros [= <- <-] |].
  unfold bind at 1. cbn [ret]. unfold bind at 1. cbn [update_execution modify].
  unfold bind at 1.
  match goal with
  | |- context [_execute_single_node rt ctx node [] ?s1] =>
      destruct (_execute_single_node rt ctx node [] s1) as [[[v | e] s2] |] eqn:Hsingle;
      [| | done]
  end; apply single_node_dispatches_once in Hsingle as [Hvisited Hcount];
    cbn [visited execution set_current_node execution_log] in Hvisited, Hcount.
  - unfold bind. cbn [mark_visited modify ret]. intros [= <- <-] id.
    unfold log_of. cbn [execution visited]. rewrite Hcount, Hvisited.
    fold (log_of s).
    destruct (py_eq (node_id node) id) eqn:Hid.
    + rewrite (uncached_is_fresh s (node_id node) id Hs Hmem Hid).
      split; [lia |]. intros _. apply set_mem_add. by right.
    + rewrite Nat.add_0_r. destruct (Hs id) as [Hle Hcached]. split; [done |].
      intros H1. apply set_mem_add. left. by apply Hcached.
  - intros [= <- <-] id. unfold log_of. rewrite Hcount. fold (log_of s).
    destruct (py_eq (node_id node) id) eqn:Hid.
    + rewrite (uncached_is_fresh s (node_id node) id Hs Hmem Hid). lia.
    + rewrite Nat.add_0_r. apply Hs.
Qed.

Lemma graph_dispatches_at_most_once fuel nodes connections :
  triple nothing_dispatched
         (_execute_workflow_graph rt ctx fuel nodes connections)
         (fun _ => dispatched_at_most_once) dispatched_at_most_once.
Proof.
  unfold _execute_workflow_graph.
  eapply triple_bind;
    [apply (triple_keeps quiet nothing_dispatched nothing_dispatched);
     [apply (keeps_lift quiet) | apply quiet_nothing_dispatched
      | apply nothing_is_at_most_once] |].
  intros node_map. cbv beta.
  eapply triple_bind;
    [apply (triple_keeps quiet nothing_dispatched nothing_dispatched);
     [apply (keeps_lift quiet) | apply quiet_nothing_dispatched
      | apply nothing_is_at_most_once] |].
  intros connection_map. cbv beta.
  destruct (List.filter (is_start_node connections) nodes) as [| n0 ns] eqn:Hstart.
  { intros s r s' Hs [= <- <-]. by apply nothing_is_at_most_once. }
  rewrite <- Hstart.
  eapply (triple_bind _ _ _ (fun _ => dispatched_are_cached)).
  { intros s r s' Hs [= <- <-] id. pose proof (Hs id) as Hzero.
    unfold log_of in *. cbn [execution visited].
    rewrite Hzero. split; [lia | done]. }
  intros _.
  eapply (triple_bind _ _ _ (fun _ => dispatched_are_cached)).
  { apply triple_for_each, Forall_forall. intros node Hnode.
    apply execute_node_start_round.
    apply list_elem_of_In in Hnode. by apply filter_In in Hnode as [_ ?]. }
  intros final_results.
  destruct (List.filter (fun node => NodeType_eqb (node_type node) OUTPUT) nodes)
    as [| o os].
  - destruct final_results as [| r0 [| r1 rs]];
      apply triple_ret, cached_is_at_most_once.
  - eapply (triple_bind _ _ _ (fun _ => dispatched_at_most_once));
      [| intros s0; by apply triple_ret].
    apply (triple_keeps quiet dispatched_are_cached dispatched_at_most_once);
      [apply (keeps_get_state quiet) | | done].
    intros s s' Hs Hquiet. eapply quiet_at_most_once; [| done].
    by apply cached_is_at_most_once.
Qed.

End AtMostOnce.

Lemma triple_quiet_nothing {A} (m : M A) :
  keeps quiet m ->
  triple nothing_dispatched m (fun _ => nothing_dispatched) dispatched_at_most_once.
Proof.
  intros Hm.
  apply (triple_keeps quiet nothing_dispatched nothing_dispatched); [done | |].
  - apply quiet_nothing_dispatched.
  - apply nothing_is_at_most_once.
Qed.

Lemma triple_quiet_once {A} (m : M A) :
  keeps quiet m ->
  triple dispatched_at_most_once m (fun _ => dispatched_at_most_once)
         dispatched_at_most_once.
Proof.
  intros Hm.
  apply (triple_keeps quiet dispatched_at_most_once dispatched_at_most_once);
    [done | apply quiet_at_most_once | done].
Qed.

Lemma quiet_parse {A B} (parse : A -> outcome B) (xs : list A) :
  keeps quiet (for_each (fun a => lift (parse a)) xs).
Proof.
  apply (keeps_for_each quiet), Forall_forall. intros a _. apply (keeps_lift quiet).
Qed.

Lemma run_workflow_dispatches_at_most_once rt ctx fuel execution_id workflow_data :
  triple nothing_dispatched (run_workflow rt ctx fuel execution_id workflow_data)
         (fun _ => dispatched_at_most_once) dispatched_at_most_once.
Proof.
  unfold run_workflow.
  eapply triple_bind; [apply triple_quiet_nothing, (keeps_lift quiet) | intros ?].
  eapply triple_bind; [apply triple_quiet_nothing, (keeps_lift quiet) | intros ?].
  eapply triple_bind; [apply triple_quiet_nothing, quiet_parse | intros ?].
  eapply triple_bind; [apply triple_quiet_nothing, (keeps_lift quiet) | intros ?].
  eapply triple_bind; [apply triple_quiet_nothing, (keeps_lift quiet) | intros ?].
  eapply triple_bind; [apply triple_quiet_nothing, quiet_parse | intros ?].
  eapply triple_bind; [apply graph_dispatches_at_most_once | intros ?].
  apply triple_quiet_once. solve_quiet.
Qed.

(** The part of C1 that holds, for every payload: by the log, no node id is
    dispatched more than once in a run. *)
Lemma no_id_is_dispatched_twice rt self now workflow_data input_data fuel r self' n :
  execute_workflow rt fuel self now workflow_data input_data = Some (r, self', n) ->
  exists record,
    executions self' !! new_execution_id (clock rt now) = Some record /\
    forall id, (dispatch_count id (execution_log record) <= 1)%nat.
Proof.
  unfold execute_workflow.
  match goal with
  | |- context [try_except ?m ?h ?s0] =>
      destruct (try_except m h s0) as [[r' s] |] eqn:Hrun; [| done];
      assert (Htriple : triple nothing_dispatched (try_except m h)
                               (fun _ => dispatched_at_most_once)
                               dispatched_at_most_once)
  end.
  { eapply triple_try_except; [apply run_workflow_dispatches_at_most_once |].
    intros e. apply triple_quiet_once. unfold fail_workflow. solve_quiet. }
  intros [= <- <- <-]. exists (execution s). split; [apply lookup_insert_eq |].
  apply Htriple in Hrun; [| by intros id]. by destruct r'.
Qed.

(** *** Only start nodes *)

Section OnlyStartNodes.

Variable rt : Runtime.
Variable ctx : AgentContext.
Variable id : value.

Lemma quiet_dispatched_times c s s' :
  dispatched_times id c s -> quiet s s' -> dispatched_times id c s'.
Proof. intros Hs [_ Hq]. unfold dispatched_times, log_of. by rewrite Hq. Qed.

Lemma triple_quiet_times {A} c (m : M A) :
  keeps quiet m ->
  triple (dispatched_times id c) m (fun _ => dispatched_times id c) (dispatched_times id c).
Proof.
  intros Hm.
  apply (triple_keeps quiet (dispatched_times id c) (dispatched_times id c));
    [done | apply quiet_dispatched_times | done].
Qed.

(** The resolver on a start node whose id is another one. *)
Lemma execute_node_other_id node_map connections fuel node c :
  is_start_node connections node = true ->
  py_eq (node_id node) id = false ->
  triple (dispatched_times id c)
         (execute_node rt ctx node_map connections fuel node)
         (fun _ => dispatched_times id c) (dispatched_times id c).
Proof.
  intros Hstart Hother s r s' Hs. destruct fuel as [| fuel]; [done |]. simpl.
  rewrite (start_node_no_prerequisites _ _ Hstart). simpl.
  unfold bind at 1. destruct (py_hash (node_id node)); simpl;
    [| by intros [= <- <-]].
  unfold bind at 1. cbn [get_state].
  destruct (set_mem (node_id node) (visited s)) eqn:Hmem; [by intros [= <- <-] |].
  unfold bind at 1. cbn [ret]. unfold bind at 1. cbn [update_execution modify].
  unfold bind at 1.
  match goal with
  | |- context [_execute_single_node rt ctx node [] ?s1] =>
      destruct (_execute_single_node rt ctx node [] s1) as [[[v | e] s2] |] eqn:Hsingle;
      [| | done]
  end; apply single_node_dispatches_once in Hsingle as [_ Hcount];
    specialize (Hcount id); rewrite Hother, Nat.add_0_r in Hcount;
    cbn [execution set_current_node execution_log] in Hcount.
  - unfold bind. cbn [mark_visited modify ret]. intros [= <- <-].
    unfold dispatched_times, log_of in *. cbn [execution]. congruence.
  - intros [= <- <-]. unfold dispatched_times, log_of in *. congruence.
Qed.

(** The whole of C1's defect, for every graph: an id that only nodes with an
    incoming connection carry is dispatched by no run of the graph. *)
Lemma fed_nodes_are_never_dispatched fuel nodes connections s r s' :
  Forall (fun node => py_eq (node_id node) id = true ->
                      is_start_node connections node = false) nodes ->
  _execute_workflow_graph rt ctx fuel nodes connections s = Some (r, s') ->
  dispatch_count id (log_of s') = dispatch_count id (log_of s).
Proof.
  intros Hfed Hrun.
  assert (Htriple : triple (dispatched_times id (dispatch_count id (log_of s)))
                           (_execute_workflow_graph rt ctx fuel nodes connections)
                           (fun _ => dispatched_times id (dispatch_count id (log_of s)))
                           (dispatched_times id (dispatch_count id (log_of s)))).
  { unfold _execute_workflow_graph.
    eapply triple_bind; [apply triple_quiet_times, (keeps_lift quiet) | intros ?].
    eapply triple_bind; [apply triple_quiet_times, (keeps_lift quiet) | intros ?].
    destruct (List.filter (is_start_node connections) nodes) as [| n0 ns] eqn:Hstart.
    { by intros s0 r0 s0' Hs [= <- <-]. }
    rewrite <- Hstart.
    eapply (triple_bind _ _ _ (fun _ => dispatched_times id (dispatch_count id (log_of s))));
      [by intros s0 r0 s0' Hs [= <- <-] | intros _].
    eapply (triple_bind _ _ _ (fun _ => dispatched_times id (dispatch_count id (log_of s)))).
    - apply triple_for_each, Forall_forall. intros node Hnode.
      apply list_elem_of_In, filter_In in Hnode as [Hin Hstart'].
      apply execute_node_other_id; [done |].
      rewrite Forall_forall in Hfed. apply list_elem_of_In in Hin.
      specialize (Hfed node Hin).
      destruct (py_eq (node_id node) id); [| done].
      rewrite Hfed in Hstart'; done.
    - intros final_results. apply triple_quiet_times. solve_quiet. }
  apply Htriple in Hrun; [| done]. by destruct r.
Qed.

End OnlyStartNodes.

(** ** Dispatch on a diamond *)

(** C1.  On the diamond A -> B, A -> C, B -> D, C -> D the run returns
    normally, and its log shows one dispatch of A and no dispatch of B, C or
    D: the resolver is started on the nodes without incoming connection and
    walks towards prerequisites, so it never gets to a node that has one. *)
Theorem diamond_dispatches_only_its_start_node rt self now input_data fuel :
  exists resp self' n record,
    execute_workflow rt (S fuel) self now diamond input_data = Some (Ok resp, self', n) /\
    executions self' !! new_execution_id (clock rt now) = Some record /\
    status record = "completed" /\
    dispatch_count (VStr "A") (execution_log record) = 1%nat /\
    dispatch_count (VStr "B") (execution_log record) = 0%nat /\
    dispatch_count (VStr "C") (execution_log record) = 0%nat /\
    dispatch_count (VStr "D") (execution_log record) = 0%nat.
Proof.
  unfold execute_workflow.
  generalize (new_execution_id (clock rt now)) as eid. intros eid.
  generalize (context (register eid (new_execution rt now input_data) self)) as ctx.
  intros ctx.
  destruct (try_except (run_workflow rt ctx (S fuel) eid diamond)
                       (fail_workflow rt eid) (start_state rt now input_data))
    as [[r s] |] eqn:Hrun; cbv -[py_str pretty] in Hrun; [| done].
  injection Hrun as <- <-.
  eexists _, _, _, _. split; [reflexivity |].
  split; [apply lookup_insert_eq | by cbv -[py_str pretty]].
Qed.

(** ** The boundary of [execute_workflow] *)

(** C2, amended.  Whenever the [try] block of [execute_workflow] comes to an
    end, be it normally or with a fault of class [Exception],
    [execute_workflow] raises nothing and returns a mapping.  When the block
    gets to its end the mapping has the keys execution_id, result, log,
    duration and the record is completed.  When the block raises, the mapping
    has the keys execution_id, error, log and no duration; the record in the
    registry is failed, its end_time is stamped and the last entry of its log
    is an error entry with the message of the exception. *)
Theorem execute_workflow_returns_a_mapping rt self now workflow_data input_data fuel r s :
  run_workflow rt (context self) fuel (new_execution_id (clock rt now)) workflow_data
               (start_state rt now input_data) = Some (r, s) ->
  exists resp self' n record,
    execute_workflow rt fuel self now workflow_data input_data
      = Some (Ok resp, self', n) /\
    executions self' !! new_execution_id (clock rt now) = Some record /\
    ((exists result t,
        r = Ok resp /\
        resp = [("execution_id", FStr (new_execution_id (clock rt now)));
                ("result", FValue result);
                ("log", FLog (execution_log record));
                ("duration", FFloat (t - start_time record))] /\
        status record = "completed" /\
        end_time record = Some t)
     \/
     (exists err t t',
        r = Raise err /\
        resp = [("execution_id", FStr (new_execution_id (clock rt now)));
                ("error", FStr (exn_msg err));
                ("log", FLog (execution_log record))] /\
        dict_get "duration" resp = None /\
        status record = "failed" /\
        end_time record = Some t /\
        last (execution_log record) =
          Some {| timestamp := t'; level := "error"; message := exn_msg err;
                  entry_node := None; entry_result := None |})).
Proof.
  intros Hrun. unfold execute_workflow.
  change (context (register (new_execution_id (clock rt now))
                            (new_execution rt now input_data) self))
    with (context self).
  unfold try_except. rewrite Hrun. destruct r as [resp | err].
  - destruct (run_workflow_returned _ _ _ _ _ _ _ _ Hrun) as (result & t & -> & Hst & Hend).
    eexists _, _, _, _. split; [reflexivity |].
    split; [apply lookup_insert_eq |].
    left. by exists result, t.
  - rewrite fail_workflow_run. cbv zeta.
    eexists _, _, _, _. split; [reflexivity |].
    split; [apply lookup_insert_eq |].
    right. eexists err, _, _. split; [done |]. split; [done |].
    split; [done |]. split; [done |]. split; [done |].
    cbn [execution_log]. apply last_snoc.
Qed.

Lemma execute_workflow_returns_a_mapping_witness :
  exists resp self' n record,
    execute_workflow example_runtime 1 (new_engine (example_context "main")) 0
                     (wire_graph [] []) VNone = Some (Ok resp, self', n) /\
    executions self' !! new_execution_id (clock example_runtime 0) = Some record /\
    ((exists result t,
        Raise (Exn PyException "No starting nodes found in workflow") = Ok resp /\
        resp = [("execution_id", FStr (new_execution_id (clock example_runtime 0)));
                ("result", FValue result);
                ("log", FLog (execution_log record));
                ("duration", FFloat (t - start_time record))] /\
        status record = "completed" /\
        end_time record = Some t)
     \/
     (exists err t t',
        @Raise response (Exn PyException "No starting nodes found in workflow")
          = Raise err /\
        resp = [("execution_id", FStr (new_execution_id (clock example_runtime 0)));
                ("error", FStr (exn_msg err));
                ("log", FLog (execution_log record))] /\
        dict_get "duration" resp = None /\
        status record = "failed" /\
        end_time record = Some t /\
        last (execution_log record) =
          Some {| timestamp := t'; level := "error"; message := exn_msg err;
                  entry_node := None; entry_result := None |})).
Proof.
  apply (execute_workflow_returns_a_mapping example_runtime
           (new_engine (example_context "main")) 0 (wire_graph [] []) VNone 1
           (Raise (Exn PyException "No starting nodes found in workflow"))
           (start_state example_runtime 0 VNone)).
  reflexivity.
Defined.

(** C2 as stated fails on the empty graph: the run ends in the structural
    fault of having no start node, and the mapping it returns has an error
    and no duration. *)
Lemma failed_run_reports_no_duration :
  exists resp self' n,
    execute_workflow example_runtime 1 (new_engine (example_context "main")) 0
                     (wire_graph [] []) VNone = Some (Ok resp, self', n) /\
    dict_get "error" resp = Some (FStr "No starting nodes found in workflow") /\
    dict_get "duration" resp = None.
Proof.
  destruct (execute_workflow _ _ _ _ _ _) as [[[r self'] n] |] eqn:Hrun;
    vm_compute in Hrun; [| done].
  injection Hrun as <- _ _. by eexists _, _, _.
Qed.

(** ** Cyclic graphs at run time *)

Lemma build_node_map_hashable nodes :
  Forall (fun node => py_hash (node_id node) = Ok tt) nodes ->
  exists node_map, build_node_map nodes = Ok node_map.
Proof.
  unfold build_node_map. intros Hnodes.
  generalize (@nil (value * WorkflowNode)).
  induction Hnodes as [| node rest Hnode _ IH]; intros acc; simpl.
  - by exists acc.
  - rewrite Hnode. apply IH.
Qed.

Lemma build_connection_map_hashable connections :
  Forall (fun conn => py_hash (from_node conn) = Ok tt) connections ->
  exists connection_map, _build_connection_map connections = Ok connection_map.
Proof.
  unfold _build_connection_map. intros Hconns.
  generalize (@nil (value * list WorkflowConnection)).
  induction Hconns as [| conn rest Hconn _ IH]; intros acc; simpl.
  - by exists acc.
  - rewrite Hconn. apply IH.
Qed.

Lemma no_start_nodes connections nodes :
  Forall (fun node => is_start_node connections node = false) nodes ->
  List.filter (is_start_node connections) nodes = [].
Proof.
  induction 1 as [| node rest Hnode _ IH]; simpl; [done |]. by rewrite Hnode.
Qed.

(** A graph in which every node has an incoming connection is turned down
    before any node runs. *)
Lemma graph_without_start_node_raises rt ctx fuel nodes connections s :
  Forall (fun node => py_hash (node_id node) = Ok tt) nodes ->
  Forall (fun conn => py_hash (from_node conn) = Ok tt) connections ->
  Forall (fun node => is_start_node connections node = false) nodes ->
  _execute_workflow_graph rt ctx fuel nodes connections s
    = Some (Raise (Exn PyException "No starting nodes found in workflow"), s).
Proof.
  intros Hnodes Hconns Hnone.
  unfold _execute_workflow_graph, bind.
  destruct (build_node_map_hashable _ Hnodes) as (node_map & ->).
  destruct (build_connection_map_hashable _ Hconns) as (connection_map & ->).
  simpl. by rewrite (no_start_nodes _ _ Hnone).
Qed.


(** ** A CONDITION node whose expression faults *)

(** C4.  When evaluating the configured expression raises, the [except]
    branch of the handler starts by reading [time.time()]; the function has
    no local [time] and the module has no global one, so the branch raises
    [NameError] before it appends anything.  The handler neither logs a
    warning nor returns the permissive default: it raises, and the state is
    the one it started in. *)
Theorem condition_fault_escapes_the_handler rt node inputs s condition err :
  py_get (data node) "condition" (VStr "True") = Ok condition ->
  eval_call rt condition
    (eval_context (inputs_get inputs "input_0" (VBool true))
                  (variables (execution s)) inputs) = Raise err ->
  _execute_condition_node rt node inputs s
    = Some (Raise (Exn NameError "name 'time' is not defined"), s).
Proof.
  intros Hcondition Heval.
  unfold _execute_condition_node, bind, try_except, get_execution.
  rewrite Hcondition. simpl. by rewrite Heval.
Qed.

Lemma condition_fault_escapes_the_handler_witness :
  _execute_condition_node example_runtime condition_node []
      (start_state example_runtime 0 VNone)
    = Some (Raise (Exn NameError "name 'time' is not defined"),
            start_state example_runtime 0 VNone).
Proof.
  apply (condition_fault_escapes_the_handler example_runtime condition_node []
           (start_state example_runtime 0 VNone) (VStr "undefined_var")
           (Exn NameError "name 'undefined_var' is not defined")).
  - reflexivity.
  - reflexivity.
Defined.

(** The same fault seen from [execute_workflow]: the run is reported as
    failed with the [NameError], and its log has no warning entry. *)
Lemma undefined_condition_fails_the_run :
  exists resp self' n record,
    execute_workflow example_runtime 1 (new_engine (example_context "main")) 0
                     undefined_condition VNone = Some (Ok resp, self', n) /\
    dict_get "error" resp = Some (FStr "name 'time' is not defined") /\
    dict_get "result" resp = None /\
    executions self' !! "exec_1700000000" = Some record /\
    status record = "failed" /\
    List.filter (has_level "warning") (execution_log record) = [].
Proof.
  destruct (execute_workflow _ _ _ _ _ _) as [[[r self'] n] |] eqn:Hrun;
    vm_compute in Hrun; [| done].
  injection Hrun as <- <- _.
  eexists _, _, _, _. split; [reflexivity |].
  split; [done |]. split; [done |]. split; [by vm_compute |]. by vm_compute.
Qed.

(** ** A PARALLEL node *)

Lemma process_parallel_input_faults rt node input_value index s :
  _process_parallel_input rt node input_value index s
    = Some (Raise (parallel_unit_fault node), s).
Proof.
  unfold _process_parallel_input, parallel_unit_fault, bind.
  destruct (py_get (data node) "processing_time" (VFloat micro))
    as [processing_time | e]; simpl; [| done].
  by destruct (asyncio_sleep processing_time).
Qed.

Lemma capture_parallel_input rt node input_value index s :
  capture (_process_parallel_input rt node input_value index) s
    = Some (Ok (VExc (parallel_unit_fault node)), s).
Proof.
  unfold capture, try_except. by rewrite process_parallel_input_faults.
Qed.

Lemma gather_of_faults rt node (units : list (Z * value)) s :
  for_each capture
    (map (fun iv => _process_parallel_input rt node (snd iv) (fst iv)) units) s
    = Some (Ok (map (fun _ => VExc (parallel_unit_fault node)) units), s).
Proof.
  induction units as [| iv rest IH]; simpl; [done |].
  unfold bind at 1. rewrite capture_parallel_input.
  unfold bind at 1. by rewrite IH.
Qed.

Lemma map_const_enumerate {A B} (c : B) (xs : list A) :
  map (fun _ => c) (enumerate xs) = map (fun _ => c) xs.
Proof.
  unfold enumerate. generalize 0%nat.
  induction xs as [| a rest IH]; intros k; simpl; [done |]. by rewrite IH.
Qed.

(** C5.  A PARALLEL node returns one entry per input value, in input order,
    and leaves the state as it was; but every entry is a captured exception.
    A unit whose delay is readable and numeric still ends by looking up
    [time], which is bound nowhere, so no entry is ever a normal result. *)
Theorem parallel_entries_are_all_faults rt node inputs s :
  _execute_parallel_node rt node inputs s
    = Some (Ok (VList (map (fun _ => VExc (parallel_unit_fault node))
                           (input_values inputs))), s).
Proof.
  unfold _execute_parallel_node.
  destruct (input_values inputs) as [| v vs] eqn:Hvalues; [done |].
  unfold bind. rewrite gather_of_faults.
  by rewrite map_const_enumerate.
Qed.

(** Three inputs on a well-formed node: three [NameError]s. *)
Lemma three_parallel_inputs :
  let fault := VExc (Exn NameError "name 'time' is not defined") in
  forall s,
    _execute_parallel_node example_runtime parallel_node three_inputs s
      = Some (Ok (VList [fault; fault; fault]), s).
Proof.
  intros fault s. by cbv -[py_str pretty].
Qed.

(** ** An INPUT node in a run without initial input *)

(** The record of a run is created with the key ["input"] among its
    variables, whatever the initial input is; the handler tests for the key,
    so it takes its first branch. *)
Lemma input_node_returns_the_variable node inputs s v :
  dict_get "input" (variables (execution s)) = Some v ->
  _execute_input_node node inputs s = Some (Ok v, s).
Proof.
  intros Hv. unfold _execute_input_node, bind, get_execution. by rewrite Hv.
Qed.

(** C6.  A run that is started without initial input carries [None] under
    ["input"].  Its INPUT node returns that [None], whatever default value
    the node is configured with, and the run completes with [None] as its
    result. *)
Theorem input_node_ignores_its_default rt self now default_value fuel :
  exists resp self' n,
    execute_workflow rt (S fuel) self now (lone_input default_value) VNone
      = Some (Ok resp, self', n) /\
    dict_get "result" resp = Some (FValue VNone).
Proof.
  unfold execute_workflow.
  generalize (new_execution_id (clock rt now)) as eid. intros eid.
  generalize (context (register eid (new_execution rt now VNone) self)) as ctx.
  intros ctx.
  destruct (try_except (run_workflow rt ctx (S fuel) eid (lone_input default_value))
                       (fail_workflow rt eid) (start_state rt now VNone))
    as [[r s] |] eqn:Hrun; cbv -[py_str pretty] in Hrun; [| done].
  injection Hrun as <- <-. by eexists _, _, _.
Qed.

(** ** The validator on a node without id *)

(** C7.  A node that lacks the key ["id"] is first recorded as an error, by
    way of [node.get("id")], and then subscripted with ["id"] when the set of
    node ids is built.  The subscript raises [KeyError], nothing catches it,
    and the errors collected so far are lost with the call. *)
Theorem validate_raises_on_node_without_id fuel :
  validate_workflow fuel node_without_id = Some (Raise (Exn KeyError "'id'")).
Proof. reflexivity. Qed.

(** Two nodes, no connection: two warnings, no error. *)
Lemma orphans_are_warnings fuel :
  validate_workflow (S (S fuel)) two_orphans
    = Some (Ok {| valid := true;
                  v_errors := [];
                  v_warnings := ["Node 'A' is not connected to the workflow";
                                 "Node 'B' is not connected to the workflow"];
                  node_count := 2; connection_count := 0 |}).
Proof. by vm_compute. Qed.

(** ** Stopping an execution *)

(** [stop_execution] on an id that is absent, or whose record is not
    running, answers [False] and changes nothing. *)
Lemma stop_execution_not_running rt self now execution_id :
  match executions self !! execution_id with
  | Some record => status record <> "running"
  | None => True
  end ->
  stop_execution rt self now execution_id = (Ok false, self, now).
Proof.
  unfold stop_execution.
  destruct (executions self !! execution_id) as [record |]; [| done].
  intros Hstatus. by apply String.eqb_neq in Hstatus as ->.
Qed.

(** C8.  On a record that is running, [stop_execution] sets the status to
    stopped and then reads [time.time()] to stamp the end time.  The function
    has no local [time] and the module no global one: the call raises
    [NameError].  The status is changed, the end time is not stamped, and
    nothing is returned. *)
Theorem stop_of_a_running_record_raises rt self now execution_id record :
  executions self !! execution_id = Some record ->
  status record = "running" ->
  stop_execution rt self now execution_id
    = (Raise (Exn NameError "name 'time' is not defined"),
       register execution_id (set_status "stopped" record) self, now) /\
  end_time (set_status "stopped" record) = end_time record.
Proof.
  intros Hrecord Hstatus. unfold stop_execution. by rewrite Hrecord, Hstatus.
Qed.

Lemma stop_of_a_running_record_raises_witness :
  stop_execution example_runtime engine_with_running_record 2 "exec_1700000000"
    = (Raise (Exn NameError "name 'time' is not defined"),
       register "exec_1700000000" (set_status "stopped" running_record)
                engine_with_running_record, 2%nat) /\
  end_time (set_status "stopped" running_record) = end_time running_record.
Proof.
  apply (stop_of_a_running_record_raises example_runtime engine_with_running_record
           2 "exec_1700000000" running_record).
  - reflexivity.
  - reflexivity.
Defined.

(** ** One engine per process *)

(** Once the global is set, [get_workflow_engine] hands it out whatever the
    context of the call. *)
Lemma get_workflow_engine_existing context engine p :
  workflow_engine._workflow_engine p = Some engine ->
  workflow_engine.get_workflow_engine context p = (engine, p).
Proof. intros Hp. unfold workflow_engine.get_workflow_engine. by rewrite Hp. Qed.

(** The first call builds the engine around its context and stores it. *)
Lemma get_workflow_engine_fresh context p :
  workflow_engine._workflow_engine p = None ->
  workflow_engine.get_workflow_engine context p
    = ({| context := context; executions := ∅ |},
       {| workflow_engine._workflow_engine :=
            Some {| context := context; executions := ∅ |};
          workflow_engine.readings := workflow_engine.readings p |}).
Proof. intros Hp. unfold workflow_engine.get_workflow_engine. by rewrite Hp. Qed.

(** C9, amended.  The module keeps one engine in the global variable
    [_workflow_engine].  The first call of [get_workflow_engine] builds it
    around the context of that call; a later call, for whatever context,
    gets that same engine, still bound to the first context, and the process
    is left as it was.  A run started for the first context is in the
    registry of the engine that the second context is given. *)
Theorem engine_is_shared_by_all_contexts rt fuel c1 c2 workflow_data input_data p :
  workflow_engine._workflow_engine p = None ->
  let first := workflow_engine.get_workflow_engine c1 p in
  let second := workflow_engine.get_workflow_engine c2 (snd first) in
  fst second = fst first /\
  context (fst second) = c1 /\
  snd second = snd first /\
  exists resp p' record,
    workflow_engine.execute_workflow rt (S fuel) c1 workflow_data input_data p
      = Some (Ok resp, p') /\
    context (fst (workflow_engine.get_workflow_engine c2 p')) = c1 /\
    executions (fst (workflow_engine.get_workflow_engine c2 p'))
      !! new_execution_id (clock rt (workflow_engine.readings p)) = Some record /\
    dict_get "execution_id" resp
      = Some (FStr (new_execution_id (clock rt (workflow_engine.readings p)))).
Proof.
  intros Hnone. cbv zeta.
  unfold workflow_engine.execute_workflow.
  rewrite !(get_workflow_engine_fresh _ _ Hnone). cbn [fst snd].
  erewrite (get_workflow_engine_existing c2) by reflexivity. cbn [fst snd context].
  split; [done |]. split; [done |]. split; [done |].
  cbn [workflow_engine.readings].
  destruct (execute_workflow_registers rt {| context := c1; executions := ∅ |}
              (workflow_engine.readings p) workflow_data input_data fuel)
    as (resp & record & n & k & -> & Hid & _).
  eexists resp, _, record. split; [reflexivity |].
  erewrite (get_workflow_engine_existing c2) by reflexivity. cbn [fst].
  split; [done |]. split; [apply lookup_insert_eq | done].
Qed.

Lemma engine_is_shared_by_all_contexts_witness :
  context (fst (workflow_engine.get_workflow_engine (example_context "second")
                  (snd (workflow_engine.get_workflow_engine (example_context "first")
                          fresh_process))))
    = example_context "first".
Proof.
  exact (proj1 (proj2
    (engine_is_shared_by_all_contexts example_runtime 0
       (example_context "first") (example_context "second")
       (lone_input VNone) VNone fresh_process eq_refl))).
Defined.

(** C9 as stated fails on two contexts, "first" and "second".  After a run
    for "first", the engine that "second" is given is bound to "first" and
    its registry holds the run of "first", input included. *)
Lemma second_context_gets_the_first_engine :
  exists resp p' record,
    workflow_engine.execute_workflow example_runtime 1 (example_context "first")
        (lone_input VNone) (VStr "input of first") fresh_process = Some (Ok resp, p') /\
    context_id (context (fst (workflow_engine.get_workflow_engine
                                (example_context "second") p')))
      <> context_id (example_context "second") /\
    executions (fst (workflow_engine.get_workflow_engine (example_context "second") p'))
      !! "exec_1700000000" = Some record /\
    variables record = [("input", VStr "input of first")].
Proof.
  destruct (workflow_engine.execute_workflow _ _ _ _ _ _) as [[r p'] |] eqn:Hrun;
    vm_compute in Hrun; [| done].
  injection Hrun as <- <-.
  eexists _, _, _. split; [reflexivity |].
  split; [by vm_compute |]. split; by vm_compute.
Qed.

(** ** Execution ids *)






(** * Further properties of the engine *)

(** ** What a run keeps of its record *)

#[local] Instance steady_reflexive : Reflexive steady.
Proof. intros s. unfold steady. by repeat split. Qed.

#[local] Instance steady_transitive : Transitive steady.
Proof.
  intros s1 s2 s3 (? & ? & ? & ? & ? & ?) (? & ? & ? & ? & ? & ?).
  unfold steady. repeat split; try congruence. lia.
Qed.

#[local] Instance calm_reflexive : Reflexive calm.
Proof. by intros s. Qed.

#[local] Instance calm_transitive : Transitive calm.
Proof. intros s1 s2 s3. unfold calm. congruence. Qed.

Lemma keeps_diverge {S A} (R : S -> S -> Prop) : keeps R (@diverge S A).
Proof. by intros s r s'. Qed.

Lemma keeps_modify {S} (R : S -> S -> Prop) (f : S -> S) :
  (forall s, R s (f s)) -> keeps R (modify f).
Proof. intros Hf s r s' [= _ <-]. apply Hf. Qed.

(** Assigning to another key leaves a key's value alone. *)
Lemma dict_get_set_other {A} (a k : string) (x : A) d :
  String.eqb a k = false -> dict_get a (dict_set k x d) = dict_get a d.
Proof.
  intros Hak. induction d as [| [k' y] rest IH]; simpl.
  - by rewrite Hak.
  - destruct (String.eqb k k') eqn:Hk; simpl.
    + apply String.eqb_eq in Hk as <-. by rewrite Hak.
    + by rewrite IH.
Qed.

(** Reading back the key that was assigned. *)
Lemma dict_get_set_same {A} (k : string) (x : A) d :
  dict_get k (dict_set k x d) = Some x.
Proof.
  induction d as [| [k' y] rest IH]; simpl.
  - by rewrite String.eqb_refl.
  - destruct (String.eqb k k') eqn:Hk; simpl; [by rewrite String.eqb_refl |].
    by rewrite Hk.
Qed.

Lemma steady_update f :
  (forall e, exec_id (f e) = exec_id e /\ start_time (f e) = start_time e /\
             end_time (f e) = end_time e /\ status (f e) = status e /\
             dict_get "input" (variables (f e)) = dict_get "input" (variables e)) ->
  keeps steady (update_execution f).
Proof.
  intros Hf. apply keeps_modify. intros s. unfold steady. cbn [execution ticks].
  destruct (Hf (execution s)) as (? & ? & ? & ? & ?). by repeat split.
Qed.

Lemma steady_set_variable k v :
  String.eqb "input" k = false -> keeps steady (update_execution (set_variable k v)).
Proof.
  intros Hk. apply steady_update. intros e. cbn. repeat split.
  by apply dict_get_set_other.
Qed.

Lemma steady_time_time rt : keeps steady (time_time rt).
Proof. intros s r s' [= _ <-]. unfold steady. cbn. repeat split. lia. Qed.

Lemma steady_get_execution : keeps steady get_execution.
Proof. intros s r s' [= _ <-]. reflexivity. Qed.

Lemma calm_update f : keeps calm (update_execution f).
Proof. by apply keeps_modify. Qed.

Lemma calm_time_time rt : keeps calm (time_time rt).
Proof. by intros s r s' [= _ <-]. Qed.

Lemma calm_get_execution : keeps calm get_execution.
Proof. by intros s r s' [= _ <-]. Qed.

(** Goes through a computation for a relation [R]; [leaf] closes what is
    left at the primitives. *)
Ltac keeps_with R leaf :=
  repeat match goal with
  | |- keeps R (bind _ _) => apply (keeps_bind R); [| intros ?]
  | |- keeps R (try_except _ _) => apply (keeps_try_except R); [| intros ?]
  | |- keeps R (fold_each _ _ _) => apply (keeps_fold_each R); intros ? ?
  | |- keeps R (ret _) => apply (keeps_ret R)
  | |- keeps R (raise _) => apply (keeps_raise R)
  | |- keeps R diverge => apply (keeps_diverge R)
  | |- keeps R (lift _) => apply (keeps_lift R)
  | |- keeps R get_state => apply (keeps_get_state R)
  | |- keeps R (capture _) => unfold capture
  | |- keeps R (global_time_time _) => unfold global_time_time
  | |- keeps R (if ?b then _ else _) => destruct b
  | |- keeps R (match ?x with _ => _ end) => destruct x
  | |- keeps R _ => solve [leaf]
  end.

Ltac steady_leaf :=
  first [ assumption
        | apply steady_time_time
        | apply steady_get_execution
        | by apply steady_set_variable
        | apply steady_update; intros ?; by repeat split
        | apply keeps_modify; intros ?; unfold steady; cbn; repeat split; lia ].

Ltac calm_leaf :=
  first [ assumption | apply calm_time_time | apply calm_get_execution | apply calm_update ].

Section HandlersSteady.

Variable rt : Runtime.
Variable ctx : AgentContext.

Lemma steady_handlers t h node inputs :
  node_handlers rt ctx t = Some h -> keeps steady (h node inputs).
Proof.
  destruct t; intros [= <-].
  - unfold _execute_input_node. keeps_with steady steady_leaf.
  - unfold _execute_agent_node. keeps_with steady steady_leaf.
  - unfold _execute_tool_node. keeps_with steady steady_leaf.
  - unfold _execute_condition_node. keeps_with steady steady_leaf.
  - unfold _execute_output_node. keeps_with steady steady_leaf.
  - unfold _execute_loop_node. keeps_with steady steady_leaf.
  - unfold _execute_parallel_node.
    destruct (input_values inputs) as [| v vs]; [keeps_with steady steady_leaf |].
    apply (keeps_bind steady); [| intros ?; keeps_with steady steady_leaf].
    apply (keeps_for_each steady), Forall_forall. intros m Hm.
    apply list_elem_of_In, in_map_iff in Hm as (iv & <- & _).
    unfold _process_parallel_input. keeps_with steady steady_leaf.
  - unfold _execute_merge_node. keeps_with steady steady_leaf.
Qed.

Lemma calm_handlers t h node inputs :
  node_handlers rt ctx t = Some h -> keeps calm (h node inputs).
Proof.
  destruct t; intros [= <-].
  - unfold _execute_input_node. keeps_with calm calm_leaf.
  - unfold _execute_agent_node. keeps_with calm calm_leaf.
  - unfold _execute_tool_node. keeps_with calm calm_leaf.
  - unfold _execute_condition_node. keeps_with calm calm_leaf.
  - unfold _execute_output_node. keeps_with calm calm_leaf.
  - unfold _execute_loop_node. keeps_with calm calm_leaf.
  - unfold _execute_parallel_node.
    destruct (input_values inputs) as [| v vs]; [keeps_with calm calm_leaf |].
    apply (keeps_bind calm); [| intros ?; keeps_with calm calm_leaf].
    apply (keeps_for_each calm), Forall_forall. intros m Hm.
    apply list_elem_of_In, in_map_iff in Hm as (iv & <- & _).
    unfold _process_parallel_input. keeps_with calm calm_leaf.
  - unfold _execute_merge_node. keeps_with calm calm_leaf.
Qed.

Lemma steady_single_node node inputs :
  keeps steady (_execute_single_node rt ctx node inputs).
Proof.
  unfold _execute_single_node.
  apply (keeps_bind steady); [apply steady_time_time | intros t].
  apply (keeps_bind steady); [steady_leaf | intros _].
  destruct (node_handlers rt ctx (node_type node)) as [h |] eqn:Hh;
    [| apply (keeps_raise steady)].
  pose proof (steady_handlers _ _ node inputs Hh).
  keeps_with steady steady_leaf.
Qed.

Lemma calm_single_node node inputs :
  keeps calm (_execute_single_node rt ctx node inputs).
Proof.
  unfold _execute_single_node.
  apply (keeps_bind calm); [apply calm_time_time | intros t].
  apply (keeps_bind calm); [apply calm_update | intros _].
  destruct (node_handlers rt ctx (node_type node)) as [h |] eqn:Hh;
    [| apply (keeps_raise calm)].
  pose proof (calm_handlers _ _ node inputs Hh).
  keeps_with calm calm_leaf.
Qed.

(** The resolver, to any depth. *)
Lemma steady_execute_node node_map connections fuel :
  forall node, keeps steady (execute_node rt ctx node_map connections fuel node).
Proof.
  induction fuel as [| fuel IH]; intros node; simpl.
  - apply (keeps_diverge steady).
  - pose proof (steady_single_node node) as Hsingle.
    apply (keeps_bind steady); [apply (keeps_lift steady) | intros _].
    apply (keeps_bind steady); [apply (keeps_get_state steady) | intros s0].
    destruct (set_mem (node_id node) (visited s0)); [apply (keeps_ret steady) |].
    apply (keeps_bind steady).
    + apply (keeps_fold_each steady). intros acc prereq.
      apply (keeps_bind steady); [apply (keeps_lift steady) | intros prereq_node].
      apply (keeps_bind steady); [apply IH | intros ?]. apply (keeps_ret steady).
    + intros prerequisite_results.
      pose proof (steady_single_node node prerequisite_results).
      keeps_with steady steady_leaf.
Qed.

Lemma steady_execute_workflow_graph fuel nodes connections :
  keeps steady (_execute_workflow_graph rt ctx fuel nodes connections).
Proof.
  unfold _execute_workflow_graph.
  apply (keeps_bind steady); [apply (keeps_lift steady) | intros node_map].
  apply (keeps_bind steady); [apply (keeps_lift steady) | intros connection_map].
  destruct (List.filter (is_start_node connections) nodes) as [| n0 ns];
    [apply (keeps_raise steady) |].
  apply (keeps_bind steady); [steady_leaf | intros _].
  apply (keeps_bind steady).
  - apply (keeps_for_each steady), Forall_forall. intros node _.
    apply steady_execute_node.
  - intros final_results. keeps_with steady steady_leaf.
Qed.

End HandlersSteady.

Lemma triple_steady {A} s0 (m : M A) :
  keeps steady m -> triple (steady s0) m (fun _ => steady s0) (steady s0).
Proof.
  intros Hm. apply (triple_keeps steady (steady s0) (steady s0)); [done | | done].
  intros s s' Hs Hss'. by etransitivity.
Qed.

(** The [try] block: until its last statements it keeps the record steady;
    a return goes through those statements. *)
Lemma run_workflow_outcome rt ctx fuel execution_id workflow_data s0 :
  triple (steady s0) (run_workflow rt ctx fuel execution_id workflow_data)
    (fun resp s' => exists x result,
       steady s0 x /\
       execution s'
         = set_end_time (clock rt (ticks x)) (set_status "completed" (execution x)) /\
       ticks s' = S (ticks x) /\
       resp = [("execution_id", FStr execution_id);
               ("result", FValue result);
               ("log", FLog (execution_log (execution x)));
               ("duration", FFloat (clock rt (ticks x) - start_time (execution x)))])
    (steady s0).
Proof.
  unfold run_workflow.
  eapply triple_bind; [apply triple_steady, (keeps_lift steady) | intros ?].
  eapply triple_bind; [apply triple_steady, (keeps_lift steady) | intros ?].
  eapply triple_bind.
  { apply triple_steady, (keeps_for_each steady), Forall_forall.
    intros ? _. apply (keeps_lift steady). }
  intros ?.
  eapply triple_bind; [apply triple_steady, (keeps_lift steady) | intros ?].
  eapply triple_bind; [apply triple_steady, (keeps_lift steady) | intros ?].
  eapply triple_bind.
  { apply triple_steady, (keeps_for_each steady), Forall_forall.
    intros ? _. apply (keeps_lift steady). }
  intros ?.
  eapply triple_bind; [apply triple_steady, steady_execute_workflow_graph | intros result].
  intros x r s' Hx Hrun. injection Hrun as <- <-.
  exists x, result. split; [exact Hx | by repeat split].
Qed.

(** What a call of [execute_workflow] that comes back has done. *)
Lemma execute_workflow_outcome rt fuel self now workflow_data input_data r self' n :
  execute_workflow rt fuel self now workflow_data input_data = Some (r, self', n) ->
  let execution_id := new_execution_id (clock rt now) in
  exists resp record k,
    r = Ok resp /\
    self' = register execution_id record
              (register execution_id (new_execution rt now input_data) self) /\
    exec_id record = execution_id /\
    start_time record = clock rt (S now) /\
    dict_get "input" (variables record) = Some input_data /\
    (S now < k)%nat /\ (k < n)%nat /\
    end_time record = Some (clock rt k) /\
    dict_get "execution_id" resp = Some (FStr execution_id) /\
    dict_get "log" resp = Some (FLog (execution_log record)) /\
    ((status record = "completed" /\
      dict_get "duration" resp = Some (FFloat (clock rt k - clock rt (S now))) /\
      dict_get "error" resp = None)
     \/
     (status record = "failed" /\
      dict_get "duration" resp = None /\
      dict_get "result" resp = None /\
      exists msg, dict_get "error" resp = Some (FStr msg))).
Proof.
  intros Hrun execution_id. unfold execute_workflow in Hrun. fold execution_id in Hrun.
  set (ctx := context (register execution_id (new_execution rt now input_data) self)) in Hrun.
  set (s0 := start_state rt now input_data) in Hrun.
  unfold try_except in Hrun.
  destruct (run_workflow rt ctx fuel execution_id workflow_data s0)
    as [[[resp | err] s] |] eqn:Hbody; [| | done].
  - injection Hrun as <- <- <-.
    apply (run_workflow_outcome rt ctx fuel execution_id workflow_data s0) in Hbody;
      [| reflexivity].
    destruct Hbody as (x & result & (Hid & Hstart & _ & _ & Hinput & Hticks)
                       & Hexec & Hn & ->).
    eexists _, (execution s), (ticks x). rewrite Hexec, Hn.
    cbn [exec_id start_time variables end_time status execution_log
         set_end_time set_status dict_get String.eqb Ascii.eqb Bool.eqb] in *.
    rewrite Hid, Hstart, Hinput. cbn in Hticks.
    split; [reflexivity |]. split; [reflexivity |].
    repeat split; try done; try lia. by left.
  - rewrite fail_workflow_run in Hrun. cbv zeta in Hrun. injection Hrun as <- <- <-.
    apply (run_workflow_outcome rt ctx fuel execution_id workflow_data s0) in Hbody;
      [| reflexivity].
    destruct Hbody as (Hid & Hstart & _ & _ & Hinput & Hticks).
    eexists _, _, (ticks s).
    split; [reflexivity |]. split; [reflexivity |].
    cbn [exec_id start_time variables end_time status execution_log execution
         dict_get String.eqb Ascii.eqb Bool.eqb] in *.
    rewrite Hid, Hstart, Hinput. cbn in Hticks.
    repeat split; try done; try lia.
    right. repeat split; try done. by eexists.
Qed.



(** X2.  Under a clock that does not go back, a run ends no earlier than it
    started, and the duration it reports, when it reports one, is not
    negative. *)
Theorem run_duration_is_not_negative rt self now workflow_data input_data fuel :
  (forall i j, (i <= j)%nat -> clock rt i <= clock rt j) ->
  exists resp self' n record finish,
    execute_workflow rt (S fuel) self now workflow_data input_data
      = Some (Ok resp, self', n) /\
    executions self' !! new_execution_id (clock rt now) = Some record /\
    end_time record = Some finish /\
    start_time record <= finish /\
    (dict_get "duration" resp = None \/
     dict_get "duration" resp = Some (FFloat (finish - start_time record))).
Proof.
  intros Hclock.
  destruct (execute_workflow_comes_back rt self now workflow_data input_data fuel)
    as (resp & self' & n & Hrun).
  destruct (execute_workflow_outcome _ _ _ _ _ _ _ _ _ Hrun)
    as (resp' & record & k & [= <-] & -> & Hid & Hstart & _ & Hk & _ & Hend & _ & _ & Hcase).
  eexists resp, _, n, record, (clock rt k). split; [done |].
  split; [apply lookup_insert_eq |]. split; [done |]. rewrite Hstart.
  split; [apply Hclock; lia |].
  destruct Hcase as [(_ & Hduration & _) | (_ & Hduration & _)]; [by right | by left].
Qed.

Lemma run_duration_is_not_negative_witness :
  exists resp self' n record finish,
    execute_workflow example_runtime 1 (new_engine (example_context "main")) 0
                     diamond (VStr "go") = Some (Ok resp, self', n) /\
    executions self' !! new_execution_id (clock example_runtime 0) = Some record /\
    end_time record = Some finish /\
    start_time record <= finish /\
    (dict_get "duration" resp = None \/
     dict_get "duration" resp = Some (FFloat (finish - start_time record))).
Proof.
  apply (run_duration_is_not_negative example_runtime
           (new_engine (example_context "main")) 0 diamond (VStr "go") 0).
  intros i j Hij. unfold example_runtime, wall_clock, clock. lia.
Defined.




(** ** What the result of a run is made of *)

Lemma vdict_get_set_inv {A} (k k0 : value) (x : A) d :
  is_Some (vdict_get k (vdict_set k0 x d)) ->
  is_Some (vdict_get k d) \/ py_eq k0 k = true.
Proof.
  induction d as [| [k' y] rest IH]; simpl.
  - destruct (py_eq k0 k); [by right | by intros [? [=]]].
  - destruct (py_eq k' k0) eqn:Hk0; simpl.
    + destruct (py_eq k' k); [by left | by left].
    + destruct (py_eq k' k); [by left | done].
Qed.

Section ResultCache.

Variable rt : Runtime.
Variable ctx : AgentContext.
Variable nodes : list WorkflowNode.
Variable connections : list WorkflowConnection.

(** One round of the loop over the start nodes only caches the node of the
    round. *)
Lemma execute_node_caches_start_nodes node_map fuel node :
  In node nodes ->
  is_start_node connections node = true ->
  triple (cache_of_start_nodes nodes connections)
         (execute_node rt ctx node_map connections fuel node)
         (fun _ => cache_of_start_nodes nodes connections)
         (cache_of_start_nodes nodes connections).
Proof.
  intros Hin Hstart s r s' Hs. destruct fuel as [| fuel]; [done |]. simpl.
  rewrite (start_node_no_prerequisites _ _ Hstart). simpl.
  unfold bind at 1. destruct (py_hash (node_id node)); simpl;
    [| by intros [= <- <-]].
  unfold bind at 1. cbn [get_state].
  destruct (set_mem (node_id node) (visited s)) eqn:Hmem; [by intros [= <- <-] |].
  unfold bind at 1. cbn [ret]. unfold bind at 1. cbn [update_execution modify].
  unfold bind at 1.
  match goal with
  | |- context [_execute_single_node rt ctx node [] ?s1] =>
      destruct (_execute_single_node rt ctx node [] s1) as [[[v | e] s2] |] eqn:Hsingle;
      [| | done]
  end; apply calm_single_node in Hsingle; unfold calm in Hsingle; cbn in Hsingle.
  - unfold bind. cbn [mark_visited modify ret]. intros [= <- <-] k.
    cbn [results]. rewrite Hsingle. intros [Hk | Hk]%vdict_get_set_inv.
    + by apply Hs.
    + by exists node.
  - intros [= <- <-] k. rewrite Hsingle. apply Hs.
Qed.

(** A node with an incoming connection shares its id with no start node. *)
Lemma fed_node_is_not_cached s node :
  cache_of_start_nodes nodes connections s ->
  is_start_node connections node = false ->
  vdict_get (node_id node) (results s) = None.
Proof.
  intros Hs Hfed.
  destruct (vdict_get (node_id node) (results s)) as [v |] eqn:Hget; [| done].
  destruct (Hs (node_id node)) as (start & _ & Hstart & Heq); [by eexists |].
  unfold is_start_node in *.
  apply negb_false_iff, existsb_exists in Hfed as (conn & Hconn & Hto).
  apply negb_true_iff in Hstart.
  assert (existsb (fun c => py_eq (to_node c) (node_id start)) connections = true);
    [| congruence].
  apply existsb_exists. exists conn. split; [done |].
  by eapply py_eq_euclidean.
Qed.

(** X6.  When a graph has OUTPUT nodes and its run returns, the result is
    the list of one entry per OUTPUT node in declaration order, and the
    entry of every OUTPUT node that has an incoming connection is [None]:
    only nodes without incoming connection are ever resolved, so the cache
    has no value for the others. *)
Theorem fed_output_nodes_yield_none fuel s v s' :
  _execute_workflow_graph rt ctx fuel nodes connections s = Some (Ok v, s') ->
  output_nodes nodes <> [] ->
  exists entries,
    v = VList entries /\
    length entries = length (output_nodes nodes) /\
    forall i node,
      output_nodes nodes !! i = Some node ->
      is_start_node connections node = false ->
      entries !! i = Some VNone.
Proof.
  intros Hrun Houtputs.
  assert (Htriple :
    triple (fun _ => True) (_execute_workflow_graph rt ctx fuel nodes connections)
      (fun v s' => exists entries,
         v = VList entries /\
         length entries = length (output_nodes nodes) /\
         forall i node,
           output_nodes nodes !! i = Some node ->
           is_start_node connections node = false ->
           entries !! i = Some VNone)
      (fun _ => True)).
  { unfold _execute_workflow_graph.
    eapply (triple_bind _ _ _ (fun _ _ => True));
      [intros ? [] ? _ _; done | intros node_map].
    eapply (triple_bind _ _ _ (fun _ _ => True));
      [intros ? [] ? _ _; done | intros connection_map].
    destruct (List.filter (is_start_node connections) nodes) as [| n0 ns] eqn:Hstart.
    { by intros ? ? ? _ [= <- <-]. }
    rewrite <- Hstart.
    eapply (triple_bind _ _ _ (fun _ => cache_of_start_nodes nodes connections)).
    { intros s0 r0 s0' _ [= <- <-] k. cbn [results vdict_get]. by intros [? [=]]. }
    intros _.
    eapply (triple_bind _ _ _ (fun _ => cache_of_start_nodes nodes connections)).
    { eapply (triple_for_each _ (fun _ => True)), Forall_forall. intros node Hnode.
      apply list_elem_of_In, filter_In in Hnode as [Hin Hnode].
      intros s0 r0 s0' Hs0 Hnode_run.
      pose proof (execute_node_caches_start_nodes node_map fuel node Hin Hnode
                    s0 r0 s0' Hs0 Hnode_run). by destruct r0. }
    intros final_results. fold (output_nodes nodes).
    destruct (output_nodes nodes) as [| o os] eqn:Hout; [done |].
    intros s0 r0 s0' Hs0. unfold bind, get_state, ret. intros [= <- <-].
    eexists. split; [reflexivity |].
    match goal with
    | |- context [?a :: map ?f os] => change (a :: map f os) with (map f (o :: os))
    end.
    split; [by rewrite length_map |].
    intros i node Hi Hfed. rewrite list_lookup_fmap, Hi. cbn.
    by rewrite (fed_node_is_not_cached s0 node Hs0 Hfed). }
  by apply (Htriple s (Ok v) s' I) in Hrun.
Qed.

End ResultCache.

Lemma fed_output_nodes_yield_none_witness :
  exists entries,
    VList [VNone] = VList entries /\
    length entries = length (output_nodes [source_node; sink_node]) /\
    forall i node,
      output_nodes [source_node; sink_node] !! i = Some node ->
      is_start_node [source_to_sink] node = false ->
      entries !! i = Some VNone.
Proof.
  apply (fed_output_nodes_yield_none example_runtime (example_context "main")
           [source_node; sink_node] [source_to_sink] 1
           (start_state example_runtime 0 (VStr "go")) (VList [VNone])
           {| execution :=
                {| exec_id := "exec_1700000000"; status := "running";
                   current_node := Some (VStr "source");
                   variables := [("input", VStr "go")];
                   execution_log :=
                     [{| timestamp := 1700000000002000; level := "info";
                         message := "Executing node source (input)";
                         entry_node := Some (VStr "source"); entry_result := None |};
                      {| timestamp := 1700000000003000; level := "success";
                         message := "Node source completed successfully";
                         entry_node := Some (VStr "source");
                         entry_result := Some "go" |}];
                   start_time := 1700000000001000; end_time := None |};
              ticks := 4; visited := [VStr "source"];
              results := [(VStr "source", VStr "go")] |}).
  - vm_compute. reflexivity.
  - vm_compute. discriminate.
Defined.

(** ** The cycle check *)

Lemma py_eq_live a b : py_eq a b = true -> py_eq a a = true.
Proof.
  destruct a, b; cbn; try done; rewrite ?Z.eqb_eq, ?String.eqb_eq; intros;
    subst; try done; lia.
Qed.

Lemma py_eq_sym a b : py_eq a b = true -> py_eq b a = true.
Proof.
  destruct a, b; cbn; try done; rewrite ?Z.eqb_eq, ?String.eqb_eq; intros;
    subst; try done; lia.
Qed.

Lemma py_eq_trans a b c : py_eq a b = true -> py_eq b c = true -> py_eq a c = true.
Proof.
  intros Hab Hbc. eapply py_eq_euclidean; [exact Hab |]. by apply py_eq_sym.
Qed.

(** Looking a key up after an assignment: the old value, or the assigned one
    under an equal key. *)
Lemma vdict_get_set_cases {A} (a k : value) (x : A) d t :
  vdict_get a (vdict_set k x d) = Some t ->
  vdict_get a d = Some t \/ (t = x /\ py_eq k a = true).
Proof.
  induction d as [| [k' y] rest IH]; simpl.
  - destruct (py_eq k a) eqn:Hka; [| done]. intros [= <-]. by right.
  - destruct (py_eq k' k) eqn:Hk; simpl.
    + destruct (py_eq k' a) eqn:Ha; [| by left].
      intros [= <-]. right. split; [done |].
      apply py_eq_sym in Hk. by eapply py_eq_trans.
    + destruct (py_eq k' a); [by left | done].
Qed.

Lemma triple_any_each {S A} (J : S -> Prop) (C : Prop) (E : S -> Prop)
    (f : A -> ST S bool) (xs : list A) :
  Forall (fun a => triple J (f a) (fun b s => if b then C else J s) E) xs ->
  triple J (any_each f xs) (fun b s => if b then C else J s) E.
Proof.
  induction 1 as [| a rest Ha _ IH]; simpl.
  - by intros s r s' HJ [= <- <-].
  - eapply triple_bind; [exact Ha |]. intros [|].
    + intros s r s' HC [= <- <-]. exact HC.
    + exact IH.
Qed.

Section CycleCheck.

Variable adj_list : list (value * list value).

(** The search answers [True] only on a cycle.  While it runs, whatever is
    on the recursion stack has a chain of edges to the node in hand. *)
Lemma has_cycle_sound fuel :
  forall node stack,
    triple (fun st => live_within (rec_stack st) stack /\
                      forall v, In v stack -> py_eq v v = true ->
                                tc (edge adj_list) v node)
           (has_cycle adj_list fuel node)
           (fun found st => if found then cyclic adj_list
                            else live_within (rec_stack st) stack)
           (fun _ => True).
Proof.
  induction fuel as [| fuel IH]; intros node stack st r st' [Hstack Hchain];
    [by intros [= <- <-] |].
  simpl. unfold bind at 1. destruct (py_hash node); simpl; [| by intros [= <- <-]].
  unfold bind at 1. cbn [get_state].
  destruct (set_mem node (rec_stack st)) eqn:Hon.
  { intros [= <- <-]. unfold set_mem in Hon.
    apply existsb_exists in Hon as (v & Hv & Heq).
    exists v, node. split; [| done].
    apply Hchain; [apply Hstack; [done |] |]; by eapply py_eq_live. }
  destruct (set_mem node (dfs_visited st)) eqn:Hseen; [by intros [= <- <-] |].
  intros Hrun.
  assert (Hloop :
    triple (fun st1 => live_within (rec_stack st1) (node :: stack))
           (any_each (has_cycle adj_list fuel)
                     (default [] (vdict_get node adj_list)))
           (fun found st1 => if found then cyclic adj_list
                             else live_within (rec_stack st1) (node :: stack))
           (fun _ => True)).
  { apply triple_any_each, Forall_forall. intros target Htarget.
    apply list_elem_of_In in Htarget.
    intros st1 r1 st1' Hst1. apply (IH target (node :: stack)). split; [done |].
    assert (Hedge : edge adj_list node target).
    { destruct (vdict_get node adj_list) as [targets |] eqn:Hget; [| done].
      by exists targets. }
    intros v [<- | Hv] Hlive; [by apply tc_once |].
    eapply tc_r; [by apply Hchain | done]. }
  assert (Hpushed : live_within (set_add node (rec_stack st)) (node :: stack)).
  { intros v Hv Hlive. unfold set_add in Hv.
    destruct (set_mem node (rec_stack st)).
    - right. by apply Hstack.
    - apply in_app_or in Hv as [Hv | [<- | []]]; [right; by apply Hstack | by left]. }
  unfold bind at 1 in Hrun. cbn [modify] in Hrun. unfold bind at 1 in Hrun.
  match type of Hrun with
  | context [any_each _ _ ?st1] =>
      destruct (any_each (has_cycle adj_list fuel)
                         (default [] (vdict_get node adj_list)) st1)
        as [[[found | e] st2] |] eqn:Hany; [| | done];
      pose proof (Hloop st1 _ st2 Hpushed Hany) as Hpost; cbv beta iota in Hpost
  end.
  - destruct found; [by injection Hrun as <- <- |].
    unfold bind in Hrun. cbn [modify ret] in Hrun. injection Hrun as <- <-.
    cbn [rec_stack]. intros v Hv Hlive. unfold set_remove in Hv.
    apply filter_In in Hv as [Hv Hne].
    destruct (Hpost v Hv Hlive) as [<- | Hin]; [| done].
    by rewrite Hlive in Hne.
  - by injection Hrun as <- <-.
Qed.

End CycleCheck.

(** The adjacency list after one more node, and after one more
    connection. *)
Lemma build_adj_list_node nodes node :
  build_adj_list (nodes ++ [node]) []
  = match build_adj_list nodes [] with
    | Raise e => Raise e
    | Ok adj =>
        match py_getitem node "id" with
        | Raise e => Raise e
        | Ok i =>
            match py_hash i with
            | Raise e => Raise e
            | Ok _ => Ok (vdict_set i [] adj)
            end
        end
    end.
Proof. unfold build_adj_list. cbn [fold_left]. by rewrite fold_left_app. Qed.

Lemma build_adj_list_connection nodes connections conn :
  build_adj_list nodes (connections ++ [conn])
  = match build_adj_list nodes connections with
    | Raise e => Raise e
    | Ok adj =>
        match py_get conn "from" VNone with
        | Raise e => Raise e
        | Ok f =>
            if negb (py_truthy f) then Ok adj else
            match py_get conn "to" VNone with
            | Raise e => Raise e
            | Ok t =>
                if negb (py_truthy t) then Ok adj else
                match vdict_getitem adj f with
                | Raise e => Raise e
                | Ok targets => Ok (vdict_set f (targets ++ [t])%list adj)
                end
            end
        end
    end.
Proof. unfold build_adj_list. by rewrite fold_left_app. Qed.

(** Before any connection is entered, every target list is empty. *)
Lemma build_adj_list_no_connection nodes adj a targets :
  build_adj_list nodes [] = Ok adj ->
  vdict_get a adj = Some targets -> targets = [].
Proof.
  revert adj a targets. induction nodes as [| node nodes IH] using rev_ind;
    intros adj a targets.
  - by intros [= <-].
  - rewrite build_adj_list_node.
    destruct (build_adj_list nodes []) as [adj0 | e]; [| done].
    destruct (py_getitem node "id") as [i | e]; [| done].
    destruct (py_hash i); [| done]. intros [= <-].
    intros [Hold | [-> _]]%vdict_get_set_cases; [by eapply IH | done].
Qed.

Lemma connects_more connections conn a b :
  connects connections a b -> connects (connections ++ [conn]) a b.
Proof.
  intros (c & src & Hc & Hrest). exists c, src. split; [| done].
  apply in_or_app. by left.
Qed.

(** Every edge of the adjacency list is one of the connections. *)
Lemma edges_are_connections nodes connections adj a b :
  build_adj_list nodes connections = Ok adj ->
  edge adj a b -> connects connections a b.
Proof.
  revert adj a b. induction connections as [| conn connections IH] using rev_ind;
    intros adj a b.
  - intros Hadj (targets & Hget & Hin).
    by rewrite (build_adj_list_no_connection _ _ _ _ Hadj Hget) in Hin.
  - rewrite build_adj_list_connection.
    destruct (build_adj_list nodes connections) as [adj0 | e]; [| done].
    destruct (py_get conn "from" VNone) as [f | e] eqn:Hfrom; [| done].
    destruct (py_truthy f); cbn [negb];
      [| intros [= <-] Hedge; by apply connects_more, (IH adj0)].
    destruct (py_get conn "to" VNone) as [t | e] eqn:Hto; [| done].
    destruct (py_truthy t); cbn [negb];
      [| intros [= <-] Hedge; by apply connects_more, (IH adj0)].
    unfold vdict_getitem. destruct (py_hash f); [| done].
    destruct (vdict_get f adj0) as [old |] eqn:Hold; [| done].
    intros [= <-] (targets & Hget & Hin).
    apply vdict_get_set_cases in Hget as [Hget | [-> Hfa]].
    + apply connects_more, (IH adj0); [done |]. by exists targets.
    + apply in_app_or in Hin as [Hin | [<- | []]].
      * assert (Hfb : connects connections f b) by (apply (IH adj0); [done | by exists old]).
        destruct Hfb as (c & src & Hc & Hsrc & Heq & Htarget).
        exists c, src. split; [apply in_or_app; by left |].
        split; [done |]. split; [by eapply py_eq_trans | done].
      * exists conn, f. split; [apply in_or_app; right; by left | done].
Qed.

Lemma cyclic_among_connections nodes connections adj :
  build_adj_list nodes connections = Ok adj ->
  cyclic adj -> cycle_among connections.
Proof.
  intros Hadj (a & b & Hchain & Heq). exists a, b. split; [| done].
  clear Heq. induction Hchain as [a b Hedge | a m b Hedge _ IH].
  - apply tc_once. by eapply edges_are_connections.
  - eapply tc_l; [| exact IH]. by eapply edges_are_connections.
Qed.

Lemma bind_Raise_inv {S A B} (m : ST S A) (k : A -> ST S B) s e s' :
  bind m k s = Some (Raise e, s') ->
  m s = Some (Raise e, s') \/
  exists a s1, m s = Some (Ok a, s1) /\ k a s1 = Some (Raise e, s').
Proof.
  unfold bind. destruct (m s) as [[[a | e0] s1] |]; [| | done].
  - intros Hk. right. by exists a, s1.
  - intros [= <- <-]. by left.
Qed.

Lemma any_each_Raise_inv {S A} (f : A -> ST S bool) (xs : list A) s e s' :
  any_each f xs s = Some (Raise e, s') ->
  exists x s0, In x xs /\ f x s0 = Some (Raise e, s').
Proof.
  revert s. induction xs as [| x rest IH]; intros s; simpl; [done |].
  intros [Hx | (b & s1 & _ & Hrest)]%bind_Raise_inv.
  - exists x, s. split; [by left | done].
  - destruct b; [done |].
    destruct (IH _ Hrest) as (x' & s0 & Hin & Hx'). exists x', s0.
    split; [by right | done].
Qed.

(** Whatever the search itself raises is a [TypeError] of hashing or the
    [RecursionError] of the interpreter. *)
Lemma has_cycle_raises_type_error adj fuel :
  forall node st e st',
    has_cycle adj fuel node st = Some (Raise e, st') ->
    exn_cls e = TypeError \/ exn_cls e = RecursionError.
Proof.
  induction fuel as [| fuel IH]; intros node st e st'; [intros [= <- _]; by right |].
  simpl.
  intros [Hhash | (_ & s1 & _ & Hrest)]%bind_Raise_inv.
  - left. destruct node; try done; by injection Hhash as <- _.
  - unfold bind at 1 in Hrest. cbn [get_state] in Hrest.
    destruct (set_mem node (rec_stack s1)); [done |].
    destruct (set_mem node (dfs_visited s1)); [done |].
    apply bind_Raise_inv in Hrest as [Hmod | (_ & s2 & _ & Hrest)]; [done |].
    apply bind_Raise_inv in Hrest as [Hany | (found & s3 & _ & Hrest)].
    + apply any_each_Raise_inv in Hany as (x & s0 & _ & Hx). by eapply IH.
    + destruct found; [done |].
      by apply bind_Raise_inv in Hrest as [Hmod | (_ & s4 & _ & Hret)].
Qed.

Lemma build_adj_list_raises nodes connections e :
  build_adj_list nodes connections = Raise e -> exn_cls e <> PyException.
Proof.
  assert (Hgetitem : forall v k e', py_getitem v k = Raise e' -> exn_cls e' <> PyException).
  { intros v k e'. destruct v; simpl; try by intros [= <-].
    destruct (dict_get k kvs); [done | by intros [= <-]]. }
  assert (Hhash : forall v e', py_hash v = Raise e' -> exn_cls e' <> PyException).
  { intros v e'. destruct v; simpl; try done; by intros [= <-]. }
  assert (Hget : forall v k d e', py_get v k d = Raise e' -> exn_cls e' <> PyException).
  { intros v k d e'. destruct v; simpl; try done; by intros [= <-]. }
  assert (Hnodes : forall ns e', build_adj_list ns [] = Raise e' ->
                                 exn_cls e' <> PyException).
  { induction ns as [| node ns IH] using rev_ind; intros e'; [done |].
    rewrite build_adj_list_node.
    destruct (build_adj_list ns []) as [adj0 | e0]; [| intros [= <-]; by apply IH].
    destruct (py_getitem node "id") as [i | e0] eqn:Hi;
      [| intros [= <-]; by eapply Hgetitem].
    destruct (py_hash i) eqn:Hh; [done | intros [= <-]; by eapply Hhash]. }
  revert e. induction connections as [| conn connections IH] using rev_ind; intros e.
  - apply Hnodes.
  - rewrite build_adj_list_connection.
    destruct (build_adj_list nodes connections) as [adj0 | e0];
      [| intros [= <-]; by apply IH].
    destruct (py_get conn "from" VNone) as [f | e0] eqn:Hfrom;
      [| intros [= <-]; by eapply Hget].
    destruct (py_truthy f); cbn [negb]; [| done].
    destruct (py_get conn "to" VNone) as [t | e0] eqn:Hto;
      [| intros [= <-]; by eapply Hget].
    destruct (py_truthy t); cbn [negb]; [| done].
    unfold vdict_getitem. destruct (py_hash f) eqn:Hh;
      [| intros [= <-]; by eapply Hhash].
    destruct (vdict_get f adj0); [done | by intros [= <-]].
Qed.

(** X7.  The cycle check is sound: when it raises its "Circular dependency"
    exception, the wire connections do contain a chain of one or more
    connections that leads from a node back to a node equal to it. *)
Theorem circular_dependency_means_cycle fuel nodes connections st e st' :
  _check_circular_dependencies fuel nodes connections st = Some (Raise e, st') ->
  exn_cls e = PyException ->
  cycle_among connections.
Proof.
  unfold _check_circular_dependencies. unfold bind at 1.
  destruct (build_adj_list nodes connections) as [adj | e0] eqn:Hadj; simpl.
  2: { intros [= <- <-] Hcls. by apply build_adj_list_raises in Hadj. }
  unfold bind at 1. cbn [modify].
  generalize (map fst adj). intros keys.
  assert (Hstack : live_within (rec_stack {| dfs_visited := []; rec_stack := [] |}) [])
    by (by intros v []).
  revert Hstack. generalize {| dfs_visited := []; rec_stack := [] |}.
  induction keys as [| key rest IH]; intros st0 Hstack; simpl; [done |].
  unfold bind at 1. unfold bind at 1. cbn [get_state].
  destruct (set_mem key (dfs_visited st0)); [cbn [ret]; by apply IH |].
  unfold bind at 1.
  destruct (has_cycle adj fuel key st0) as [[[found | e1] st1] |] eqn:Hkey; [| | done].
  - pose proof (has_cycle_sound adj fuel key [] st0 (Ok found) st1) as Hsound.
    cbv beta iota in Hsound.
    destruct found.
    + intros _ _. eapply cyclic_among_connections; [done |].
      apply Hsound; [| done]. split; [done | by intros ? []].
    + cbn [ret]. apply IH. apply Hsound; [| done]. split; [done | by intros ? []].
  - intros [= <- <-] Hcls. apply has_cycle_raises_type_error in Hkey as [Hkey | Hkey];
      congruence.
Qed.

(** ** The cycle search comes to an end *)

Lemma filter_length_le {A} (P Q : A -> bool) (l : list A) :
  (forall a, In a l -> P a = true -> Q a = true) ->
  (length (List.filter P l) <= length (List.filter Q l))%nat.
Proof.
  induction l as [| a l IH]; intros HPQ; simpl; [done |].
  assert (IH' : (length (List.filter P l) <= length (List.filter Q l))%nat).
  { apply IH. intros b Hb. apply HPQ. by right. }
  destruct (P a) eqn:HP.
  - rewrite (HPQ a (or_introl eq_refl) HP). simpl. lia.
  - destruct (Q a); simpl; lia.
Qed.

Lemma filter_length_lt {A} (P Q : A -> bool) (l : list A) k :
  (forall a, In a l -> P a = true -> Q a = true) ->
  In k l -> P k = false -> Q k = true ->
  (length (List.filter P l) < length (List.filter Q l))%nat.
Proof.
  induction l as [| a l IH]; intros HPQ Hk HPk HQk; simpl; [done |].
  assert (Hle : (length (List.filter P l) <= length (List.filter Q l))%nat).
  { apply filter_length_le. intros b Hb. apply HPQ. by right. }
  destruct Hk as [-> | Hk].
  - rewrite HPk, HQk. simpl. lia.
  - assert (Hlt : (length (List.filter P l) < length (List.filter Q l))%nat).
    { apply IH; try done. intros b Hb. apply HPQ. by right. }
    destruct (P a) eqn:HP.
    + rewrite (HPQ a (or_introl eq_refl) HP). simpl. lia.
    + destruct (Q a); simpl; lia.
Qed.

Lemma unvisited_bound adj seen : (unvisited adj seen <= length (universe adj))%nat.
Proof. unfold unvisited. apply List.filter_length_le. Qed.

(** Seeing more leaves less to visit. *)
Lemma unvisited_mono adj seen seen' :
  (forall u, set_mem u seen = true -> set_mem u seen' = true) ->
  (unvisited adj seen' <= unvisited adj seen)%nat.
Proof.
  intros Hmono. apply filter_length_le. intros u _.
  rewrite !negb_true_iff. intros Hu.
  destruct (set_mem u seen) eqn:Hs; [| done]. by rewrite (Hmono u Hs) in Hu.
Qed.

Lemma vdict_get_key {A} (k : value) (d : list (value * A)) x :
  vdict_get k d = Some x -> exists k', In k' (map fst d) /\ py_eq k' k = true.
Proof.
  induction d as [| [k' y] rest IH]; simpl; [done |].
  destruct (py_eq k' k) eqn:Hk.
  - intros _. exists k'. split; [by left | done].
  - intros (k'' & Hin & Heq)%IH. exists k''. split; [by right | done].
Qed.

(** Entering a node that has targets leaves strictly less to visit. *)
Lemma unvisited_enter adj seen node targets :
  vdict_get node adj = Some targets ->
  set_mem node seen = false ->
  (unvisited adj (set_add node seen) < unvisited adj seen)%nat.
Proof.
  intros Hget Hnew. apply vdict_get_key in Hget as (k & Hk & Heq).
  apply (filter_length_lt _ _ _ k).
  - intros u _. rewrite !negb_true_iff. intros Hu.
    destruct (set_mem u seen) eqn:Hs; [| done].
    rewrite set_mem_add in Hu; [done | by left].
  - unfold universe. apply in_or_app. by left.
  - rewrite negb_false_iff. apply set_mem_add. right. by apply py_eq_sym.
  - rewrite negb_true_iff.
    destruct (set_mem k seen) eqn:Hs; [| done].
    unfold set_mem in Hs, Hnew. apply existsb_exists in Hs as (v & Hv & Hvk).
    assert (existsb (fun v' => py_eq v' node) seen = true); [| congruence].
    apply existsb_exists. exists v. split; [done |]. by eapply py_eq_trans.
Qed.

(** ** Computations that agree *)

Lemma bind_lift_Ok {S A B} (a : A) (k : A -> ST S B) s : bind (lift (Ok a)) k s = k a s.
Proof. reflexivity. Qed.

Lemma bind_get_state {S B} (k : S -> ST S B) s : bind get_state k s = k s s.
Proof. reflexivity. Qed.

Lemma bind_modify {S B} (f : S -> S) (k : unit -> ST S B) s :
  bind (modify f) k s = k tt (f s).
Proof. reflexivity. Qed.

Lemma bind_ext {S A B} (m1 m2 : ST S A) (k1 k2 : A -> ST S B) s :
  m1 s = m2 s -> (forall a s', k1 a s' = k2 a s') -> bind m1 k1 s = bind m2 k2 s.
Proof. intros Hm Hk. unfold bind. rewrite Hm. by destruct (m2 s) as [[[a | e] s'] |]. Qed.

Lemma for_each_ext {S A B} (f g : A -> ST S B) (xs : list A) :
  (forall a, In a xs -> forall s, f a s = g a s) ->
  forall s, for_each f xs s = for_each g xs s.
Proof.
  induction xs as [| a rest IH]; intros Hfg s; simpl; [done |].
  apply bind_ext; [apply Hfg; by left |]. intros b s'.
  apply bind_ext; [| done]. apply IH. intros a' Ha'. apply Hfg. by right.
Qed.

(** The same, with the continuations compared only where the first step
    leads. *)
Lemma bind_ext_from {S A B} (m1 m2 : ST S A) (k1 k2 : A -> ST S B) s :
  m1 s = m2 s ->
  (forall a s', m2 s = Some (Ok a, s') -> k1 a s' = k2 a s') ->
  bind m1 k1 s = bind m2 k2 s.
Proof.
  intros Hm Hk. unfold bind. rewrite Hm.
  destruct (m2 s) as [[[a | e] s'] |]; [by apply Hk | done | done].
Qed.

Lemma fold_each_ext {S A B} (f g : B -> A -> ST S B) (xs : list A) :
  (forall b a s, f b a s = g b a s) ->
  forall acc s, fold_each f xs acc s = fold_each g xs acc s.
Proof.
  intros Hfg. induction xs as [| a rest IH]; intros acc s; simpl; [done |].
  apply bind_ext; [apply Hfg | done].
Qed.

Lemma fold_each_Raise_inv {S A B} (f : B -> A -> ST S B) (xs : list A) acc s e s' :
  fold_each f xs acc s = Some (Raise e, s') ->
  exists b a s0, In a xs /\ f b a s0 = Some (Raise e, s').
Proof.
  revert acc s. induction xs as [| x rest IH]; intros acc s; simpl; [done |].
  intros [Hx | (b & s1 & _ & Hrest)]%bind_Raise_inv.
  - exists acc, x, s. split; [by left | done].
  - destruct (IH _ _ Hrest) as (b' & a & s0 & Hin & Ha). exists b', a, s0.
    split; [by right | done].
Qed.

Section SearchReturns.

Variable adj_list : list (value * list value).

(** With more depth than there is left to visit, the search comes back
    without reaching the recursion limit, and it forgets nothing it has
    seen. *)
Lemma has_cycle_returns fuel :
  forall node st,
    (unvisited adj_list (dfs_visited st) < fuel)%nat ->
    exists r st',
      has_cycle adj_list fuel node st = Some (r, st') /\ keeps_seen st st' /\
      forall e, r = Raise e -> exn_cls e = TypeError.
Proof.
  assert (Hsame : forall st, keeps_seen st st) by (by intros st u).
  assert (Hhash : forall v e, py_hash v = Raise e -> exn_cls e = TypeError).
  { intros v e. destruct v; simpl; try done; by intros [= <-]. }
  induction fuel as [| fuel IH]; intros node st Hfuel; [lia |].
  simpl. unfold bind at 1. destruct (py_hash node) eqn:Hnode; simpl.
  2: { eexists _, _. split; [done |]. split; [done |]. intros ? [= <-]. by eapply Hhash. }
  unfold bind at 1. cbn [get_state].
  destruct (set_mem node (rec_stack st)); [eexists _, _; by repeat split |].
  destruct (set_mem node (dfs_visited st)) eqn:Hseen; [eexists _, _; by repeat split |].
  unfold bind at 1. cbn [modify]. unfold bind at 1.
  set (st1 := {| dfs_visited := set_add node (dfs_visited st);
                 rec_stack := set_add node (rec_stack st) |}).
  assert (Hentered : keeps_seen st st1).
  { intros u Hu. apply set_mem_add. by left. }
  assert (Hloop : exists r st2,
    any_each (has_cycle adj_list fuel) (default [] (vdict_get node adj_list)) st1
      = Some (r, st2) /\ keeps_seen st1 st2 /\
    forall e, r = Raise e -> exn_cls e = TypeError).
  { destruct (vdict_get node adj_list) as [targets |] eqn:Hget;
      [| eexists _, _; by repeat split].
    change (default [] (Some targets)) with targets.
    assert (Hless : (unvisited adj_list (dfs_visited st1) < fuel)%nat).
    { pose proof (unvisited_enter _ _ _ _ Hget Hseen). cbn [st1 dfs_visited]. lia. }
    clear Hget. revert Hless. generalize st1 as st0.
    induction targets as [| t ts IHts]; intros st0 Hless; simpl;
      [eexists _, _; by repeat split |].
    unfold bind.
    destruct (IH t st0 Hless) as ([[|] | e] & st0' & -> & Hkept & Hclass);
      [eexists _, _; by repeat split | | eexists _, _; by repeat split].
    destruct (IHts st0') as (r & st2 & -> & Hkept' & Hclass').
    { pose proof (unvisited_mono adj_list _ _ Hkept). lia. }
    eexists _, _. split; [done |]. split; [| done].
    intros u Hu. by apply Hkept', Hkept. }
  destruct Hloop as ([[|] | e] & st2 & -> & Hkept & Hclass).
  - eexists _, _. split; [done |]. split; [| done].
    intros u Hu. by apply Hkept, Hentered.
  - eexists _, _. split; [done |]. split; [| done].
    intros u Hu. cbn. by apply Hkept, Hentered.
  - eexists _, _. split; [done |]. split; [| done].
    intros u Hu. by apply Hkept, Hentered.
Qed.

Lemma has_cycle_S depth node :
  has_cycle adj_list (S depth) node
  = (lift (py_hash node) ;;;
     let* s := get_state in
     if set_mem node (rec_stack s) then ret true
     else if set_mem node (dfs_visited s) then ret false
     else
       modify (fun s => {| dfs_visited := set_add node (dfs_visited s);
                           rec_stack := set_add node (rec_stack s) |}) ;;;
       let* found := any_each (has_cycle adj_list depth)
                              (default [] (vdict_get node adj_list)) in
       if found then ret true
       else
         modify (fun s => {| dfs_visited := dfs_visited s;
                             rec_stack := set_remove node (rec_stack s) |}) ;;;
         ret false).
Proof. reflexivity. Qed.

(** With more depth than there is left to visit, one more level of depth
    changes nothing. *)
Lemma has_cycle_more fuel :
  forall node st,
    (unvisited adj_list (dfs_visited st) < fuel)%nat ->
    has_cycle adj_list (S fuel) node st = has_cycle adj_list fuel node st.
Proof.
  induction fuel as [| fuel IH]; intros node st Hfuel; [lia |].
  rewrite (has_cycle_S (S fuel)), (has_cycle_S fuel).
  destruct (py_hash node) as [[] | e]; [| done].
  rewrite !bind_lift_Ok, !bind_get_state.
  destruct (set_mem node (rec_stack st)); [done |].
  destruct (set_mem node (dfs_visited st)) eqn:Hseen; [done |].
  rewrite !bind_modify. apply bind_ext_from; [| done].
  destruct (vdict_get node adj_list) as [targets |] eqn:Hget; [| done].
  change (default [] (Some targets)) with targets.
  match goal with
  | |- any_each _ _ ?s = _ => set (st1 := s)
  end.
  assert (Hless : (unvisited adj_list (dfs_visited st1) < fuel)%nat).
  { pose proof (unvisited_enter _ _ _ _ Hget Hseen). cbn [st1 dfs_visited]. lia. }
  clear Hget. revert Hless. generalize st1 as st0.
  induction targets as [| t ts IHts]; intros st0 Hless; simpl; [done |].
  apply bind_ext_from; [by apply IH |]. intros b s2 Hhead.
  destruct b; [done |]. apply IHts.
  destruct (has_cycle_returns fuel t st0 Hless) as (r & st' & Hrun & Hkept & _).
  rewrite Hrun in Hhead. injection Hhead as -> ->.
  pose proof (unvisited_mono adj_list _ _ Hkept). lia.
Qed.

Lemma has_cycle_deeper fuel extra node st :
  (unvisited adj_list (dfs_visited st) < fuel)%nat ->
  has_cycle adj_list (fuel + extra) node st = has_cycle adj_list fuel node st.
Proof.
  intros Hfuel. induction extra as [| extra IH]; [by rewrite Nat.add_0_r |].
  rewrite Nat.add_succ_r, has_cycle_more; [done | lia].
Qed.

End SearchReturns.

Lemma universe_length adj : length (universe adj) = (length adj + target_count adj)%nat.
Proof. unfold universe, target_count. by rewrite length_app, length_map. Qed.

Lemma vdict_set_length {A} (k : value) (x : A) d :
  (length (vdict_set k x d) <= S (length d))%nat.
Proof.
  induction d as [| [k' y] rest IH]; simpl; [done |].
  destruct (py_eq k' k); simpl; lia.
Qed.

Lemma vdict_set_clears k adj :
  (target_count (vdict_set k [] adj) <= target_count adj)%nat.
Proof.
  unfold target_count. induction adj as [| [k' y] rest IH]; simpl; [done |].
  destruct (py_eq k' k); simpl; rewrite !length_app; lia.
Qed.

Lemma vdict_set_appends k t adj old :
  vdict_get k adj = Some old ->
  length (vdict_set k (old ++ [t])%list adj) = length adj /\
  target_count (vdict_set k (old ++ [t])%list adj) = S (target_count adj).
Proof.
  unfold target_count. induction adj as [| [k' y] rest IH]; simpl; [done |].
  destruct (py_eq k' k); simpl.
  - intros [= ->]. rewrite !length_app. simpl. split; lia.
  - intros Hold. destruct (IH Hold) as [Hlen Hcount].
    rewrite !length_app, Hlen, Hcount. split; lia.
Qed.

(** The adjacency list is no larger than the payload it is built from. *)
Lemma build_adj_list_size nodes connections adj :
  build_adj_list nodes connections = Ok adj ->
  (length adj <= length nodes)%nat /\ (target_count adj <= length connections)%nat.
Proof.
  revert adj. induction connections as [| conn connections IH] using rev_ind.
  - induction nodes as [| node nodes IHn] using rev_ind; intros adj.
    + by intros [= <-].
    + rewrite build_adj_list_node.
      destruct (build_adj_list nodes []) as [adj0 | e]; [| done].
      destruct (py_getitem node "id") as [i | e]; [| done].
      destruct (py_hash i); [| done]. intros [= <-].
      destruct (IHn adj0 eq_refl) as [Hlen Hcount].
      pose proof (vdict_set_length i [] adj0).
      pose proof (vdict_set_clears i adj0).
      rewrite length_app. simpl in *. split; lia.
  - intros adj. rewrite build_adj_list_connection, length_app. simpl.
    destruct (build_adj_list nodes connections) as [adj0 | e]; [| done].
    destruct (IH adj0 eq_refl) as [Hlen Hcount].
    destruct (py_get conn "from" VNone) as [f | e]; [| done].
    destruct (py_truthy f); cbn [negb]; [| intros [= <-]; split; lia].
    destruct (py_get conn "to" VNone) as [t | e]; [| done].
    destruct (py_truthy t); cbn [negb]; [| intros [= <-]; split; lia].
    unfold vdict_getitem. destruct (py_hash f); [| done].
    destruct (vdict_get f adj0) as [old |] eqn:Hold; [| done].
    intros [= <-]. destruct (vdict_set_appends f t adj0 old Hold) as [-> ->].
    split; lia.
Qed.

(** A step that only reads a value goes on with that value. *)
Lemma total_bind_lift {S A B} (o : outcome A) (k : A -> ST S B) :
  (forall a, o = Ok a -> total (k a)) -> total (bind (lift o) k).
Proof.
  intros Hk. destruct o as [a | e]; intros s.
  - apply (Hk a eq_refl).
  - by eexists _, _.
Qed.

(** With more depth than the payload has nodes and connections, the cycle
    check comes back. *)
Lemma check_circular_comes_back fuel nodes connections :
  (length nodes + length connections < fuel)%nat ->
  total (_check_circular_dependencies fuel nodes connections).
Proof.
  intros Hfuel. unfold _check_circular_dependencies.
  apply total_bind_lift. intros adj Hadj.
  assert (Hsearch : forall key, total (has_cycle adj fuel key)).
  { intros key st. destruct (has_cycle_returns adj fuel key st) as (r & st' & -> & _).
    - pose proof (unvisited_bound adj (dfs_visited st)).
      pose proof (universe_length adj).
      destruct (build_adj_list_size _ _ _ Hadj). lia.
    - by eexists _, _. }
  apply total_bind; [apply total_modify | intros _].
  apply total_fold_each. intros [] key.
  apply total_bind; [apply total_get_state | intros st].
  destruct (set_mem key (dfs_visited st)); [apply total_ret |].
  apply total_bind; [apply Hsearch | intros []; solve_total].
Qed.

(** What building the adjacency list raises. *)
Lemma build_adj_list_raise_class nodes connections e :
  build_adj_list nodes connections = Raise e ->
  exn_cls e = KeyError \/ exn_cls e = TypeError \/ exn_cls e = AttributeError.
Proof.
  assert (Hgetitem : forall v k e', py_getitem v k = Raise e' ->
    exn_cls e' = KeyError \/ exn_cls e' = TypeError \/ exn_cls e' = AttributeError).
  { intros v k e'. destruct v; simpl; try (intros [= <-]; auto).
    destruct (dict_get k kvs); [done | intros [= <-]; auto]. }
  assert (Hhash : forall v e', py_hash v = Raise e' ->
    exn_cls e' = KeyError \/ exn_cls e' = TypeError \/ exn_cls e' = AttributeError).
  { intros v e'. destruct v; simpl; try done; intros [= <-]; auto. }
  assert (Hget : forall v k d e', py_get v k d = Raise e' ->
    exn_cls e' = KeyError \/ exn_cls e' = TypeError \/ exn_cls e' = AttributeError).
  { intros v k d e'. destruct v; simpl; try done; intros [= <-]; auto. }
  assert (Hnodes : forall ns e', build_adj_list ns [] = Raise e' ->
    exn_cls e' = KeyError \/ exn_cls e' = TypeError \/ exn_cls e' = AttributeError).
  { induction ns as [| node ns IH] using rev_ind; intros e'; [done |].
    rewrite build_adj_list_node.
    destruct (build_adj_list ns []) as [adj0 | e0]; [| intros [= <-]; by apply IH].
    destruct (py_getitem node "id") as [i | e0] eqn:Hi;
      [| intros [= <-]; by eapply Hgetitem].
    destruct (py_hash i) eqn:Hh; [done | intros [= <-]; by eapply Hhash]. }
  revert e. induction connections as [| conn connections IH] using rev_ind; intros e.
  - apply Hnodes.
  - rewrite build_adj_list_connection.
    destruct (build_adj_list nodes connections) as [adj0 | e0];
      [| intros [= <-]; by apply IH].
    destruct (py_get conn "from" VNone) as [f | e0] eqn:Hfrom;
      [| intros [= <-]; by eapply Hget].
    destruct (py_truthy f); cbn [negb]; [| done].
    destruct (py_get conn "to" VNone) as [t | e0] eqn:Hto;
      [| intros [= <-]; by eapply Hget].
    destruct (py_truthy t); cbn [negb]; [| done].
    unfold vdict_getitem. destruct (py_hash f) eqn:Hh;
      [| intros [= <-]; by eapply Hhash].
    destruct (vdict_get f adj0); [done | intros [= <-]; auto].
Qed.

Lemma search_bound nodes connections adj st fuel :
  build_adj_list nodes connections = Ok adj ->
  (length nodes + length connections < fuel)%nat ->
  (unvisited adj (dfs_visited st) < fuel)%nat.
Proof.
  intros Hadj Hfuel.
  pose proof (unvisited_bound adj (dfs_visited st)).
  pose proof (universe_length adj).
  destruct (build_adj_list_size _ _ _ Hadj). lia.
Qed.

(** With more depth than the payload has nodes and connections, more depth
    changes nothing in the cycle check. *)
Lemma check_circular_deeper fuel extra nodes connections st :
  (length nodes + length connections < fuel)%nat ->
  _check_circular_dependencies (fuel + extra) nodes connections st
  = _check_circular_dependencies fuel nodes connections st.
Proof.
  intros Hfuel. unfold _check_circular_dependencies.
  destruct (build_adj_list nodes connections) as [adj | e] eqn:Hadj; [| done].
  rewrite !bind_lift_Ok. apply bind_ext; [done |]. intros _ s1.
  apply fold_each_ext. intros [] key s2. rewrite !bind_get_state.
  destruct (set_mem key (dfs_visited s2)); [done |].
  apply bind_ext; [| done]. apply has_cycle_deeper. by eapply search_bound.
Qed.

(** With that much depth, the cycle check does not reach the recursion
    limit. *)
Lemma check_circular_shallow fuel nodes connections st e st' :
  (length nodes + length connections < fuel)%nat ->
  _check_circular_dependencies fuel nodes connections st = Some (Raise e, st') ->
  exn_cls e <> RecursionError.
Proof.
  intros Hfuel. unfold _check_circular_dependencies.
  destruct (build_adj_list nodes connections) as [adj | e0] eqn:Hadj.
  2: { intros [= <- _]. apply build_adj_list_raise_class in Hadj.
       destruct Hadj as [-> | [-> | ->]]; done. }
  rewrite bind_lift_Ok, bind_modify.
  intros (b & key & s0 & _ & Hkey)%fold_each_Raise_inv.
  rewrite bind_get_state in Hkey.
  destruct (set_mem key (dfs_visited s0)); [done |].
  apply bind_Raise_inv in Hkey as [Hsearch | (found & s1 & _ & Hfound)].
  - destruct (has_cycle_returns adj fuel key s0) as (r & s1 & Hrun & _ & Hclass);
      [by eapply search_bound |].
    rewrite Hrun in Hsearch. injection Hsearch as -> _.
    by rewrite (Hclass e eq_refl).
  - destruct found; [by injection Hfound as <- _ | done].
Qed.

Lemma validate_body_deeper wd extra f :
  validate_body (validation_fuel wd + extra) wd f = validate_body (validation_fuel wd) wd f.
Proof.
  unfold validate_body, validation_fuel, payload_items.
  destruct (py_get wd "nodes" (VList [])) as [raw_nodes | e]; [| done].
  destruct (py_get wd "connections" (VList [])) as [raw_connections | e]; [| done].
  rewrite !bind_lift_Ok.
  destruct (py_iter raw_nodes) as [nodes | e]; [| done].
  rewrite !bind_lift_Ok. apply bind_ext; [done |]. intros _ s1.
  destruct (py_iter raw_connections) as [connections | e]; [| done].
  rewrite !bind_lift_Ok. apply bind_ext; [done |]. intros _ s2.
  apply bind_ext; [done |]. intros ids s3.
  apply bind_ext; [done |]. intros connected s4.
  apply bind_ext; [done |]. intros _ s5.
  apply bind_ext; [| done].
  unfold guarded_cycle_check. rewrite check_circular_deeper; [done | lia].
Qed.

(** X8.  The cycle search never needs more recursion depth than the payload
    has nodes and connections: under any limit that leaves it one level more
    than that, the cycle check raises no [RecursionError], and
    [validate_workflow] gives the outcome it gives under every larger
    limit. *)
Theorem cycle_search_depth_is_bounded wd limit :
  (validation_fuel wd <= limit)%nat ->
  validate_workflow limit wd = validate_workflow (validation_fuel wd) wd /\
  forall st e st',
    _check_circular_dependencies limit (payload_items wd "nodes")
                                 (payload_items wd "connections") st
      = Some (Raise e, st') ->
    exn_cls e <> RecursionError.
Proof.
  intros Hlimit. split.
  - replace limit with (validation_fuel wd + (limit - validation_fuel wd))%nat by lia.
    unfold validate_workflow. by rewrite validate_body_deeper.
  - intros st e st'. apply check_circular_shallow. unfold validation_fuel in Hlimit. lia.
Qed.

Lemma cycle_search_depth_is_bounded_witness :
  validate_workflow 50 pure_cycle = validate_workflow (validation_fuel pure_cycle) pure_cycle /\
  forall st e st',
    _check_circular_dependencies 50 (payload_items pure_cycle "nodes")
                                 (payload_items pure_cycle "connections") st
      = Some (Raise e, st') ->
    exn_cls e <> RecursionError.
Proof.
  apply (cycle_search_depth_is_bounded pure_cycle 50). vm_compute. lia.
Defined.

Lemma circular_dependency_means_cycle_witness :
  cycle_among (payload_items pure_cycle "connections").
Proof.
  eapply (circular_dependency_means_cycle 4 (payload_items pure_cycle "nodes") _
            {| dfs_visited := []; rec_stack := [] |}).
  - vm_compute. reflexivity.
  - reflexivity.
Defined.

(** ** What the validator reports *)

#[local] Instance grows_reflexive : Reflexive grows.
Proof. intros f. split; exists []; by rewrite app_nil_r. Qed.

#[local] Instance grows_transitive : Transitive grows.
Proof.
  intros f1 f2 f3 [[e1 He1] [w1 Hw1]] [[e2 He2] [w2 Hw2]].
  split; [exists (e1 ++ e2)%list | exists (w1 ++ w2)%list];
    rewrite app_assoc; congruence.
Qed.

Lemma grows_add_error msg : keeps grows (add_error msg).
Proof.
  apply keeps_modify. intros f. split; cbn; [by exists [msg] | exists []].
  by rewrite app_nil_r.
Qed.

Lemma grows_add_warning msg : keeps grows (add_warning msg).
Proof.
  apply keeps_modify. intros f. split; cbn; [exists [] | by exists [msg]].
  by rewrite app_nil_r.
Qed.

Ltac grows_leaf :=
  first [ assumption | apply grows_add_error | apply grows_add_warning ].

Lemma grows_check_endpoints ids connected conn :
  keeps grows (check_endpoints ids connected conn).
Proof. unfold check_endpoints. keeps_with grows grows_leaf. Qed.

Lemma grows_check_orphan n connected node : keeps grows (check_orphan n connected node).
Proof. unfold check_orphan. keeps_with grows grows_leaf. Qed.

Lemma grows_guarded_cycle_check fuel nodes connections :
  keeps grows (guarded_cycle_check fuel nodes connections).
Proof.
  intros f r f'. unfold guarded_cycle_check.
  destruct (_check_circular_dependencies _ _ _ _) as [[[[] | e] st] |]; [| | done].
  - intros [= _ <-]. reflexivity.
  - apply grows_add_error.
Qed.

Lemma grows_errors f f' msg : grows f f' -> In msg (errors f) -> In msg (errors f').
Proof. intros [[more ->] _] Hin. apply in_or_app. by left. Qed.

Lemma grows_warnings f f' msg : grows f f' -> In msg (warnings f) -> In msg (warnings f').
Proof. intros [_ [more ->]] Hin. apply in_or_app. by left. Qed.

Lemma set_mem_add_inv v k s :
  set_mem v (set_add k s) = true -> set_mem v s = true \/ py_eq k v = true.
Proof.
  unfold set_add. destruct (set_mem k s); [by left |].
  unfold set_mem. rewrite existsb_app. cbn. rewrite orb_false_r.
  intros [-> | ->]%orb_true_iff; [by left | by right].
Qed.

(** Inversion of a sequence that began by reading a value. *)
Lemma bind_lift_Ok_inv {S A B} (o : outcome A) (k : A -> ST S B) s b s' :
  bind (lift o) k s = Some (Ok b, s') -> exists a, o = Ok a /\ k a s = Some (Ok b, s').
Proof. destruct o as [a | e]; [by exists a | done]. Qed.

Lemma py_getitem_get obj key v dflt :
  py_getitem obj key = Ok v -> py_get obj key dflt = Ok v.
Proof.
  destruct obj; try done. simpl. by destruct (dict_get key _); [intros [= ->] |].
Qed.

(** What a loop reached at one of its items still holds when it is over. *)
Lemma for_each_reaches {S A B} (R : S -> S -> Prop) `{!Reflexive R, !Transitive R}
    (P : S -> Prop) (f : A -> ST S B) (xs : list A) (a : A) :
  (forall x, keeps R (f x)) ->
  (forall s s', R s s' -> P s -> P s') ->
  In a xs ->
  (forall s b s', f a s = Some (Ok b, s') -> P s') ->
  forall s bs s', for_each f xs s = Some (Ok bs, s') -> P s'.
Proof.
  intros Hkeeps Hstable Hin Hat.
  induction xs as [| x rest IH]; [done |]. intros s bs s' Hrun. simpl in Hrun.
  apply bind_Ok_inv in Hrun as (b & s1 & Hx & Hrun).
  apply bind_Ok_inv in Hrun as (bs' & s2 & Hrest & Hrun).
  injection Hrun as <- <-.
  destruct Hin as [-> | Hin]; [| by eapply IH].
  eapply Hstable; [| by eapply Hat].
  eapply (keeps_for_each R); [| done]. by apply Forall_forall.
Qed.

Lemma fold_each_reaches {S A B} (R : S -> S -> Prop) `{!Reflexive R, !Transitive R}
    (P : S -> Prop) (f : B -> A -> ST S B) (xs : list A) (a : A) :
  (forall acc x, keeps R (f acc x)) ->
  (forall s s', R s s' -> P s -> P s') ->
  In a xs ->
  (forall acc s b s', f acc a s = Some (Ok b, s') -> P s') ->
  forall acc s b s', fold_each f xs acc s = Some (Ok b, s') -> P s'.
Proof.
  intros Hkeeps Hstable Hin Hat.
  induction xs as [| x rest IH]; [done |]. intros acc s b s' Hrun. simpl in Hrun.
  apply bind_Ok_inv in Hrun as (acc' & s1 & Hx & Hrun).
  destruct Hin as [-> | Hin]; [| by eapply IH].
  eapply Hstable; [| by eapply Hat].
  by eapply (keeps_fold_each R).
Qed.

(** The set of node ids holds ids of nodes only, and building it reports
    nothing. *)
Lemma collect_node_ids_sound nodes f ids f' :
  collect_node_ids nodes f = Some (Ok ids, f') ->
  f' = f /\
  forall v, set_mem v ids = true ->
    exists node i, In node nodes /\ py_getitem node "id" = Ok i /\ py_eq i v = true.
Proof.
  unfold collect_node_ids.
  enough (Hgen : forall acc,
    fold_each (fun acc node =>
      let* i := lift (py_getitem node "id") in lift (py_hash i) ;;; ret (set_add i acc))
      nodes acc f = Some (Ok ids, f') ->
    f' = f /\
    forall v, set_mem v ids = true ->
      set_mem v acc = true \/
      exists node i, In node nodes /\ py_getitem node "id" = Ok i /\ py_eq i v = true).
  { intros Hrun. destruct (Hgen [] Hrun) as [-> Hids]. split; [done |].
    intros v Hv. by destruct (Hids v Hv). }
  induction nodes as [| node nodes IH]; intros acc; simpl.
  - intros [= <- <-]. split; [done |]. intros v Hv. by left.
  - intros Hrun. apply bind_Ok_inv in Hrun as (acc' & f1 & Hstep & Hrun).
    apply bind_lift_Ok_inv in Hstep as (i & Hi & Hstep).
    apply bind_lift_Ok_inv in Hstep as ([] & _ & Hstep). injection Hstep as <- <-.
    destruct (IH _ Hrun) as [-> Hids]. split; [done |].
    intros v Hv. destruct (Hids v Hv) as [Hacc | (n & j & Hn & Hj & Hjv)].
    + apply set_mem_add_inv in Hacc as [Hacc | Hiv]; [by left |].
      right. exists node, i. split; [by left | done].
    + right. exists n, j. split; [by right | done].
Qed.

Lemma unknown_id_not_collected nodes f ids f' v :
  collect_node_ids nodes f = Some (Ok ids, f') ->
  unknown_id nodes v -> set_mem v ids = false.
Proof.
  intros Hids Hunknown. destruct (set_mem v ids) eqn:Hmem; [| done].
  destruct (collect_node_ids_sound _ _ _ _ Hids) as [_ Hsound].
  destruct (Hsound v Hmem) as (node & i & Hin & Hi & Hiv).
  by rewrite (Hunknown node i Hin Hi) in Hiv.
Qed.

(** One round of the loop over the connections. *)
Lemma check_endpoints_reports ids connected conn f c f' :
  check_endpoints ids connected conn f = Some (Ok c, f') ->
  (forall v, py_get conn "from" VNone = Ok v -> set_mem v ids = false ->
     In ("Connection references non-existent source node: " +:+ py_str v) (errors f')) /\
  (forall v, py_get conn "to" VNone = Ok v -> set_mem v ids = false ->
     In ("Connection references non-existent target node: " +:+ py_str v) (errors f')) /\
  (forall i, set_mem i c = true ->
     set_mem i connected = true \/
     exists w, (py_get conn "from" VNone = Ok w \/ py_get conn "to" VNone = Ok w) /\
               py_eq w i = true).
Proof.
  unfold check_endpoints. intros Hrun.
  apply bind_lift_Ok_inv in Hrun as (x & Hx & Hrun).
  apply bind_lift_Ok_inv in Hrun as ([] & _ & Hrun).
  apply bind_Ok_inv in Hrun as ([] & fa & Ha & Hrun).
  apply bind_lift_Ok_inv in Hrun as (t & Ht & Hrun).
  apply bind_lift_Ok_inv in Hrun as ([] & _ & Hrun).
  apply bind_Ok_inv in Hrun as ([] & fb & Hb & Hrun).
  injection Hrun as <- <-. split; [| split].
  - intros v Hv Hmem. rewrite Hx in Hv. injection Hv as ->. rewrite Hmem in Ha.
    injection Ha as <-.
    match type of Hb with
    | _ ?fa = _ => assert (Hgrows : grows fa fb)
    end.
    { revert Hb. destruct (set_mem t ids); [apply (keeps_ret grows) | apply grows_add_error]. }
    eapply grows_errors; [done |]. cbn. apply in_or_app. right. by left.
  - intros v Hv Hmem. rewrite Ht in Hv. injection Hv as ->. rewrite Hmem in Hb.
    injection Hb as <-. cbn. apply in_or_app. right. by left.
  - intros i Hi.
    apply set_mem_add_inv in Hi as [Hi | Hti]; [| right; exists t; by split; [right |]].
    apply set_mem_add_inv in Hi as [Hi | Hxi]; [by left |].
    right. exists x. by split; [left |].
Qed.

(** The set of connected ids holds endpoints of connections only. *)
Lemma connected_nodes_sound ids connections :
  forall acc f c f',
    fold_each (check_endpoints ids) connections acc f = Some (Ok c, f') ->
    forall i, set_mem i c = true ->
      set_mem i acc = true \/
      exists conn w, In conn connections /\
        (py_get conn "from" VNone = Ok w \/ py_get conn "to" VNone = Ok w) /\
        py_eq w i = true.
Proof.
  induction connections as [| conn rest IH]; intros acc f c f'; simpl.
  - intros [= <- <-] i Hi. by left.
  - intros Hrun. apply bind_Ok_inv in Hrun as (acc' & f1 & Hstep & Hrun).
    intros i Hi. destruct (IH _ _ _ _ Hrun i Hi) as [Hacc | (cn & w & Hin & Hw & Hwi)].
    + destruct (check_endpoints_reports _ _ _ _ _ _ Hstep) as (_ & _ & Hset).
      destruct (Hset i Hacc) as [? | (w & Hw & Hwi)]; [by left |].
      right. exists conn, w. split; [by left | done].
    + right. exists cn, w. split; [by right | done].
Qed.

Lemma unwired_not_connected ids connections f c f' i :
  fold_each (check_endpoints ids) connections [] f = Some (Ok c, f') ->
  unwired connections i -> set_mem i c = false.
Proof.
  intros Hrun Hunwired. destruct (set_mem i c) eqn:Hmem; [| done].
  destruct (connected_nodes_sound _ _ _ _ _ _ Hrun i Hmem)
    as [? | (conn & w & Hin & Hw & Hwi)]; [done |].
  by rewrite (Hunwired conn w Hin Hw) in Hwi.
Qed.

Lemma check_orphan_warns n connected node f u f' i :
  check_orphan n connected node f = Some (Ok u, f') ->
  py_getitem node "id" = Ok i -> set_mem i connected = false -> (1 < n)%nat ->
  In ("Node '" +:+ py_str i +:+ "' is not connected to the workflow") (warnings f').
Proof.
  unfold check_orphan. intros Hrun Hi Hmem Hn.
  apply bind_lift_Ok_inv in Hrun as (j & Hj & Hrun).
  rewrite Hi in Hj. injection Hj as <-.
  apply bind_lift_Ok_inv in Hrun as ([] & _ & Hrun).
  rewrite Hmem in Hrun. apply Nat.ltb_lt in Hn. rewrite Hn in Hrun. cbn [negb andb] in Hrun.
  apply bind_lift_Ok_inv in Hrun as (shown & Hshown & Hrun).
  rewrite (py_getitem_get _ _ _ _ Hi) in Hshown. injection Hshown as <-.
  injection Hrun as _ <-. cbn. apply in_or_app. right. by left.
Qed.

#[local] Instance same_warnings_reflexive : Reflexive same_warnings.
Proof. by intros f. Qed.

#[local] Instance same_warnings_transitive : Transitive same_warnings.
Proof. unfold same_warnings. intros f1 f2 f3. congruence. Qed.

Lemma same_warnings_add_error msg : keeps same_warnings (add_error msg).
Proof. by apply keeps_modify. Qed.

Ltac same_warnings_leaf := first [ assumption | apply same_warnings_add_error ].

Lemma same_warnings_check_node_fields node : keeps same_warnings (check_node_fields node).
Proof. unfold check_node_fields. keeps_with same_warnings same_warnings_leaf. Qed.

Lemma same_warnings_check_connection_fields conn :
  keeps same_warnings (check_connection_fields conn).
Proof.
  unfold check_connection_fields.
  apply (keeps_bind same_warnings); [| intros; apply (keeps_ret same_warnings)].
  apply (keeps_for_each same_warnings), Forall_forall. intros field _.
  keeps_with same_warnings same_warnings_leaf.
Qed.

Lemma same_warnings_check_endpoints ids connected conn :
  keeps same_warnings (check_endpoints ids connected conn).
Proof. unfold check_endpoints. keeps_with same_warnings same_warnings_leaf. Qed.

Lemma same_warnings_guarded_cycle_check fuel nodes connections :
  keeps same_warnings (guarded_cycle_check fuel nodes connections).
Proof.
  intros f r f'. unfold guarded_cycle_check.
  destruct (_check_circular_dependencies _ _ _ _) as [[[[] | e] st] |]; [| | done].
  - by intros [= _ <-].
  - apply same_warnings_add_error.
Qed.

(** What a validation that returned has gone through. *)
Lemma validate_body_inv fuel wd f r f' :
  validate_body fuel wd f = Some (Ok r, f') ->
  exists ids connected us f1 f2 f3,
    collect_node_ids (payload_items wd "nodes") f1 = Some (Ok ids, f1) /\
    fold_each (check_endpoints ids) (payload_items wd "connections") [] f1
      = Some (Ok connected, f2) /\
    for_each (check_orphan (length (payload_items wd "nodes")) connected)
      (payload_items wd "nodes") f2 = Some (Ok us, f3) /\
    grows f3 f' /\
    warnings f2 = warnings f /\
    warnings f' = warnings f3 /\
    r = {| valid := bool_decide (length (errors f') = 0%nat);
           v_errors := errors f';
           v_warnings := warnings f';
           node_count := length (payload_items wd "nodes");
           connection_count := length (payload_items wd "connections") |}.
Proof.
  unfold validate_body. intros Hrun.
  apply bind_lift_Ok_inv in Hrun as (raw_nodes & Hraw_nodes & Hrun).
  apply bind_lift_Ok_inv in Hrun as (raw_connections & Hraw_connections & Hrun).
  apply bind_lift_Ok_inv in Hrun as (nodes & Hnodes & Hrun).
  apply bind_Ok_inv in Hrun as (? & f0 & Hnode_fields & Hrun).
  apply bind_lift_Ok_inv in Hrun as (connections & Hconnections & Hrun).
  apply bind_Ok_inv in Hrun as (? & f1 & Hconnection_fields & Hrun).
  apply bind_Ok_inv in Hrun as (ids & f1' & Hids & Hrun).
  apply bind_Ok_inv in Hrun as (connected & f2 & Hconnected & Hrun).
  apply bind_Ok_inv in Hrun as (us & f3 & Horphans & Hrun).
  apply bind_Ok_inv in Hrun as ([] & f4 & Hguard & Hrun).
  injection Hrun as <- <-.
  destruct (collect_node_ids_sound _ _ _ _ Hids) as [-> _].
  unfold payload_items. rewrite Hraw_nodes, Hnodes, Hraw_connections, Hconnections.
  exists ids, connected, us, f1, f2, f3. repeat split; try done.
  1, 2: by destruct (grows_guarded_cycle_check _ _ _ _ _ _ Hguard).
  - apply (keeps_for_each same_warnings) in Hnode_fields;
      [| apply Forall_forall; intros; apply same_warnings_check_node_fields].
    apply (keeps_for_each same_warnings) in Hconnection_fields;
      [| apply Forall_forall; intros; apply same_warnings_check_connection_fields].
    apply (keeps_fold_each same_warnings) in Hconnected;
      [| intros; apply same_warnings_check_endpoints].
    unfold same_warnings in *. congruence.
  - by apply same_warnings_guarded_cycle_check in Hguard.
Qed.

Lemma validate_workflow_inv fuel wd r :
  validate_workflow fuel wd = Some (Ok r) ->
  exists f', validate_body fuel wd {| errors := []; warnings := [] |} = Some (Ok r, f').
Proof.
  unfold validate_workflow.
  destruct (validate_body _ _ _) as [[r' f'] |]; [| done]. intros [= ->]. by exists f'.
Qed.

Lemma reported_is_invalid msg (errs : list string) :
  In msg errs -> bool_decide (length errs = 0%nat) = false.
Proof. intros Hin. apply bool_decide_eq_false. by destruct errs. Qed.

(** X9.  A connection whose source or target is the id of no node makes the
    report invalid: whenever [validate_workflow] returns its report, every
    connection with an unknown source is named in the errors as a
    non-existent source node, every one with an unknown target as a
    non-existent target node, and [valid] is false. *)
Theorem dangling_endpoints_are_errors fuel wd r conn :
  validate_workflow fuel wd = Some (Ok r) ->
  In conn (payload_items wd "connections") ->
  (forall v, py_get conn "from" VNone = Ok v ->
     unknown_id (payload_items wd "nodes") v ->
     In ("Connection references non-existent source node: " +:+ py_str v) (v_errors r) /\
     valid r = false) /\
  (forall v, py_get conn "to" VNone = Ok v ->
     unknown_id (payload_items wd "nodes") v ->
     In ("Connection references non-existent target node: " +:+ py_str v) (v_errors r) /\
     valid r = false).
Proof.
  intros [f' Hrun]%validate_workflow_inv Hconn.
  apply validate_body_inv in Hrun
    as (ids & connected & us & f1 & f2 & f3 & Hids & Hwired & Horphans & Hgrows & _ & _ & ->).
  cbn [v_errors valid].
  assert (Hlater : grows f2 f').
  { etransitivity; [| done].
    eapply (keeps_for_each grows); [| done].
    apply Forall_forall. intros. apply grows_check_orphan. }
  split; intros v Hv Hunknown.
  all: pose proof (unknown_id_not_collected _ _ _ _ _ Hids Hunknown) as Hmem.
  all: match goal with |- In ?msg _ /\ _ => assert (Hmsg : In msg (errors f')) end.
  1, 3: eapply grows_errors; [done |];
    eapply (fold_each_reaches grows (fun f => In _ (errors f)));
      [ intros; apply grows_check_endpoints
      | intros ? ? ? ?; by eapply grows_errors
      | exact Hconn
      | intros acc s b s' Hstep;
        destruct (check_endpoints_reports _ _ _ _ _ _ Hstep) as (Hsrc & Hdst & _);
        first [ by apply Hsrc | by apply Hdst ]
      | done ].
  all: split; [done | by eapply reported_is_invalid].
Qed.

Lemma dangling_endpoints_are_errors_witness :
  exists r,
    validate_workflow 3 dangling_wire = Some (Ok r) /\
    In "Connection references non-existent target node: X" (v_errors r) /\
    valid r = false.
Proof.
  eexists. split; [vm_compute; reflexivity |].
  refine (proj2 (dangling_endpoints_are_errors 3 dangling_wire _
                   (wire_connection "ax" "A" "X" 0) _ _) (VStr "X") _ _).
  - vm_compute. reflexivity.
  - vm_compute. by left.
  - reflexivity.
  - intros node i [<- | []] [= <-]. reflexivity.
Defined.

Lemma set_mem_eq w i c : set_mem w c = true -> py_eq w i = true -> set_mem i c = true.
Proof.
  unfold set_mem. intros (x & Hx & Hxw)%existsb_exists Hwi.
  apply existsb_exists. exists x. split; [done |]. by eapply py_eq_trans.
Qed.

Lemma check_endpoints_adds ids connected conn f c f' :
  check_endpoints ids connected conn f = Some (Ok c, f') ->
  (forall i, set_mem i connected = true -> set_mem i c = true) /\
  (forall w, py_get conn "from" VNone = Ok w \/ py_get conn "to" VNone = Ok w ->
     py_eq w w = true -> set_mem w c = true).
Proof.
  unfold check_endpoints. intros Hrun.
  apply bind_lift_Ok_inv in Hrun as (x & Hx & Hrun).
  apply bind_lift_Ok_inv in Hrun as ([] & _ & Hrun).
  apply bind_Ok_inv in Hrun as ([] & fa & Ha & Hrun).
  apply bind_lift_Ok_inv in Hrun as (t & Ht & Hrun).
  apply bind_lift_Ok_inv in Hrun as ([] & _ & Hrun).
  apply bind_Ok_inv in Hrun as ([] & fb & Hb & Hrun).
  injection Hrun as <- <-. split.
  - intros i Hi. apply set_mem_add. left. apply set_mem_add. by left.
  - intros w [Hw | Hw] Hlive.
    + rewrite Hx in Hw. injection Hw as ->.
      apply set_mem_add. left. apply set_mem_add. by right.
    + rewrite Ht in Hw. injection Hw as ->. apply set_mem_add. by right.
Qed.

(** Every endpoint of a connection is in the set of connected ids. *)
Lemma connected_nodes_complete ids connections :
  forall acc f c f',
    fold_each (check_endpoints ids) connections acc f = Some (Ok c, f') ->
    (forall i, set_mem i acc = true -> set_mem i c = true) /\
    (forall conn w, In conn connections ->
       py_get conn "from" VNone = Ok w \/ py_get conn "to" VNone = Ok w ->
       py_eq w w = true -> set_mem w c = true).
Proof.
  induction connections as [| conn rest IH]; intros acc f c f'; simpl.
  - intros [= <- <-]. by split.
  - intros Hrun. apply bind_Ok_inv in Hrun as (acc' & f1 & Hstep & Hrun).
    destruct (IH _ _ _ _ Hrun) as [Hkept Hrest].
    destruct (check_endpoints_adds _ _ _ _ _ _ Hstep) as [Hkept1 Hhere].
    split; [by auto |].
    intros cn w [<- | Hin] Hw Hlive; [by auto | by eauto].
Qed.

Lemma not_connected_unwired ids connections f c f' i :
  fold_each (check_endpoints ids) connections [] f = Some (Ok c, f') ->
  set_mem i c = false -> unwired connections i.
Proof.
  intros Hrun Hmem conn w Hin Hw. destruct (py_eq w i) eqn:Hwi; [| done].
  destruct (connected_nodes_complete _ _ _ _ _ _ Hrun) as [_ Hall].
  rewrite (set_mem_eq w i c) in Hmem; [done | | done].
  eapply Hall; [done | done |]. by eapply py_eq_live.
Qed.

Lemma check_orphan_warning_inv n connected node f u f' msg :
  check_orphan n connected node f = Some (Ok u, f') ->
  In msg (warnings f') ->
  In msg (warnings f) \/
  ((1 < n)%nat /\
   exists i, py_getitem node "id" = Ok i /\ set_mem i connected = false /\
             msg = "Node '" +:+ py_str i +:+ "' is not connected to the workflow").
Proof.
  unfold check_orphan. intros Hrun.
  apply bind_lift_Ok_inv in Hrun as (i & Hi & Hrun).
  apply bind_lift_Ok_inv in Hrun as ([] & _ & Hrun).
  destruct (set_mem i connected) eqn:Hmem; cbn [negb andb] in Hrun;
    [injection Hrun as _ <-; by left |].
  destruct (1 <? n)%nat eqn:Hn; [| injection Hrun as _ <-; by left].
  apply bind_lift_Ok_inv in Hrun as (shown & Hshown & Hrun).
  rewrite (py_getitem_get _ _ _ _ Hi) in Hshown. injection Hshown as <-.
  injection Hrun as _ <-. cbn. intros [Hold | [<- | []]]%in_app_or; [by left |].
  right. apply Nat.ltb_lt in Hn. split; [done |]. by exists i.
Qed.

Lemma orphan_warnings_inv n connected nodes :
  forall f us f' msg,
    for_each (check_orphan n connected) nodes f = Some (Ok us, f') ->
    In msg (warnings f') ->
    In msg (warnings f) \/
    ((1 < n)%nat /\
     exists node i, In node nodes /\ py_getitem node "id" = Ok i /\
       set_mem i connected = false /\
       msg = "Node '" +:+ py_str i +:+ "' is not connected to the workflow").
Proof.
  induction nodes as [| node rest IH]; intros f us f' msg; simpl.
  - intros [= _ <-]. by left.
  - intros Hrun Hmsg.
    apply bind_Ok_inv in Hrun as (u & f1 & Hstep & Hrun).
    apply bind_Ok_inv in Hrun as (us' & f2 & Hrest & Hrun).
    injection Hrun as _ <-.
    destruct (IH _ _ _ _ Hrest Hmsg) as [Hold | (Hn & nd & i & Hin & Hi & Hmem & ->)].
    + destruct (check_orphan_warning_inv _ _ _ _ _ _ _ Hstep Hold)
        as [? | (Hn & i & Hi & Hmem & ->)]; [by left |].
      right. split; [done |]. exists node, i. by split; [left |].
    + right. split; [done |]. exists nd, i. by split; [right |].
Qed.

(** X10.  The warnings of a report are exactly the unconnected nodes of a
    workflow of two or more nodes: whenever [validate_workflow] returns its
    report, a message is among the warnings if and only if the payload has
    more than one node and the message names a node whose id is neither
    the source nor the target of any connection. *)
Theorem warnings_are_the_unconnected_nodes fuel wd r msg :
  validate_workflow fuel wd = Some (Ok r) ->
  In msg (v_warnings r) <->
  (1 < length (payload_items wd "nodes"))%nat /\
  exists node i,
    In node (payload_items wd "nodes") /\
    py_getitem node "id" = Ok i /\
    unwired (payload_items wd "connections") i /\
    msg = "Node '" +:+ py_str i +:+ "' is not connected to the workflow".
Proof.
  intros [f' Hrun]%validate_workflow_inv.
  apply validate_body_inv in Hrun
    as (ids & connected & us & f1 & f2 & f3 & Hids & Hwired & Horphans & _
        & Hbefore & Hafter & ->).
  cbn [v_warnings]. rewrite Hafter. cbn [warnings] in Hbefore. split.
  - intros Hmsg.
    destruct (orphan_warnings_inv _ _ _ _ _ _ _ Horphans Hmsg)
      as [Hold | (Hn & node & i & Hin & Hi & Hmem & ->)];
      [by rewrite Hbefore in Hold |].
    split; [done |]. exists node, i. repeat split; try done.
    by eapply not_connected_unwired.
  - intros (Hn & node & i & Hin & Hi & Hunwired & ->).
    eapply (for_each_reaches grows (fun f => In _ (warnings f)));
      [ intros; apply grows_check_orphan
      | intros ? ? ? ?; by eapply grows_warnings
      | exact Hin
      | intros s b s' Hstep; eapply check_orphan_warns; [done | done | | done];
        by eapply unwired_not_connected
      | done ].
Qed.

Lemma warnings_are_the_unconnected_nodes_witness :
  exists r,
    validate_workflow 3 two_orphans = Some (Ok r) /\
    In "Node 'B' is not connected to the workflow" (v_warnings r).
Proof.
  eexists. split; [vm_compute; reflexivity |].
  refine (proj2 (warnings_are_the_unconnected_nodes 3 two_orphans _ _ _) _).
  - vm_compute. reflexivity.
  - split; [vm_compute; lia |].
    exists (wire_node "B" "output" []), (VStr "B"). repeat split.
    + vm_compute. right. by left.
    + by intros conn w [].
Defined.

(** ** When the validator raises *)

Lemma returns_ret {S A} (a : A) : returns (@ret S A a).
Proof. intros s. by eexists _, _. Qed.

Lemma returns_modify {S} (f : S -> S) : returns (modify f).
Proof. intros s. by eexists _, _. Qed.

Lemma returns_get_state {S} : returns (@get_state S).
Proof. intros s. by eexists _, _. Qed.

Lemma returns_bind {S A B} (m : ST S A) (k : A -> ST S B) :
  returns m -> (forall a, returns (k a)) -> returns (bind m k).
Proof.
  intros Hm Hk s. unfold bind. destruct (Hm s) as (a & s' & ->). apply Hk.
Qed.

Lemma returns_bind_lift {S A B} (o : outcome A) (a : A) (k : A -> ST S B) :
  o = Ok a -> returns (k a) -> returns (bind (lift o) k).
Proof. intros -> Hk s. apply Hk. Qed.

Lemma returns_for_each {S A B} (f : A -> ST S B) (xs : list A) :
  Forall (fun a => returns (f a)) xs -> returns (for_each f xs).
Proof.
  induction 1 as [| a rest Ha _ IH]; simpl.
  - apply returns_ret.
  - apply returns_bind; [done | intros b].
    apply returns_bind; [done | intros bs]. apply returns_ret.
Qed.

Lemma returns_fold_each {S A B} (f : B -> A -> ST S B) (xs : list A) (acc : B) :
  Forall (fun a => forall b, returns (f b a)) xs -> returns (fold_each f xs acc).
Proof.
  intros Hf. revert acc.
  induction Hf as [| a rest Ha _ IH]; intros acc; simpl.
  - apply returns_ret.
  - apply returns_bind; [apply Ha | done].
Qed.

Ltac returns_step :=
  match goal with
  | |- returns (bind (lift _) _) =>
      eapply returns_bind_lift; [first [reflexivity | eassumption] |]
  | |- returns (bind _ _) => apply returns_bind; [| intros ?]
  | |- returns (if ?b then _ else _) => destruct b
  | |- returns (ret _) => apply returns_ret
  | |- returns (add_error _) => apply returns_modify
  | |- returns (add_warning _) => apply returns_modify
  | |- returns get_state => apply returns_get_state
  end.

Lemma returns_check_node_fields node : node_ok node -> returns (check_node_fields node).
Proof.
  intros (kvs & id & -> & Hid & Hhash). unfold check_node_fields. repeat returns_step.
Qed.

Lemma returns_check_connection_fields conn :
  connection_ok conn -> returns (check_connection_fields conn).
Proof.
  intros (kvs & -> & _). unfold check_connection_fields.
  apply returns_bind; [| intros; apply returns_ret].
  apply returns_for_each, Forall_forall. intros field _. repeat returns_step.
Qed.

Lemma returns_collect_node_ids nodes :
  Forall node_ok nodes -> returns (collect_node_ids nodes).
Proof.
  intros Hnodes. unfold collect_node_ids. apply returns_fold_each.
  eapply Forall_impl; [done |]. intros node (kvs & id & -> & Hid & Hhash) acc.
  assert (Hitem : py_getitem (VDict kvs) "id" = Ok id) by (cbn; by rewrite Hid).
  repeat returns_step.
Qed.

Lemma returns_check_endpoints ids connected conn :
  connection_ok conn -> returns (check_endpoints ids connected conn).
Proof.
  intros (kvs & -> & Hfrom & Hto). unfold check_endpoints. repeat returns_step.
Qed.

Lemma returns_check_orphan n connected node :
  node_ok node -> returns (check_orphan n connected node).
Proof.
  intros (kvs & id & -> & Hid & Hhash).
  assert (Hitem : py_getitem (VDict kvs) "id" = Ok id) by (cbn; by rewrite Hid).
  unfold check_orphan. repeat returns_step.
Qed.

Lemma returns_guarded_cycle_check fuel nodes connections :
  (length nodes + length connections < fuel)%nat ->
  returns (guarded_cycle_check fuel nodes connections).
Proof.
  intros Hfuel f. unfold guarded_cycle_check.
  destruct (check_circular_comes_back fuel nodes connections Hfuel
              {| dfs_visited := []; rec_stack := [] |}) as ([[] | e] & st & ->);
    by eexists _, _.
Qed.

Lemma py_get_Ok_inv obj key dflt v :
  py_get obj key dflt = Ok v ->
  exists kvs, obj = VDict kvs /\ v = default dflt (dict_get key kvs).
Proof. destruct obj; try done. intros [= <-]. by eexists. Qed.

Lemma py_getitem_Ok_inv obj key v :
  py_getitem obj key = Ok v -> exists kvs, obj = VDict kvs /\ dict_get key kvs = Some v.
Proof.
  destruct obj as [| | | | | | kvs |]; try done. simpl.
  destruct (dict_get key kvs) eqn:Hkey; [| done]. intros [= <-]. by eexists.
Qed.

Lemma py_hash_Ok v u : py_hash v = Ok u -> py_hash v = Ok tt.
Proof. by destruct u. Qed.

Lemma collect_node_ids_needs nodes f ids f' :
  collect_node_ids nodes f = Some (Ok ids, f') -> Forall node_ok nodes.
Proof.
  unfold collect_node_ids. generalize (@nil value). revert f.
  induction nodes as [| node nodes IH]; intros f acc; simpl; [by constructor |].
  intros Hrun. apply bind_Ok_inv in Hrun as (acc' & f1 & Hstep & Hrun).
  apply bind_lift_Ok_inv in Hstep as (i & Hi & Hstep).
  apply bind_lift_Ok_inv in Hstep as ([] & Hhash & _).
  constructor; [| by eapply IH].
  apply py_getitem_Ok_inv in Hi as (kvs & -> & Hid). by exists kvs, i.
Qed.

Lemma check_endpoints_needs ids connections :
  forall acc f c f',
    fold_each (check_endpoints ids) connections acc f = Some (Ok c, f') ->
    Forall connection_ok connections.
Proof.
  induction connections as [| conn rest IH]; intros acc f c f'; simpl; [by constructor |].
  intros Hrun. apply bind_Ok_inv in Hrun as (acc' & f1 & Hstep & Hrun).
  constructor; [| by eapply IH]. unfold check_endpoints in Hstep.
  apply bind_lift_Ok_inv in Hstep as (x & Hx & Hstep).
  apply bind_lift_Ok_inv in Hstep as ([] & Hhx & Hstep).
  apply bind_Ok_inv in Hstep as ([] & fa & _ & Hstep).
  apply bind_lift_Ok_inv in Hstep as (t & Ht & Hstep).
  apply bind_lift_Ok_inv in Hstep as ([] & Hht & _).
  apply py_get_Ok_inv in Hx as (kvs & -> & ->).
  apply py_get_Ok_inv in Ht as (kvs' & [= <-] & ->). by exists kvs.
Qed.

(** X11.  The validator returns its report exactly on the payloads it can
    read to the end.  Given search depth for the payload's size,
    [validate_workflow] returns a report if and only if the payload is an
    object whose nodes and connections can be iterated, every node is an
    object with a hashable ["id"] and every connection an object whose
    endpoints are hashable; on every other payload it raises. *)
Theorem validator_reports_iff_well_formed wd extra :
  (exists r, validate_workflow (validation_fuel wd + extra) wd = Some (Ok r)) <->
  well_formed wd.
Proof.
  split.
  - intros [r [f' Hrun]%validate_workflow_inv].
    unfold validate_body in Hrun.
    apply bind_lift_Ok_inv in Hrun as (raw_nodes & Hraw_nodes & Hrun).
    apply bind_lift_Ok_inv in Hrun as (raw_connections & Hraw_connections & Hrun).
    apply bind_lift_Ok_inv in Hrun as (nodes & Hnodes & Hrun).
    apply bind_Ok_inv in Hrun as (? & f0 & _ & Hrun).
    apply bind_lift_Ok_inv in Hrun as (connections & Hconnections & Hrun).
    apply bind_Ok_inv in Hrun as (? & f1 & _ & Hrun).
    apply bind_Ok_inv in Hrun as (ids & f1' & Hids & Hrun).
    apply bind_Ok_inv in Hrun as (connected & f2 & Hconnected & _).
    apply py_get_Ok_inv in Hraw_nodes as (kvs & -> & ->).
    apply py_get_Ok_inv in Hraw_connections as (kvs' & [= <-] & ->).
    exists kvs, nodes, connections. repeat split; try done.
    + by eapply collect_node_ids_needs.
    + by eapply check_endpoints_needs.
  - intros (kvs & nodes & connections & -> & Hnodes & Hconnections & Hn & Hc).
    unfold validate_workflow.
    enough (Hbody : returns (validate_body (validation_fuel (VDict kvs) + extra) (VDict kvs))).
    { destruct (Hbody {| errors := []; warnings := [] |}) as (r & f' & ->). by exists r. }
    assert (Hfuel : (length nodes + length connections
                     < validation_fuel (VDict kvs) + extra)%nat).
    { unfold validation_fuel, payload_items. cbn [py_get].
      rewrite Hnodes, Hconnections. lia. }
    unfold validate_body.
    do 3 returns_step.
    apply returns_bind; [| intros _].
    { apply returns_for_each. eapply Forall_impl; [done |].
      apply returns_check_node_fields. }
    returns_step.
    apply returns_bind; [| intros _].
    { apply returns_for_each. eapply Forall_impl; [done |].
      apply returns_check_connection_fields. }
    apply returns_bind; [by apply returns_collect_node_ids | intros ids].
    apply returns_bind; [| intros connected].
    { apply returns_fold_each. eapply Forall_impl; [done |].
      intros conn Hconn acc. by apply returns_check_endpoints. }
    apply returns_bind; [| intros _].
    { apply returns_for_each. eapply Forall_impl; [done |].
      intros node Hnode. by apply returns_check_orphan. }
    apply returns_bind; [by apply returns_guarded_cycle_check | intros _].
    repeat returns_step.
Qed.

(** ** The cycle check misses no cycle *)

Lemma py_eq_congr k a b : py_eq a b = true -> py_eq k a = py_eq k b.
Proof.
  intros Hab. destruct (py_eq k a) eqn:Hka, (py_eq k b) eqn:Hkb; try done.
  - by rewrite (py_eq_trans _ _ _ Hka Hab) in Hkb.
  - by rewrite (py_eq_trans _ _ _ Hkb (py_eq_sym _ _ Hab)) in Hka.
Qed.

Lemma vdict_get_eq {A} a b (d : list (value * A)) :
  py_eq a b = true -> vdict_get a d = vdict_get b d.
Proof.
  intros Hab. induction d as [| [k y] rest IH]; simpl; [done |].
  by rewrite (py_eq_congr k a b Hab), IH.
Qed.

Lemma set_mem_congr a b s : py_eq a b = true -> set_mem a s = set_mem b s.
Proof.
  intros Hab. unfold set_mem. induction s as [| y s IH]; simpl; [done |].
  by rewrite (py_eq_congr y a b Hab), IH.
Qed.

Lemma set_mem_add_eq x u s : set_mem x (set_add u s) = set_mem x s || py_eq u x.
Proof.
  unfold set_add. destruct (set_mem u s) eqn:Hu.
  - destruct (py_eq u x) eqn:Hux; [| by rewrite orb_false_r].
    by rewrite <- (set_mem_congr u x s Hux), Hu.
  - unfold set_mem. rewrite existsb_app. simpl. by rewrite orb_false_r.
Qed.

Lemma set_mem_remove x u s :
  set_mem x (set_remove u s) = set_mem x s && negb (py_eq u x).
Proof.
  unfold set_mem, set_remove. induction s as [| y s IH]; simpl; [done |].
  destruct (py_eq y u) eqn:Hyu; simpl; rewrite IH;
    destruct (py_eq y x) eqn:Hyx; simpl; try done.
  - by rewrite (py_eq_trans u y x (py_eq_sym _ _ Hyu) Hyx), andb_false_r.
  - destruct (py_eq u x) eqn:Hux; [| done].
    by rewrite (py_eq_trans y x u Hyx (py_eq_sym _ _ Hux)) in Hyu.
Qed.

Lemma vdict_get_set_hit {A} (k a : value) (x old : A) d :
  vdict_get k d = Some old -> py_eq k a = true -> vdict_get a (vdict_set k x d) = Some x.
Proof.
  intros Hold Hka. induction d as [| [k' y] rest IH]; simpl in *; [done |].
  destruct (py_eq k' k) eqn:Hk; simpl.
  - by rewrite (py_eq_trans _ _ _ Hk Hka).
  - destruct (py_eq k' a) eqn:Ha; [| by apply IH].
    by rewrite (py_eq_trans _ _ _ Ha (py_eq_sym _ _ Hka)) in Hk.
Qed.

Lemma vdict_get_set_miss {A} (k a : value) (x : A) d :
  py_eq k a = false -> vdict_get a (vdict_set k x d) = vdict_get a d.
Proof.
  intros Hka. induction d as [| [k' y] rest IH]; simpl; [by rewrite Hka |].
  destruct (py_eq k' k) eqn:Hk; simpl.
  - destruct (py_eq k' a) eqn:Ha; [| done].
    by rewrite (py_eq_trans _ _ _ (py_eq_sym _ _ Hk) Ha) in Hka.
  - by rewrite IH.
Qed.

Lemma edge_source_live adj a b : edge adj a b -> py_eq a a = true.
Proof.
  intros (ts & Hget & _). apply vdict_get_key in Hget as (k & _ & Hk).
  apply py_eq_sym in Hk. by eapply py_eq_live.
Qed.

Lemma edge_eq adj a a' b : py_eq a a' = true -> edge adj a b -> edge adj a' b.
Proof.
  intros Heq (ts & Hget & Hin). exists ts. by rewrite <- (vdict_get_eq a a' adj Heq).
Qed.

Lemma chain_source_live adj a b : tc (edge adj) a b -> py_eq a a = true.
Proof. intros Hab. destruct Hab; by eapply edge_source_live. Qed.

(** An edge stays when a target is appended to a list. *)
Lemma edge_after_append adj f old t a b :
  vdict_get f adj = Some old ->
  edge adj a b -> edge (vdict_set f (old ++ [t])%list adj) a b.
Proof.
  intros Hold (ts & Hget & Hin). destruct (py_eq f a) eqn:Hfa.
  - exists (old ++ [t])%list. split; [by eapply vdict_get_set_hit |].
    rewrite (vdict_get_eq f a adj Hfa) in Hold.
    assert (ts = old) as -> by congruence. apply in_or_app. by left.
  - exists ts. split; [by rewrite vdict_get_set_miss | done].
Qed.

(** Every connection with truthy endpoints is an edge of the adjacency
    list. *)
Lemma wired_is_edge nodes connections adj a b :
  build_adj_list nodes connections = Ok adj ->
  wired connections a b -> edge adj a b.
Proof.
  revert adj. induction connections as [| conn connections IH] using rev_ind;
    intros adj.
  - by intros _ (c & src & [] & _).
  - rewrite build_adj_list_connection.
    destruct (build_adj_list nodes connections) as [adj0 | e]; [| done].
    intros Hadj (c & src & Hin & Hsrc & Htruthy & Heq & Hto & Htarget).
    apply in_app_or in Hin as [Hin | [<- | []]].
    + assert (Hedge : edge adj0 a b) by (apply IH; [done | by exists c, src]).
      destruct (py_get conn "from" VNone) as [f | e]; [| done].
      destruct (py_truthy f); cbn [negb] in Hadj; [| by injection Hadj as <-].
      destruct (py_get conn "to" VNone) as [t | e]; [| done].
      destruct (py_truthy t); cbn [negb] in Hadj; [| by injection Hadj as <-].
      unfold vdict_getitem in Hadj. destruct (py_hash f); [| done].
      destruct (vdict_get f adj0) as [old |] eqn:Hold; [| done].
      injection Hadj as <-. by apply edge_after_append.
    + rewrite Hsrc, Htruthy, Hto, Htarget in Hadj. cbn [negb] in Hadj.
      unfold vdict_getitem in Hadj. destruct (py_hash src); [| done].
      destruct (vdict_get src adj0) as [old |] eqn:Hold; [| done].
      injection Hadj as <-. exists (old ++ [b])%list.
      split; [by eapply vdict_get_set_hit | apply in_or_app; right; by left].
Qed.

Lemma wired_cycle_is_cyclic nodes connections adj :
  build_adj_list nodes connections = Ok adj ->
  wired_cycle connections -> cyclic adj.
Proof.
  intros Hadj (a & b & Hchain & Heq). exists a, b. split; [| done].
  clear Heq. induction Hchain as [a b Hwire | a m b Hwire _ IH].
  - apply tc_once. by eapply wired_is_edge.
  - eapply tc_l; [| exact IH]. by eapply wired_is_edge.
Qed.

Lemma finished_eq st a b : py_eq a b = true -> finished st a -> finished st b.
Proof.
  intros Hab [Hv Hs]. unfold finished. by rewrite <- !(set_mem_congr a b _ Hab).
Qed.

Lemma finished_mono st st' u :
  same_stack st st' -> keeps_seen st st' -> finished st u -> finished st' u.
Proof. intros Hs Hv [H1 H2]. split; [by apply Hv | by rewrite Hs]. Qed.

Lemma settled_iff adj st st' :
  (forall u, finished st' u <-> finished st u) -> settled adj st -> settled adj st'.
Proof.
  intros Hsame Hst u Hu. apply Hsame in Hu. destruct (Hst u Hu) as [Hacyclic Hnext].
  split; [done |]. intros v Hv Hlive. apply Hsame. by apply Hnext.
Qed.

(** Whatever can be reached from a node the search is through with, the
    search is through with. *)
Lemma finished_reach adj st v w :
  settled adj st -> finished st v -> tc (edge adj) v w -> py_eq w w = true ->
  finished st w.
Proof.
  intros Hst Hv Hvw. revert Hv.
  induction Hvw as [v w Hedge | v y w Hedge Hyw IH]; intros Hv Hw.
  - by apply (Hst v Hv).
  - apply IH; [| done]. apply (Hst v Hv); [done |]. by eapply chain_source_live.
Qed.

Section CycleFound.

Variable adj_list : list (value * list value).

(** When the search answers [False], it is through with the node, it has
    left the recursion stack as it found it, and none of the nodes it is
    through with is on a cycle. *)
Lemma has_cycle_complete fuel :
  forall node st st',
    settled adj_list st ->
    has_cycle adj_list fuel node st = Some (Ok false, st') ->
    settled adj_list st' /\ same_stack st st' /\ keeps_seen st st' /\
    (py_eq node node = true -> finished st' node).
Proof.
  induction fuel as [| fuel IH]; intros node st st' Hst Hrun; [done |].
  simpl in Hrun.
  apply bind_lift_Ok_inv in Hrun as ([] & _ & Hrun).
  unfold bind at 1 in Hrun. cbn [get_state] in Hrun.
  destruct (set_mem node (rec_stack st)) eqn:Hon; [done |].
  destruct (set_mem node (dfs_visited st)) eqn:Hseen.
  { injection Hrun as <-. split; [done |]. split; [by intros x |].
    split; [by intros x | by intros _; split]. }
  apply bind_Ok_inv in Hrun as ([] & s1 & Hpush & Hrun). injection Hpush as <-.
  apply bind_Ok_inv in Hrun as (found & s2 & Hany & Hrun).
  destruct found; [done |].
  apply bind_Ok_inv in Hrun as ([] & s3 & Hpop & Hrun).
  injection Hpop as <-. injection Hrun as <-.
  assert (Hloop : forall targets s s',
    settled adj_list s ->
    any_each (has_cycle adj_list fuel) targets s = Some (Ok false, s') ->
    settled adj_list s' /\ same_stack s s' /\ keeps_seen s s' /\
    forall t, In t targets -> py_eq t t = true -> finished s' t).
  { induction targets as [| t ts IHts]; intros s s' Hs; simpl.
    - intros [= <-]. split; [done |]. split; [by intros x |].
      split; [by intros x | by intros t []].
    - intros Hts. apply bind_Ok_inv in Hts as (b & sa & Ht & Hts).
      destruct b; [done |].
      destruct (IH _ _ _ Hs Ht) as (Hsa & Hstack_a & Hseen_a & Ht_done).
      destruct (IHts _ _ Hsa Hts) as (Hs' & Hstack' & Hseen' & Hts_done).
      split; [done |]. split; [intros x; by rewrite Hstack', Hstack_a |].
      split; [intros x Hx; by apply Hseen', Hseen_a |].
      intros t' [<- | Hin] Hlive; [| by apply Hts_done].
      eapply finished_mono; [done | done | by apply Ht_done]. }
  match type of Hany with
  | any_each _ _ ?s = _ => set (s1 := s) in *
  end.
  assert (Hpushed : forall u, finished s1 u <-> finished st u).
  { intros u. unfold finished, s1. cbn [dfs_visited rec_stack].
    rewrite !set_mem_add_eq. split.
    - intros [Hv Hs]. apply orb_false_iff in Hs as [Hs Hnu]. rewrite Hnu in Hv.
      by rewrite orb_false_r in Hv.
    - intros [Hv Hs]. rewrite Hv, Hs. split; [done |].
      destruct (py_eq node u) eqn:Hnu; [| done].
      by rewrite (set_mem_congr node u _ Hnu), Hv in Hseen. }
  destruct (Hloop _ _ _ (settled_iff _ _ _ Hpushed Hst) Hany)
    as (Hs2 & Hstack2 & Hseen2 & Hdone).
  assert (Hstack : forall x,
    set_mem x (set_remove node (rec_stack s2)) = set_mem x (rec_stack st)).
  { intros x. rewrite set_mem_remove, Hstack2. unfold s1. cbn [rec_stack].
    rewrite set_mem_add_eq. destruct (py_eq node x) eqn:Hnx; simpl.
    - by rewrite andb_false_r, <- (set_mem_congr node x _ Hnx), Hon.
    - by rewrite orb_false_r, andb_true_r. }
  assert (Hseen3 : keeps_seen st s2).
  { intros x Hx. apply Hseen2. unfold s1. cbn [dfs_visited].
    rewrite set_mem_add_eq, Hx. done. }
  assert (Hon_stack : forall x, py_eq node x = true -> set_mem x (rec_stack s2) = true).
  { intros x Hnx. rewrite Hstack2. unfold s1. cbn [rec_stack].
    by rewrite set_mem_add_eq, Hnx, orb_true_r. }
  assert (Hpopped : forall v, finished s2 v ->
    finished {| dfs_visited := dfs_visited s2;
                rec_stack := set_remove node (rec_stack s2) |} v).
  { intros v [Hv Hs]. split; [done |]. cbn [rec_stack].
    by rewrite set_mem_remove, Hs. }
  split; [| split; [exact Hstack | split; [exact Hseen3 |]]].
  - intros u [Hv Hs]. cbn [dfs_visited rec_stack] in Hv, Hs. rewrite Hstack in Hs.
    destruct (py_eq node u) eqn:Hnu.
    + assert (Htargets : forall v, edge adj_list u v -> py_eq v v = true -> finished s2 v).
      { intros v Hedge Hlive. apply Hdone; [| done].
        apply (edge_eq _ _ _ _ (py_eq_sym _ _ Hnu)) in Hedge as (ts & -> & Hin).
        done. }
      split; [| intros v Hedge Hlive; by apply Hpopped, Htargets].
      intros (u' & Hpath & Huu').
      assert (Hu' : py_eq u' u' = true)
        by (apply py_eq_sym in Huu'; by eapply py_eq_live).
      assert (Hfin : finished s2 u').
      { inversion Hpath as [? ? Hedge | ? y ? Hedge Hrest]; subst.
        - by apply Htargets.
        - eapply finished_reach; [done | | done | done].
          apply Htargets; [done |]. by eapply chain_source_live. }
      destruct Hfin as [_ Hoff].
      rewrite Hon_stack in Hoff; [done |]. by eapply py_eq_trans.
    + assert (Hfin : finished s2 u).
      { split; [done |]. rewrite Hstack2. unfold s1. cbn [rec_stack].
        by rewrite set_mem_add_eq, Hs, Hnu. }
      destruct (Hs2 u Hfin) as [Hacyclic Hnext].
      split; [done |]. intros v Hedge Hlive. by apply Hpopped, Hnext.
  - intros Hlive. split; cbn [dfs_visited rec_stack].
    + apply Hseen2. unfold s1. cbn [dfs_visited].
      by rewrite set_mem_add_eq, Hlive, orb_true_r.
    + by rewrite Hstack.
Qed.

End CycleFound.

(** The loop over the keys of the adjacency list. *)
Lemma check_loop_complete adj fuel keys :
  forall st st',
    settled adj st ->
    (forall x, set_mem x (rec_stack st) = false) ->
    fold_each (fun (_ : unit) node_id =>
      let* s := get_state in
      if set_mem node_id (dfs_visited s) then ret tt
      else
        let* cyclic := has_cycle adj fuel node_id in
        if cyclic then raise (Exn PyException "Circular dependency detected in workflow")
        else ret tt) keys tt st = Some (Ok tt, st') ->
    settled adj st' /\
    (forall x, set_mem x (rec_stack st') = false) /\
    keeps_seen st st' /\
    forall k, In k keys -> py_eq k k = true -> finished st' k.
Proof.
  induction keys as [| key rest IH]; intros st st' Hst Hempty; simpl.
  - intros [= <-]. split; [done |]. split; [done |]. split; [by intros x | by intros k []].
  - intros Hrun. apply bind_Ok_inv in Hrun as ([] & s1 & Hkey & Hrun).
    unfold bind at 1 in Hkey. cbn [get_state] in Hkey.
    assert (Hround : settled adj s1 /\ same_stack st s1 /\ keeps_seen st s1 /\
                     (py_eq key key = true -> finished s1 key)).
    { destruct (set_mem key (dfs_visited st)) eqn:Hseen.
      - injection Hkey as <-. split; [done |]. split; [by intros x |].
        split; [by intros x | by intros _; split]. 
      - apply bind_Ok_inv in Hkey as (found & s2 & Hsearch & Hkey).
        destruct found; [done |]. injection Hkey as <-.
        by eapply has_cycle_complete. }
    destruct Hround as (Hs1 & Hstack1 & Hseen1 & Hkey_done).
    assert (Hempty1 : forall x, set_mem x (rec_stack s1) = false)
      by (intros x; by rewrite Hstack1).
    destruct (IH _ _ Hs1 Hempty1 Hrun) as (Hs' & Hempty' & Hseen' & Hrest_done).
    split; [done |]. split; [done |].
    split; [intros x Hx; by apply Hseen', Hseen1 |].
    intros k [<- | Hin] Hlive; [| by apply Hrest_done].
    destruct (Hkey_done Hlive) as [Hv _]. split; [by apply Hseen' | done].
Qed.

(** The cycle check lets no cycle pass. *)
Lemma check_passes_only_acyclic fuel nodes connections st u st' :
  _check_circular_dependencies fuel nodes connections st = Some (Ok u, st') ->
  ~ wired_cycle connections.
Proof.
  unfold _check_circular_dependencies. intros Hrun Hcycle.
  apply bind_lift_Ok_inv in Hrun as (adj & Hadj & Hrun).
  apply bind_Ok_inv in Hrun as ([] & s0 & Hreset & Hrun). injection Hreset as <-.
  destruct u.
  apply check_loop_complete in Hrun as (Hsettled & Hempty & _ & Hkeys);
    [| by intros x [? ?] | done].
  destruct (wired_cycle_is_cyclic _ _ _ Hadj Hcycle) as (a & b & Hchain & Heq).
  assert (Hlive : py_eq a a = true) by (by eapply chain_source_live).
  assert (Hfin : finished st' a).
  { inversion Hchain as [? ? (ts & Hget & _) | ? y ? (ts & Hget & _) _]; subst.
    all: apply vdict_get_key in Hget as (k & Hk & Hka).
    all: apply (finished_eq _ k a Hka), Hkeys; [done |].
    all: by eapply py_eq_live. }
  destruct (Hsettled a Hfin) as [Hacyclic _]. apply Hacyclic. by exists b.
Qed.

Lemma validate_body_guard_inv fuel wd f r f' :
  validate_body fuel wd f = Some (Ok r, f') ->
  exists f3,
    guarded_cycle_check fuel (payload_items wd "nodes") (payload_items wd "connections") f3
      = Some (Ok tt, f') /\
    v_errors r = errors f' /\
    valid r = bool_decide (length (errors f') = 0%nat).
Proof.
  unfold validate_body. intros Hrun.
  apply bind_lift_Ok_inv in Hrun as (raw_nodes & Hraw_nodes & Hrun).
  apply bind_lift_Ok_inv in Hrun as (raw_connections & Hraw_connections & Hrun).
  apply bind_lift_Ok_inv in Hrun as (nodes & Hnodes & Hrun).
  apply bind_Ok_inv in Hrun as (? & f0 & _ & Hrun).
  apply bind_lift_Ok_inv in Hrun as (connections & Hconnections & Hrun).
  apply bind_Ok_inv in Hrun as (? & f1 & _ & Hrun).
  apply bind_Ok_inv in Hrun as (ids & f1' & _ & Hrun).
  apply bind_Ok_inv in Hrun as (connected & f2 & _ & Hrun).
  apply bind_Ok_inv in Hrun as (us & f3 & _ & Hrun).
  apply bind_Ok_inv in Hrun as ([] & f4 & Hguard & Hrun).
  injection Hrun as <- <-.
  unfold payload_items. rewrite Hraw_nodes, Hnodes, Hraw_connections, Hconnections.
  by exists f3.
Qed.

(** X12.  The validator lets no cycle pass: whenever [validate_workflow]
    returns its report on a payload in which a chain of connections with
    truthy endpoints leads from a node back to a node equal to it, the
    report says the workflow is not valid and lists at least one error. *)
Theorem cyclic_workflow_is_never_valid fuel wd r :
  validate_workflow fuel wd = Some (Ok r) ->
  wired_cycle (payload_items wd "connections") ->
  valid r = false /\ v_errors r <> [].
Proof.
  intros [f' Hrun]%validate_workflow_inv Hcycle.
  apply validate_body_guard_inv in Hrun as (f3 & Hguard & -> & ->).
  unfold guarded_cycle_check in Hguard.
  destruct (_check_circular_dependencies _ _ _ _) as [[[[] | e] st] |] eqn:Hcheck;
    [| | done].
  - by apply check_passes_only_acyclic in Hcheck.
  - injection Hguard as <-. cbn [errors].
    split; [apply bool_decide_eq_false | ]; by destruct (errors f3).
Qed.

Lemma cyclic_workflow_is_never_valid_witness :
  exists r,
    validate_workflow 4 pure_cycle = Some (Ok r) /\ valid r = false /\ v_errors r <> [].
Proof.
  eexists. split; [vm_compute; reflexivity |].
  refine (cyclic_workflow_is_never_valid 4 pure_cycle _ _ _).
  - vm_compute. reflexivity.
  - exists (VStr "A"), (VStr "A"). split; [| reflexivity].
    apply tc_l with (VStr "B");
      [exists (wire_connection "ab" "A" "B" 0), (VStr "A"); vm_compute; tauto |].
    apply tc_l with (VStr "C");
      [exists (wire_connection "bc" "B" "C" 0), (VStr "B"); vm_compute; tauto |].
    apply tc_once.
    exists (wire_connection "ca" "C" "A" 0), (VStr "C"). vm_compute. tauto.
Defined.

(** ** The log of a run *)

Lemma sorted_app_lt (l1 l2 : list nat) :
  StronglySorted Nat.lt l1 -> StronglySorted Nat.lt l2 ->
  (forall a b, In a l1 -> In b l2 -> (a < b)%nat) ->
  StronglySorted Nat.lt (l1 ++ l2).
Proof.
  intros H1 H2. induction H1 as [| a l1 Hl1 IH Ha]; intros Hlt; simpl; [done |].
  constructor.
  - apply IH. intros x y Hx Hy. apply Hlt; [by right | done].
  - apply List.Forall_forall. intros x [Hx | Hx]%in_app_or.
    + by eapply List.Forall_forall in Ha.
    + apply Hlt; [by left | done].
Qed.

#[local] Instance stamped_reflexive rt : Reflexive (stamped rt).
Proof.
  intros s. split; [lia |]. exists [], []. rewrite app_nil_r.
  repeat split; constructor.
Qed.

#[local] Instance stamped_transitive rt : Transitive (stamped rt).
Proof.
  intros s1 s2 s3 [H12 (m1 & k1 & Hl1 & Ht1 & Hs1 & Hr1)]
                  [H23 (m2 & k2 & Hl2 & Ht2 & Hs2 & Hr2)].
  split; [lia |]. exists (m1 ++ m2)%list, (k1 ++ k2)%list.
  split; [by rewrite Hl2, Hl1, app_assoc |].
  split; [rewrite !map_app; congruence |].
  split.
  - apply sorted_app_lt; [done | done |]. intros a b Ha Hb.
    eapply List.Forall_forall in Hr1; [| exact Ha].
    eapply List.Forall_forall in Hr2; [| exact Hb]. cbv beta in *. lia.
  - apply List.Forall_app. split.
    + eapply List.Forall_impl; [| exact Hr1]. cbv beta. lia.
    + eapply List.Forall_impl; [| exact Hr2]. cbv beta. lia.
Qed.

(** A step that leaves the log and the clock alone. *)
Lemma stamped_modify rt (f : run_state -> run_state) :
  (forall s, ticks (f s) = ticks s /\ log_of (f s) = log_of s) ->
  keeps (stamped rt) (modify f).
Proof.
  intros Hf s r s' [= _ <-]. destruct (Hf s) as [Hticks Hlog].
  split; [lia |]. exists [], []. rewrite app_nil_r, Hticks.
  repeat split; [done | constructor | constructor].
Qed.

Lemma stamped_update rt f :
  (forall e, execution_log (f e) = execution_log e) ->
  keeps (stamped rt) (update_execution f).
Proof.
  intros Hf. apply stamped_modify. intros s. split; [done |].
  unfold log_of. cbn. apply Hf.
Qed.

Lemma stamped_mark_visited rt k v : keeps (stamped rt) (mark_visited k v).
Proof. by apply stamped_modify. Qed.

Lemma stamped_reset_walk rt : keeps (stamped rt) reset_walk.
Proof. by apply stamped_modify. Qed.

Lemma stamped_time_time rt : keeps (stamped rt) (time_time rt).
Proof.
  intros s r s' [= _ <-]. split; [cbn; lia |]. exists [], [].
  unfold log_of. cbn. rewrite app_nil_r. repeat split; constructor.
Qed.

Lemma stamped_get_execution rt : keeps (stamped rt) get_execution.
Proof. intros s r s' [= _ <-]. reflexivity. Qed.

(** Reading the clock and logging an entry under that reading. *)
Lemma stamped_logged rt {A} (mk : Z -> log_entry) (k : M A) :
  (forall t, timestamp (mk t) = t) ->
  keeps (stamped rt) k ->
  keeps (stamped rt)
    (bind (time_time rt) (fun t => bind (update_execution (log_append (mk t))) (fun _ => k))).
Proof.
  intros Hmk Hk s r s' Hrun.
  unfold bind at 1 in Hrun. cbn [time_time] in Hrun.
  unfold bind at 1 in Hrun. cbn [update_execution modify] in Hrun.
  etransitivity; [| by eapply Hk]. cbn.
  split; [cbn; lia |]. exists [mk (clock rt (ticks s))], [ticks s].
  unfold log_of. cbn. rewrite Hmk.
  repeat split; try done; repeat constructor; lia.
Qed.

(** The module has no global named [time]: what follows a reading of it is
    never reached. *)
Lemma stamped_global_time rt {A} (k : Z -> M A) :
  keeps (stamped rt) (bind (global_time_time rt) k).
Proof. intros s r s' [= _ <-]. reflexivity. Qed.

Ltac stamped_leaf :=
  first [ assumption
        | apply stamped_time_time
        | apply stamped_get_execution
        | apply stamped_mark_visited
        | apply stamped_reset_walk
        | apply stamped_update; intros ?; reflexivity ].

Ltac stamped_with rt :=
  repeat match goal with
  | |- keeps _ (bind (global_time_time _) _) => apply stamped_global_time
  | |- keeps _ (bind _ _) =>
      first [ apply stamped_logged; [intros ?; reflexivity |]
            | apply (keeps_bind (stamped rt)); [| intros ?] ]
  | |- keeps _ (try_except _ _) => apply (keeps_try_except (stamped rt)); [| intros ?]
  | |- keeps _ (fold_each _ _ _) => apply (keeps_fold_each (stamped rt)); intros ? ?
  | |- keeps _ (ret _) => apply (keeps_ret (stamped rt))
  | |- keeps _ (raise _) => apply (keeps_raise (stamped rt))
  | |- keeps _ diverge => apply (keeps_diverge (stamped rt))
  | |- keeps _ (lift _) => apply (keeps_lift (stamped rt))
  | |- keeps _ get_state => apply (keeps_get_state (stamped rt))
  | |- keeps _ (capture _) => unfold capture
  | |- keeps _ (if ?b then _ else _) => destruct b
  | |- keeps _ (match ?x with _ => _ end) => destruct x
  | |- keeps _ _ => solve [stamped_leaf]
  end.

Section HandlersStamped.

Variable rt : Runtime.
Variable ctx : AgentContext.

Lemma stamped_handlers t h node inputs :
  node_handlers rt ctx t = Some h -> keeps (stamped rt) (h node inputs).
Proof.
  destruct t; intros [= <-].
  - unfold _execute_input_node. stamped_with rt.
  - unfold _execute_agent_node. stamped_with rt.
  - unfold _execute_tool_node. stamped_with rt.
  - unfold _execute_condition_node. stamped_with rt.
  - unfold _execute_output_node. stamped_with rt.
  - unfold _execute_loop_node. stamped_with rt.
  - unfold _execute_parallel_node.
    destruct (input_values inputs) as [| v vs]; [stamped_with rt |].
    apply (keeps_bind (stamped rt)); [| intros ?; stamped_with rt].
    apply (keeps_for_each (stamped rt)), Forall_forall. intros m Hm.
    apply list_elem_of_In, in_map_iff in Hm as (iv & <- & _).
    unfold _process_parallel_input. stamped_with rt.
  - unfold _execute_merge_node. stamped_with rt.
Qed.

Lemma stamped_single_node node inputs :
  keeps (stamped rt) (_execute_single_node rt ctx node inputs).
Proof.
  unfold _execute_single_node.
  apply stamped_logged; [intros ?; reflexivity |].
  destruct (node_handlers rt ctx (node_type node)) as [h |] eqn:Hh;
    [| apply (keeps_raise (stamped rt))].
  pose proof (stamped_handlers _ _ node inputs Hh).
  stamped_with rt.
Qed.

Lemma stamped_execute_node node_map connections fuel :
  forall node, keeps (stamped rt) (execute_node rt ctx node_map connections fuel node).
Proof.
  induction fuel as [| fuel IH]; intros node; simpl.
  - apply (keeps_diverge (stamped rt)).
  - apply (keeps_bind (stamped rt)); [apply (keeps_lift (stamped rt)) | intros _].
    apply (keeps_bind (stamped rt)); [apply (keeps_get_state (stamped rt)) | intros s0].
    destruct (set_mem (node_id node) (visited s0)); [apply (keeps_ret (stamped rt)) |].
    apply (keeps_bind (stamped rt)).
    + apply (keeps_fold_each (stamped rt)). intros acc prereq.
      apply (keeps_bind (stamped rt)); [apply (keeps_lift (stamped rt)) | intros prereq_node].
      apply (keeps_bind (stamped rt)); [apply IH | intros ?].
      apply (keeps_ret (stamped rt)).
    + intros prerequisite_results.
      pose proof (stamped_single_node node prerequisite_results).
      stamped_with rt.
Qed.

Lemma stamped_execute_workflow_graph fuel nodes connections :
  keeps (stamped rt) (_execute_workflow_graph rt ctx fuel nodes connections).
Proof.
  unfold _execute_workflow_graph.
  apply (keeps_bind (stamped rt)); [apply (keeps_lift (stamped rt)) | intros node_map].
  apply (keeps_bind (stamped rt)); [apply (keeps_lift (stamped rt)) | intros connection_map].
  destruct (List.filter (is_start_node connections) nodes) as [| n0 ns];
    [apply (keeps_raise (stamped rt)) |].
  apply (keeps_bind (stamped rt)); [stamped_leaf | intros _].
  apply (keeps_bind (stamped rt)).
  - apply (keeps_for_each (stamped rt)), Forall_forall. intros node _.
    apply stamped_execute_node.
  - intros final_results. stamped_with rt.
Qed.

(** The [try] block: up to its last statements the log is stamped in order;
    a return goes through those statements. *)
Lemma run_workflow_stamped fuel execution_id workflow_data s0 :
  triple (stamped rt s0) (run_workflow rt ctx fuel execution_id workflow_data)
    (fun resp s' => exists x,
       stamped rt s0 x /\
       execution s'
         = set_end_time (clock rt (ticks x)) (set_status "completed" (execution x)))
    (stamped rt s0).
Proof.
  assert (Hstep : forall A (m : M A),
    keeps (stamped rt) m ->
    triple (stamped rt s0) m (fun _ => stamped rt s0) (stamped rt s0)).
  { intros A m Hm.
    apply (triple_keeps (stamped rt) (stamped rt s0) (stamped rt s0)); [done | | done].
    intros s s' Hs Hss'. by etransitivity. }
  unfold run_workflow.
  eapply triple_bind; [apply Hstep, (keeps_lift (stamped rt)) | intros ?].
  eapply triple_bind; [apply Hstep, (keeps_lift (stamped rt)) | intros ?].
  eapply triple_bind.
  { apply Hstep, (keeps_for_each (stamped rt)), Forall_forall.
    intros ? _. apply (keeps_lift (stamped rt)). }
  intros ?.
  eapply triple_bind; [apply Hstep, (keeps_lift (stamped rt)) | intros ?].
  eapply triple_bind; [apply Hstep, (keeps_lift (stamped rt)) | intros ?].
  eapply triple_bind.
  { apply Hstep, (keeps_for_each (stamped rt)), Forall_forall.
    intros ? _. apply (keeps_lift (stamped rt)). }
  intros ?.
  eapply triple_bind; [apply Hstep, stamped_execute_workflow_graph | intros result].
  intros x r s' Hx Hrun. injection Hrun as <- <-. by exists x.
Qed.

End HandlersStamped.

Lemma stamped_run_workflow rt ctx fuel execution_id workflow_data :
  keeps (stamped rt) (run_workflow rt ctx fuel execution_id workflow_data).
Proof.
  unfold run_workflow.
  apply (keeps_bind (stamped rt)); [apply (keeps_lift (stamped rt)) | intros ?].
  apply (keeps_bind (stamped rt)); [apply (keeps_lift (stamped rt)) | intros ?].
  apply (keeps_bind (stamped rt)).
  { apply (keeps_for_each (stamped rt)), Forall_forall.
    intros ? _. apply (keeps_lift (stamped rt)). }
  intros ?.
  apply (keeps_bind (stamped rt)); [apply (keeps_lift (stamped rt)) | intros ?].
  apply (keeps_bind (stamped rt)); [apply (keeps_lift (stamped rt)) | intros ?].
  apply (keeps_bind (stamped rt)).
  { apply (keeps_for_each (stamped rt)), Forall_forall.
    intros ? _. apply (keeps_lift (stamped rt)). }
  intros ?.
  apply (keeps_bind (stamped rt)); [apply stamped_execute_workflow_graph | intros ?].
  stamped_with rt.
Qed.

Lemma stamped_fail_workflow rt execution_id err :
  keeps (stamped rt) (fail_workflow rt execution_id err).
Proof. unfold fail_workflow. stamped_with rt. Qed.

(** Under a clock that does not go back, readings taken in order are in
    order. *)
Lemma sorted_readings rt ks :
  (forall i j, (i <= j)%nat -> clock rt i <= clock rt j) ->
  StronglySorted Nat.lt ks -> StronglySorted Z.le (map (clock rt) ks).
Proof.
  intros Hclock. induction 1 as [| k ks Hks IH Hk]; simpl; constructor; [done |].
  apply List.Forall_map. eapply List.Forall_impl; [| exact Hk].
  intros j Hj. apply Hclock. cbv beta in Hj. lia.
Qed.

Lemma stamps_bounded rt (P : Z -> Prop) (Q : nat -> Prop) more ks :
  map timestamp more = map (clock rt) ks ->
  (forall k, Q k -> P (clock rt k)) ->
  Forall Q ks -> Forall (fun e => P (timestamp e)) more.
Proof.
  intros Hmap HQP Hks.
  apply (List.Forall_map timestamp P). rewrite Hmap. apply List.Forall_map.
  eapply List.Forall_impl; [| exact Hks]. exact HQP.
Qed.

(** X13.  Under a clock that does not go back, the log of a run is in
    chronological order and no entry is stamped before the start of the
    run.  When the run completed, no entry is stamped after its end; when it
    failed, the last entry is the error, stamped no earlier than the end
    time of the record. *)
Theorem run_log_is_chronological rt self now workflow_data input_data fuel :
  (forall i j, (i <= j)%nat -> clock rt i <= clock rt j) ->
  exists resp self' n record finish,
    execute_workflow rt (S fuel) self now workflow_data input_data
      = Some (Ok resp, self', n) /\
    executions self' !! new_execution_id (clock rt now) = Some record /\
    dict_get "log" resp = Some (FLog (execution_log record)) /\
    end_time record = Some finish /\
    StronglySorted Z.le (map timestamp (execution_log record)) /\
    Forall (fun e => start_time record <= timestamp e) (execution_log record) /\
    (status record = "completed" ->
     Forall (fun e => timestamp e <= finish) (execution_log record)) /\
    (status record = "failed" ->
     exists entry, last (execution_log record) = Some entry /\
                   level entry = "error" /\ finish <= timestamp entry).
Proof.
  intros Hclock.
  destruct (execute_workflow_comes_back rt self now workflow_data input_data fuel)
    as (resp & self' & n & Hrun).
  exists resp, self', n. pose proof Hrun as Hcame.
  unfold execute_workflow in Hrun.
  set (execution_id := new_execution_id (clock rt now)) in *.
  set (ctx := context (register execution_id (new_execution rt now input_data) self)) in Hrun.
  set (s0 := start_state rt now input_data) in Hrun.
  destruct (try_except (run_workflow rt ctx (S fuel) execution_id workflow_data)
                       (fail_workflow rt execution_id) s0)
    as [[r s] |] eqn:Hcall; [| done].
  injection Hrun as -> <- <-.
  assert (Hstamped : stamped rt s0 s).
  { eapply (keeps_try_except (stamped rt)); [| | exact Hcall].
    - apply stamped_run_workflow.
    - intros err. apply stamped_fail_workflow. }
  destruct Hstamped as [Hticks (more & ks & Hlog & Hstamps & Hsorted & Hrange)].
  unfold log_of in Hlog. cbn [s0 start_state execution new_execution execution_log app] in Hlog.
  cbn [s0 start_state ticks] in Hticks, Hrange.
  unfold try_except in Hcall.
  destruct (run_workflow rt ctx (S fuel) execution_id workflow_data s0)
    as [[[resp0 | err] s1] |] eqn:Hbody; [| | done].
  - injection Hcall as -> ->.
    pose proof (run_workflow_outcome rt ctx (S fuel) execution_id workflow_data s0
                  s0 (Ok resp) s (reflexivity s0) Hbody)
      as (x' & result & (_ & Hstart & _) & Hexec' & _ & Hresp).
    pose proof (run_workflow_stamped rt ctx (S fuel) execution_id workflow_data s0
                  s0 (Ok resp) s (reflexivity s0) Hbody)
      as (x & [_ (more' & ks' & Hlog' & Hstamps' & _ & Hrange')] & Hexec).
    unfold log_of in Hlog'.
    cbn [s0 start_state execution new_execution execution_log app ticks] in Hlog', Hrange'.
    exists (execution s), (clock rt (ticks x)).
    split; [exact Hcame |]. split; [apply lookup_insert_eq |].
    split; [subst resp; rewrite Hexec'; reflexivity |].
    split; [by rewrite Hexec |].
    rewrite Hlog, Hstamps. split; [by apply sorted_readings |].
    split; [| split].
    + rewrite Hexec'. cbn [start_time set_end_time set_status]. rewrite Hstart.
      refine (stamps_bounded rt (fun t => start_time (execution s0) <= t) _ _ _ Hstamps _ Hrange).
      intros k Hk. cbn in *. apply Hclock. lia.
    + intros _. rewrite Hexec in Hlog. cbn [execution_log set_end_time set_status] in Hlog.
      rewrite Hlog' in Hlog. subst more'.
      refine (stamps_bounded rt (fun t => t <= clock rt (ticks x)) _ _ _ Hstamps' _ Hrange').
      intros k Hk. cbn in Hk. apply Hclock. lia.
    + by rewrite Hexec.
  - pose proof (run_workflow_outcome rt ctx (S fuel) execution_id workflow_data s0
                  s0 (Raise err) s1 (reflexivity s0) Hbody) as (_ & Hstart & _).
    rewrite fail_workflow_run in Hcall. cbv zeta in Hcall. injection Hcall as <- <-.
    eexists _, _. split; [exact Hcame |]. split; [apply lookup_insert_eq |].
    cbn [execution execution_log end_time start_time status] in *.
    split; [reflexivity |]. split; [reflexivity |].
    rewrite Hlog, Hstamps. split; [by apply sorted_readings |].
    split; [| split].
    + rewrite Hstart. refine (stamps_bounded rt (fun t => start_time (execution s0) <= t) _ _ _ Hstamps _ Hrange).
      intros k Hk. cbn in *. apply Hclock. lia.
    + done.
    + intros _. rewrite <- Hlog. eexists. rewrite last_snoc.
      split; [reflexivity |]. split; [reflexivity |]. cbn. apply Hclock. lia.
Qed.

Lemma run_log_is_chronological_witness :
  exists resp self' n record finish,
    execute_workflow example_runtime 1 (new_engine (example_context "main")) 0
                     diamond (VStr "go") = Some (Ok resp, self', n) /\
    executions self' !! new_execution_id (clock example_runtime 0) = Some record /\
    dict_get "log" resp = Some (FLog (execution_log record)) /\
    end_time record = Some finish /\
    StronglySorted Z.le (map timestamp (execution_log record)) /\
    Forall (fun e => start_time record <= timestamp e) (execution_log record) /\
    (status record = "completed" ->
     Forall (fun e => timestamp e <= finish) (execution_log record)) /\
    (status record = "failed" ->
     exists entry, last (execution_log record) = Some entry /\
                   level entry = "error" /\ finish <= timestamp entry).
Proof.
  apply (run_log_is_chronological example_runtime
           (new_engine (example_context "main")) 0 diamond (VStr "go") 0).
  intros i j Hij. unfold example_runtime, wall_clock, clock. lia.
Defined.

(** ** What the connections are used for *)

(** The connection map, which nothing reads, can be built as soon as every
    source can be hashed. *)
Lemma build_connection_map_returns connections :
  (forall conn, In conn connections -> py_hash (from_node conn) = Ok tt) ->
  exists m, _build_connection_map connections = Ok m.
Proof.
  unfold _build_connection_map. generalize (@nil (value * list WorkflowConnection)).
  induction connections as [| conn rest IH]; intros m Hhash; simpl; [by exists m |].
  rewrite (Hhash conn (or_introl eq_refl)). apply IH. intros c Hc. apply Hhash. by right.
Qed.

(** On a node without incoming connection the resolver does not look at the
    connections. *)
Lemma execute_node_start_ext rt ctx node_map c1 c2 fuel node s :
  is_start_node c1 node = true -> is_start_node c2 node = true ->
  execute_node rt ctx node_map c1 fuel node s = execute_node rt ctx node_map c2 fuel node s.
Proof.
  intros H1 H2. destruct fuel as [| fuel]; [done |]. simpl.
  by rewrite (start_node_no_prerequisites _ _ H1), (start_node_no_prerequisites _ _ H2).
Qed.

(** X14.  The connections of a graph are used for one thing only, to tell
    which nodes have no incoming connection.  Two lists of connections
    (with hashable sources) that agree on that give the same run: same
    result or exception, same log, same variables.  Sources, outputs and
    input slots of the connections never matter. *)
Theorem wiring_only_picks_the_start_nodes rt ctx fuel nodes c1 c2 s :
  (forall node, In node nodes -> is_start_node c1 node = is_start_node c2 node) ->
  (forall conn, In conn c1 \/ In conn c2 -> py_hash (from_node conn) = Ok tt) ->
  _execute_workflow_graph rt ctx fuel nodes c1 s
  = _execute_workflow_graph rt ctx fuel nodes c2 s.
Proof.
  intros Hstart Hhash. unfold _execute_workflow_graph.
  apply bind_ext; [done |]. intros node_map s1.
  destruct (build_connection_map_returns c1) as [m1 ->]; [by auto |].
  destruct (build_connection_map_returns c2) as [m2 ->]; [by auto |].
  change (bind (lift (Ok ?m)) ?k s1) with (k m s1). cbv beta.
  rewrite (filter_ext_in (is_start_node c1) (is_start_node c2) nodes Hstart).
  destruct (List.filter (is_start_node c2) nodes) as [| n0 ns] eqn:Hstarts; [done |].
  apply bind_ext; [done |]. intros _ s2.
  apply bind_ext; [| done].
  apply for_each_ext. intros node Hnode s3.
  rewrite <- Hstarts in Hnode. apply filter_In in Hnode as [Hin H2].
  apply execute_node_start_ext; [| done]. by rewrite Hstart.
Qed.

Lemma wiring_only_picks_the_start_nodes_witness :
  _execute_workflow_graph example_runtime (example_context "main") 2
    [source_node; sink_node] [source_to_sink] (start_state example_runtime 0 (VStr "go"))
  = _execute_workflow_graph example_runtime (example_context "main") 2
      [source_node; sink_node] [stray_to_sink; source_to_sink]
      (start_state example_runtime 0 (VStr "go")).
Proof.
  apply wiring_only_picks_the_start_nodes.
  - intros node [<- | [<- | []]]; reflexivity.
  - intros conn [[<- | []] | [<- | [<- | []]]]; reflexivity.
Defined.

(** ** Payloads that cannot be parsed *)

(** A loop of pure steps leaves the state alone, and returns only when every
    step did. *)
Lemma for_each_lift {S A B} (f : A -> outcome B) (xs : list A) (s : S) :
  exists o,
    for_each (fun a => lift (f a)) xs s = Some (o, s) /\
    forall ys, o = Ok ys -> forall a, In a xs -> exists b, f a = Ok b.
Proof.
  induction xs as [| x rest (o & Hrest & Hall)]; simpl.
  - exists (Ok []). split; [done |]. by intros ys _ a [].
  - unfold bind at 1. destruct (f x) as [b | e] eqn:Hx; simpl.
    + unfold bind. rewrite Hrest. destruct o as [ys | e].
      * exists (Ok (b :: ys)). split; [done |].
        intros ? _ a [<- | Ha]; [by exists b | by eapply Hall].
      * exists (Raise e). by split.
    + exists (Raise e). by split.
Qed.

(** A malformed payload makes the [try] block raise before anything is
    dispatched. *)
Lemma parse_stage_raises rt ctx fuel execution_id wd s :
  malformed wd ->
  exists e, run_workflow rt ctx fuel execution_id wd s = Some (Raise e, s).
Proof.
  intros Hbad. unfold run_workflow, malformed, payload_items in *.
  destruct (py_get wd "nodes" (VList [])) as [raw_nodes | e]; [| by eexists].
  rewrite bind_lift_Ok.
  destruct (py_iter raw_nodes) as [items | e]; [| by eexists].
  rewrite bind_lift_Ok. unfold bind at 1.
  destruct (for_each_lift parse_node items s) as (o & -> & Hnodes).
  destruct o as [nodes | e]; [| by eexists].
  destruct (py_get wd "connections" (VList [])) as [raw_conns | e]; [| by eexists].
  rewrite bind_lift_Ok.
  destruct (py_iter raw_conns) as [wires | e]; [| by eexists].
  rewrite bind_lift_Ok. unfold bind at 1.
  destruct (for_each_lift parse_connection wires s) as (o & -> & Hwires).
  destruct o as [connections | e]; [| by eexists].
  destruct Hbad as [(item & e & Hin & Hitem) | (item & e & Hin & Hitem)].
  - destruct (Hnodes nodes eq_refl item Hin) as [b Hb]. congruence.
  - destruct (Hwires connections eq_refl item Hin) as [b Hb]. congruence.
Qed.

(** X15.  Parsing is all or nothing: when one node or one connection of the
    payload cannot be parsed (not an object, a key missing, an unknown node
    type), [execute_workflow] executes no node at all, whatever the other
    nodes are; it returns an error, and the log holds the error entry and
    nothing else. *)
Theorem malformed_payload_runs_nothing rt self now workflow_data input_data fuel :
  malformed workflow_data ->
  exists resp self' n msg entry,
    execute_workflow rt fuel self now workflow_data input_data
      = Some (Ok resp, self', n) /\
    dict_get "error" resp = Some (FStr msg) /\
    dict_get "result" resp = None /\
    dict_get "log" resp = Some (FLog [entry]) /\
    level entry = "error" /\ message entry = msg /\ entry_node entry = None.
Proof.
  intros Hbad. unfold execute_workflow, try_except.
  match goal with
  | |- context [run_workflow rt ?ctx fuel ?id workflow_data ?s0] =>
      destruct (parse_stage_raises rt ctx fuel id workflow_data s0 Hbad) as [e ->]
  end.
  rewrite fail_workflow_run. cbv zeta.
  eexists _, _, _, _, _. split; [reflexivity |]. by repeat split.
Qed.

Lemma malformed_payload_runs_nothing_witness :
  exists resp self' n msg entry,
    execute_workflow example_runtime 1 (new_engine (example_context "main")) 0
                     node_without_id VNone = Some (Ok resp, self', n) /\
    dict_get "error" resp = Some (FStr msg) /\
    dict_get "result" resp = None /\
    dict_get "log" resp = Some (FLog [entry]) /\
    level entry = "error" /\ message entry = msg /\ entry_node entry = None.
Proof.
  apply (malformed_payload_runs_nothing example_runtime
           (new_engine (example_context "main")) 0 node_without_id VNone 1).
  left. exists (VDict [("type", VStr "input")]), (Exn KeyError (quoted "id")).
  split; [by left | reflexivity].
Defined.

(** ** The API handler *)

(** A run whose [try] block raises returns the error mapping. *)
Lemma failed_block_gives_error_mapping rt fuel self now workflow_data input_data e s :
  run_workflow rt (context self) fuel (new_execution_id (clock rt now)) workflow_data
               (start_state rt now input_data) = Some (Raise e, s) ->
  exists resp self' n,
    execute_workflow rt fuel self now workflow_data input_data
      = Some (Ok resp, self', n) /\
    dict_get "error" resp = Some (FStr (exn_msg e)) /\
    dict_get "result" resp = None.
Proof.
  intros Hrun. unfold execute_workflow, try_except.
  change (context (register (new_execution_id (clock rt now))
                            (new_execution rt now input_data) self))
    with (context self).
  rewrite Hrun, fail_workflow_run. cbv zeta. by eexists _, _, _.
Qed.

(** X16.  The API handler answers [success: True] for a run that failed.
    Once the context is found, a request whose workflow cannot be parsed, or
    that carries no workflow at all, is answered with a result that has an
    error and no result value, next to [success: True].  For a request
    without a workflow the error is "No starting nodes found in workflow". *)
Theorem api_answers_success_for_a_failed_run rt fuel get_context input p ctx :
  get_context (default (VStr "") (dict_get "context" input)) = Ok ctx ->
  dict_get "workflow" input = None \/
  malformed (default (VDict []) (dict_get "workflow" input)) ->
  exists result p' msg,
    enhanced_features.execute_workflow rt fuel get_context input p
      = Some (Ok [("result", enhanced_features.OResult result);
                  ("success", enhanced_features.OBool true)], p') /\
    dict_get "error" result = Some (FStr msg) /\
    dict_get "result" result = None /\
    (dict_get "workflow" input = None ->
     msg = "No starting nodes found in workflow").
Proof.
  intros Hcontext Hfails.
  unfold enhanced_features.execute_workflow, workflow_engine.execute_workflow.
  rewrite Hcontext.
  destruct (workflow_engine.get_workflow_engine ctx p) as [engine p1].
  set (now := workflow_engine.readings p1).
  assert (Hblock : exists e,
    (exists s, run_workflow rt (context engine) fuel (new_execution_id (clock rt now))
                 (default (VDict []) (dict_get "workflow" input))
                 (start_state rt now VNone) = Some (Raise e, s)) /\
    (dict_get "workflow" input = None ->
     exn_msg e = "No starting nodes found in workflow")).
  { destruct (dict_get "workflow" input) as [wd |] eqn:Hwd.
    - destruct Hfails as [[=] | Hbad].
      destruct (parse_stage_raises rt (context engine) fuel
                  (new_execution_id (clock rt now)) _ (start_state rt now VNone) Hbad)
        as [e He].
      exists e. split; [by eexists | done].
    - exists (Exn PyException "No starting nodes found in workflow").
      split; [by eexists | done]. }
  destruct Hblock as (e & [s Hblock] & Hmsg).
  destruct (failed_block_gives_error_mapping _ _ _ _ _ _ _ _ Hblock)
    as (resp & self' & n & -> & Herror & Hresult).
  by eexists resp, _, (exn_msg e).
Qed.

Lemma api_answers_success_for_a_failed_run_witness :
  exists result p' msg,
    enhanced_features.execute_workflow example_runtime 1
      (fun id => Ok (example_context (py_str id))) [("action", VStr "execute_workflow")]
      fresh_process
      = Some (Ok [("result", enhanced_features.OResult result);
                  ("success", enhanced_features.OBool true)], p') /\
    dict_get "error" result = Some (FStr msg) /\
    dict_get "result" result = None /\
    (dict_get "workflow" [("action", VStr "execute_workflow")] = None ->
     msg = "No starting nodes found in workflow").
Proof.
  apply (api_answers_success_for_a_failed_run example_runtime 1
           (fun id => Ok (example_context (py_str id)))
           [("action", VStr "execute_workflow")] fresh_process (example_context "")).
  - reflexivity.
  - left. reflexivity.
Defined.

(** ** Which nodes a run executes *)

Section ExactlyOnce.

Variable rt : Runtime.
Variable ctx : AgentContext.

(** One round of the loop over the start nodes, when it returns: the node's
    id is in the cache afterwards, and it was dispatched in this round
    unless it was there before. *)
Lemma start_round_counts node_map connections fuel node s v s1 :
  is_start_node connections node = true ->
  execute_node rt ctx node_map connections fuel node s = Some (Ok v, s1) ->
  forall id,
    set_mem id (visited s1) = set_mem id (visited s) || py_eq (node_id node) id /\
    dispatch_count id (log_of s1)
    = (dispatch_count id (log_of s)
       + if set_mem id (visited s) then 0
         else if py_eq (node_id node) id then 1 else 0)%nat.
Proof.
  intros Hstart Hrun id. destruct fuel as [| fuel]; [done |]. simpl in Hrun.
  rewrite (start_node_no_prerequisites _ _ Hstart) in Hrun.
  apply bind_lift_Ok_inv in Hrun as ([] & _ & Hrun).
  unfold bind at 1 in Hrun. cbn [get_state] in Hrun.
  destruct (set_mem (node_id node) (visited s)) eqn:Hmem.
  - injection Hrun as _ <-.
    destruct (py_eq (node_id node) id) eqn:Hid.
    + rewrite <- (set_mem_congr _ _ _ Hid), Hmem. split; [done | lia].
    + rewrite orb_false_r. split; [done |]. destruct (set_mem id (visited s)); lia.
  - apply bind_Ok_inv in Hrun as (inputs & sa & Hpre & Hrun). injection Hpre as <- <-.
    apply bind_Ok_inv in Hrun as ([] & sb & Hcur & Hrun). injection Hcur as <-.
    apply bind_Ok_inv in Hrun as (res & sc & Hsingle & Hrun).
    apply bind_Ok_inv in Hrun as ([] & sd & Hmark & Hrun).
    injection Hmark as <-. injection Hrun as _ <-.
    apply single_node_dispatches_once in Hsingle as [Hvisited Hcount].
    cbn [visited execution set_current_node execution_log] in Hvisited, Hcount.
    unfold log_of. cbn [visited execution]. rewrite Hvisited, Hcount, set_mem_add_eq.
    split; [done |].
    destruct (py_eq (node_id node) id) eqn:Hid.
    + by rewrite <- (set_mem_congr _ _ _ Hid), Hmem.
    + destruct (set_mem id (visited s)); lia.
Qed.

Lemma walk_counts node_map connections fuel starts :
  Forall (fun node => is_start_node connections node = true) starts ->
  forall s vs s',
    for_each (execute_node rt ctx node_map connections fuel) starts s = Some (Ok vs, s') ->
    forall id,
      set_mem id (visited s')
      = set_mem id (visited s) || existsb (fun node => py_eq (node_id node) id) starts /\
      dispatch_count id (log_of s')
      = (dispatch_count id (log_of s)
         + if set_mem id (visited s) then 0
           else if existsb (fun node => py_eq (node_id node) id) starts then 1 else 0)%nat.
Proof.
  induction 1 as [| node rest Hnode _ IH]; intros s vs s' Hrun id; simpl in *.
  - injection Hrun as _ <-. rewrite orb_false_r. split; [done |].
    destruct (set_mem id (visited s)); lia.
  - apply bind_Ok_inv in Hrun as (v & s1 & Hhead & Hrun).
    apply bind_Ok_inv in Hrun as (vs' & s2 & Hrest & Hrun). injection Hrun as _ <-.
    destruct (start_round_counts _ _ _ _ _ _ _ Hnode Hhead id) as [Hv1 Hc1].
    destruct (IH _ _ _ Hrest id) as [Hv2 Hc2].
    rewrite Hv2, Hc2, Hv1, Hc1, orb_assoc. split; [done |].
    destruct (set_mem id (visited s)), (py_eq (node_id node) id),
             (existsb (fun n => py_eq (node_id n) id) rest); simpl; lia.
Qed.

(** X17.  A graph run that returns has executed exactly the nodes without
    incoming connection, each id once: by the log, the id of such a node
    was dispatched once, and no other id was dispatched at all. *)
Theorem a_run_executes_exactly_the_start_nodes fuel nodes connections s v s' id :
  _execute_workflow_graph rt ctx fuel nodes connections s = Some (Ok v, s') ->
  dispatch_count id (log_of s')
  = (dispatch_count id (log_of s)
     + if existsb (fun node => py_eq (node_id node) id)
                  (List.filter (is_start_node connections) nodes)
       then 1 else 0)%nat.
Proof.
  unfold _execute_workflow_graph. intros Hrun.
  apply bind_lift_Ok_inv in Hrun as (node_map & _ & Hrun).
  apply bind_lift_Ok_inv in Hrun as (connection_map & _ & Hrun).
  assert (Hstarts : Forall (fun node => is_start_node connections node = true)
                           (List.filter (is_start_node connections) nodes)).
  { apply List.Forall_forall. by intros node [_ Hn]%filter_In. }
  destruct (List.filter (is_start_node connections) nodes) as [| n0 ns]; [done |].
  apply bind_Ok_inv in Hrun as ([] & s1 & Hreset & Hrun). injection Hreset as <-.
  apply bind_Ok_inv in Hrun as (final_results & s2 & Hwalk & Hrun).
  destruct (walk_counts _ _ _ _ Hstarts _ _ _ Hwalk id) as [_ Hcount].
  cbn [visited set_mem existsb] in Hcount.
  assert (s' = s2) as ->.
  { destruct (List.filter _ nodes) as [| o os].
    - destruct final_results as [| r [| r' rs]]; by injection Hrun as _ <-.
    - by injection Hrun as _ <-. }
  exact Hcount.
Qed.

End ExactlyOnce.

Lemma a_run_executes_exactly_the_start_nodes_witness :
  exists v s',
    _execute_workflow_graph example_runtime (example_context "main") 1
      [source_node; sink_node] [source_to_sink] (start_state example_runtime 0 (VStr "go"))
      = Some (Ok v, s') /\
    dispatch_count (VStr "source") (log_of s') = 1%nat /\
    dispatch_count (VStr "sink") (log_of s') = 0%nat.
Proof.
  destruct (_execute_workflow_graph example_runtime (example_context "main") 1
              [source_node; sink_node] [source_to_sink]
              (start_state example_runtime 0 (VStr "go")))
    as [[[v | e] s'] |] eqn:Hrun; [| vm_compute in Hrun; discriminate Hrun
                                   | vm_compute in Hrun; discriminate Hrun].
  exists v, s'. split; [reflexivity |].
  rewrite !(a_run_executes_exactly_the_start_nodes _ _ _ _ _ _ _ _ _ Hrun).
  by split.
Defined.

(** ** What the validator does not look at *)

Lemma for_each_map {S A A' B} (f : A' -> ST S B) (g : A -> A') (xs : list A) s :
  for_each f (map g xs) s = for_each (fun a => f (g a)) xs s.
Proof.
  revert s. induction xs as [| a rest IH]; intros s; simpl; [done |].
  apply bind_ext; [done |]. intros b s'. by apply bind_ext.
Qed.

Lemma fold_each_map {S A A' B} (f : B -> A' -> ST S B) (g : A -> A') (xs : list A) acc s :
  fold_each f (map g xs) acc s = fold_each (fun b a => f b (g a)) xs acc s.
Proof.
  revert acc s. induction xs as [| a rest IH]; intros acc s; simpl; [done |].
  by apply bind_ext.
Qed.

Lemma retype_get t node key dflt :
  String.eqb key "type" = false -> py_get (retype t node) key dflt = py_get node key dflt.
Proof. intros Hkey. destruct node; try done. simpl. by rewrite dict_get_set_other. Qed.

Lemma retype_getitem t node key :
  String.eqb key "type" = false -> py_getitem (retype t node) key = py_getitem node key.
Proof. intros Hkey. destruct node; try done. simpl. by rewrite dict_get_set_other. Qed.

Lemma retype_check_node_fields t node s :
  py_truthy t = true -> typed node ->
  check_node_fields (retype t node) s = check_node_fields node s.
Proof.
  intros Ht Hnode. unfold check_node_fields.
  rewrite !retype_get by done.
  apply bind_ext; [done |]. intros i s1. apply bind_ext; [done |]. intros _ s2.
  destruct node as [| | | | | | fields |]; try done.
  specialize (Hnode _ eq_refl). cbn [retype py_get] in *.
  rewrite dict_get_set_same, !bind_lift_Ok.
  change (default VNone (Some t)) with t. by rewrite Hnode, Ht.
Qed.

Lemma retype_collect_node_ids t nodes s :
  collect_node_ids (map (retype t) nodes) s = collect_node_ids nodes s.
Proof.
  unfold collect_node_ids. rewrite fold_each_map. apply fold_each_ext.
  intros acc node s'. by rewrite retype_getitem.
Qed.

Lemma retype_check_orphan t n connected node s :
  check_orphan n connected (retype t node) s = check_orphan n connected node s.
Proof. unfold check_orphan. by rewrite retype_getitem, retype_get. Qed.

Lemma retype_build_adj_list t nodes connections :
  build_adj_list (map (retype t) nodes) connections = build_adj_list nodes connections.
Proof.
  unfold build_adj_list. f_equal.
  generalize (@Ok (list (value * list value)) []).
  induction nodes as [| node rest IH]; intros acc; simpl; [done |].
  by rewrite retype_getitem, IH.
Qed.

Lemma retype_guarded_cycle_check fuel t nodes connections f :
  guarded_cycle_check fuel (map (retype t) nodes) connections f
  = guarded_cycle_check fuel nodes connections f.
Proof.
  unfold guarded_cycle_check, _check_circular_dependencies.
  by rewrite retype_build_adj_list.
Qed.

(** X18.  The validator never looks at what the type of a node is, only at
    whether there is one: setting the ["type"] of every node of a payload to
    any truthy value, a NodeType or not, leaves the outcome of
    [validate_workflow] as it was.  (The executor parses the type, and
    fails on a string that is no NodeType.) *)
Theorem validator_never_reads_the_node_type fuel fields nodes t :
  dict_get "nodes" fields = Some (VList nodes) ->
  Forall typed nodes ->
  py_truthy t = true ->
  validate_workflow fuel (VDict (dict_set "nodes" (VList (map (retype t) nodes)) fields))
  = validate_workflow fuel (VDict fields).
Proof.
  intros Hnodes Htyped Ht. unfold validate_workflow.
  enough (Hbody : forall f,
    validate_body fuel (VDict (dict_set "nodes" (VList (map (retype t) nodes)) fields)) f
    = validate_body fuel (VDict fields) f) by (by rewrite Hbody).
  intros f. unfold validate_body. cbn [py_get].
  rewrite dict_get_set_same, (dict_get_set_other "connections" "nodes") by done.
  rewrite Hnodes.
  change (default (VList []) (Some (VList ?xs))) with (VList xs).
  rewrite !bind_lift_Ok. cbn [py_iter]. rewrite !bind_lift_Ok, length_map.
  apply bind_ext.
  { rewrite for_each_map. apply for_each_ext. intros node Hnode s.
    apply retype_check_node_fields; [done |].
    by eapply List.Forall_forall in Htyped. }
  intros _ s1. apply bind_ext; [done |]. intros connections s2.
  apply bind_ext; [done |]. intros _ s3.
  apply bind_ext; [apply retype_collect_node_ids |]. intros ids s4.
  apply bind_ext; [done |]. intros connected s5.
  apply bind_ext.
  { rewrite for_each_map. apply for_each_ext. intros node _ s.
    apply retype_check_orphan. }
  intros _ s6. apply bind_ext; [apply retype_guarded_cycle_check | done].
Qed.

Lemma validator_never_reads_the_node_type_witness :
  validate_workflow 3
    (VDict (dict_set "nodes"
              (VList (map (retype (VStr "banana"))
                          [wire_node "A" "input" []; wire_node "B" "output" []]))
              [("nodes", VList [wire_node "A" "input" []; wire_node "B" "output" []]);
               ("connections", VList [])]))
  = validate_workflow 3 two_orphans.
Proof.
  apply (validator_never_reads_the_node_type 3
           [("nodes", VList [wire_node "A" "input" []; wire_node "B" "output" []]);
            ("connections", VList [])]
           [wire_node "A" "input" []; wire_node "B" "output" []] (VStr "banana")).
  - reflexivity.
  - repeat constructor; by intros ty [= <-].
  - reflexivity.
Defined.
